(** * FlowProp: scripted playback and forced typing

    A shallow embedding of the playback and forced-input code of the
    FlowProp prototypes:

    - [src/App.jsx], first file: [useForcedTyping] and [LiveChat],
      the editors [DelaySelector], [ScriptEditor] and
      [ParticipantsEditor], and [LiveContainer];
    - [src/App.jsx], second file: the [useForcedTyping] variant that
      classifies keys with a regular expression, [LiveChatMode], and
      [useLocalStorage] under [ProjectProvider];
    - [src/App.jsx], third file: [FlowProp] with its inner
      [LiveModeView], the participants of its wizard and
      [handleAddMessage];
    - [part_000]: the on-screen keyboard demo;
    - [part_001]: [ForcedTypingInput], [LiveScreen] and
      [SetupScreen.addMessage].

    React state is modelled by explicit state passing: a handler is a
    function from the state of the render it closes over to the state
    of the next render, and a component that stays at its place in
    the tree keeps its state.  Timers are an explicit queue.  Strings
    are lists of UTF-16 code units, numbers that index strings are
    [Z], durations are exact rationals (milliseconds), and a call of
    [Math.random] takes its value from a given sequence of draws. *)

From Stdlib Require Import ZArith QArith List String Ascii Bool Lia.
From Stdlib Require Import Lqa Sorted DecimalString.
Import ListNotations.
Open Scope Z_scope.

(** ** JavaScript strings *)

Module JS.

(** A UTF-16 code unit. *)
Definition unit16 := N.
Definition jsstring := list unit16.

(** A string literal of the source (ASCII only). *)
Definition lit (s : string) : jsstring :=
  map N_of_ascii (list_ascii_of_string s).

(** [s.length] *)
Definition length (s : jsstring) : Z := Z.of_nat (List.length s).

(** [a === b] on strings *)
Fixpoint eqb (a b : jsstring) : bool :=
  match a, b with
  | [], [] => true
  | x :: a', y :: b' => N.eqb x y && eqb a' b'
  | _, _ => false
  end.

(** [s[i]]: [None] is [undefined] *)
Definition index (s : jsstring) (i : Z) : option unit16 :=
  if i <? 0 then None else nth_error s (Z.to_nat i).

(** [prev + c] where [c] was read with [s[i]]: [undefined] is
    converted to the text "undefined". *)
Definition append_indexed (prev : jsstring) (c : option unit16) : jsstring :=
  match c with
  | Some u => prev ++ [u]
  | None => prev ++ lit "undefined"
  end.

(** [s.slice(0, -1)] *)
Definition slice_0_m1 (s : jsstring) : jsstring := removelast s.

(** [s.substring(0, n)]: a negative [n] counts as 0, an [n] past the
    end as [s.length]. *)
Definition substring_0 (s : jsstring) (n : Z) : jsstring :=
  firstn (Z.to_nat n) s.

Definition Backspace : jsstring := lit "Backspace".
Definition Enter : jsstring := lit "Enter".

End JS.

(** ** Timers: [setTimeout] and [clearTimeout] *)

Module Timers.

(** The largest delay of a timer, in milliseconds: 2^31 - 1. *)
Definition max_delay : Q := 2147483647.

Section Queue.
Variable callback : Type.

Record timer := mkTimer { handle : nat; due : Q; run : callback }.

(** The host's timer table: the pending timers in the order they
    were set, the next free handle and the clock. *)
Record table := mkTable { pending : list timer; next : nat; now : Q }.

Definition empty : table := {| pending := []; next := 1%nat; now := 0%Q |}.

(** [setTimeout(cb, delay)].  The host keeps the delay as a signed
    32-bit number of milliseconds: a negative delay counts as 0, and
    a delay above [max_delay] does not fit, so that the timer is due
    at once. *)
Definition setTimeout (cb : callback) (delay : Q) (t : table) : nat * table :=
  let d := if Qle_bool 0 delay && Qle_bool delay max_delay then delay else 0%Q in
  (next t,
   {| pending := pending t ++ [ {| handle := next t; due := (now t + d)%Q; run := cb |} ];
      next := S (next t);
      now := now t |}).

(** [clearTimeout(h)] *)
Definition clearTimeout (h : nat) (t : table) : table :=
  {| pending := filter (fun x => negb (Nat.eqb (handle x) h)) (pending t);
     next := next t;
     now := now t |}.

(** The timer that fires next: the least due time, the one set
    first among equals. *)
Fixpoint earliest (l : list timer) : option timer :=
  match l with
  | [] => None
  | x :: l' =>
      match earliest l' with
      | None => Some x
      | Some y => if Qle_bool (due x) (due y) then Some x else Some y
      end
  end.

(** Time passes until the next timer is due; it leaves the table
    and its callback is handed to the caller. *)
Definition fire (t : table) : option (callback * table) :=
  match earliest (pending t) with
  | None => None
  | Some x =>
      Some (run x,
            {| pending := filter (fun y => negb (Nat.eqb (handle y) (handle x))) (pending t);
               next := next t;
               now := if Qle_bool (now t) (due x) then due x else now t |})
  end.
End Queue.

Arguments handle {callback} _.
Arguments due {callback} _.
Arguments run {callback} _.
Arguments pending {callback} _.
Arguments next {callback} _.
Arguments now {callback} _.
Arguments empty {callback}.
Arguments setTimeout {callback} _ _ _.
Arguments clearTimeout {callback} _ _.
Arguments earliest {callback} _.
Arguments fire {callback} _.
End Timers.

(** ** [useForcedTyping], first file of App.jsx (lines 116-144) *)

Module ForcedTypingA.

Record state := { displayText : JS.jsstring; scriptIndex : Z }.

(** [useState('')], [useState(0)] *)
Definition init : state := {| displayText := []; scriptIndex := 0 |}.

(** [handleKeyDown] (App.jsx:120-139): the next state and the
    argument of [onComplete], when it is called. *)
Definition handleKeyDown (scriptText : JS.jsstring) (st : state) (key : JS.jsstring)
  : state * option JS.jsstring :=
  if JS.eqb key JS.Backspace then
    if scriptIndex st >? 0 then
      ({| displayText := JS.slice_0_m1 (displayText st);
          scriptIndex := scriptIndex st - 1 |}, None)
    else (st, None)
  else if JS.eqb key JS.Enter then
    if scriptIndex st >=? JS.length scriptText then (st, Some (displayText st))
    else (st, None)
  else if JS.length key =? 1 then
    if scriptIndex st <? JS.length scriptText then
      let nextChar := JS.index scriptText (scriptIndex st) in
      ({| displayText := JS.append_indexed (displayText st) nextChar;
          scriptIndex := scriptIndex st + 1 |}, None)
    else (st, None)
  else (st, None).

Definition isComplete (scriptText : JS.jsstring) (st : state) : bool :=
  scriptIndex st >=? JS.length scriptText.

(** The keys of a list, one render after the other; the texts handed
    to [onComplete] are collected in order. *)
Fixpoint run (scriptText : JS.jsstring) (st : state) (keys : list JS.jsstring)
  : state * list JS.jsstring :=
  match keys with
  | [] => (st, [])
  | k :: ks =>
      let '(st1, out) := handleKeyDown scriptText st k in
      let '(st2, outs) := run scriptText st1 ks in
      (st2, match out with Some t => t :: outs | None => outs end)
  end.

End ForcedTypingA.

(** ** [useForcedTyping], second file of App.jsx (lines 745-784) *)

Module ForcedTypingB.

Record state := { displayText : JS.jsstring; scriptIndex : Z }.

Definition init : state := {| displayText := []; scriptIndex := 0 |}.

(** [\s] of a JavaScript regular expression *)
Definition white_space (u : JS.unit16) : bool :=
  let u := Z.of_N u in
  ((9 <=? u) && (u <=? 13)) || (u =? 32) || (u =? 160) || (u =? 5760)
  || ((8192 <=? u) && (u <=? 8202)) || (u =? 8232) || (u =? 8233)
  || (u =? 8239) || (u =? 8287) || (u =? 12288) || (u =? 65279).

(** The character class of the key test: letters, digits, [\s] and
    the marks . , ! ? ; : ' ( ) - and the double quote (code 34). *)
Definition in_class (u : JS.unit16) : bool :=
  let c := Z.of_N u in
  ((97 <=? c) && (c <=? 122)) || ((65 <=? c) && (c <=? 90))
  || ((48 <=? c) && (c <=? 57)) || white_space u
  || (c =? 46) || (c =? 44) || (c =? 33) || (c =? 63) || (c =? 59)
  || (c =? 58) || (c =? 39) || (c =? 34) || (c =? 40) || (c =? 41)
  || (c =? 45).

(** [e.key.match(/^[class]$/)] is not null: the key is exactly one
    code unit of the class. *)
Definition key_matches (key : JS.jsstring) : bool :=
  match key with
  | [u] => in_class u
  | _ => false
  end.

(** [handleKeyDown] (App.jsx:749-770): three [if] statements in
    sequence.  Their
    conditions read the state of the render; the updater functions
    ([prev => ...]) apply to the state as updated so far, the plain
    sets of the last branch overwrite it. *)
Definition handleKeyDown (scriptText : JS.jsstring) (st : state) (key : JS.jsstring)
  : state * option JS.jsstring :=
  let s1 :=
    if key_matches key then
      if scriptIndex st <? JS.length scriptText then
        let nextChar := JS.index scriptText (scriptIndex st) in
        {| displayText := JS.append_indexed (displayText st) nextChar;
           scriptIndex := scriptIndex st + 1 |}
      else st
    else st in
  let s2 :=
    if JS.eqb key JS.Backspace && (JS.length (displayText st) >? 0) then
      {| displayText := JS.slice_0_m1 (displayText s1);
         scriptIndex := Z.max 0 (scriptIndex s1 - 1) |}
    else s1 in
  if JS.eqb key JS.Enter && (scriptIndex st >=? JS.length scriptText) then
    (init, Some (displayText st))
  else (s2, None).

(** [reset] *)
Definition reset (st : state) : state := init.

(** The two state variables move together: the text on display is
    as long as the index says. *)
Definition consistent (st : state) : Prop :=
  JS.length (displayText st) = scriptIndex st.

Fixpoint run (scriptText : JS.jsstring) (st : state) (keys : list JS.jsstring)
  : state * list JS.jsstring :=
  match keys with
  | [] => (st, [])
  | k :: ks =>
      let '(st1, out) := handleKeyDown scriptText st k in
      let '(st2, outs) := run scriptText st1 ks in
      (st2, match out with Some t => t :: outs | None => outs end)
  end.

End ForcedTypingB.

(** ** part_000: the on-screen keyboard demo *)

Module Part000.

(** [FORCED_TEXT]; the two letters outside ASCII are the code units
    214 and 196. *)
Definition FORCED_TEXT : JS.jsstring :=
  (JS.lit "L" ++ [214%N] ++ JS.lit "SENORDET " ++ [196%N] ++ JS.lit "R MIDNATTSSOL")%list.

Record state := {
  displayText : JS.jsstring;
  currentIndex : Z;
  isFinished : bool;
  popup : option JS.unit16
}.

Definition init : state :=
  {| displayText := []; currentIndex := 0; isFinished := false; popup := None |}.

(** A handler either returns or throws a [TypeError]. *)
Inductive outcome := Returns (st : state) | TypeError.

(** [showKeyPopup(e)] (part_000:57-73).  [Key] calls its [onClick] with the key's
    label, so [e] is a string: [e.currentTarget] is [undefined] and
    the call [keyElement.getBoundingClientRect()] on it throws
    before [setPopup] is reached. *)
Definition showKeyPopup (st : state) (e : JS.jsstring) : outcome :=
  if currentIndex st >=? JS.length FORCED_TEXT then Returns st
  else TypeError.

(** [handleKeyPress(e)] (part_000:76-82) *)
Definition handleKeyPress (st : state) (e : JS.jsstring) : outcome :=
  if currentIndex st <? JS.length FORCED_TEXT then
    match showKeyPopup st e with
    | TypeError => TypeError
    | Returns st1 =>
        Returns {| displayText := JS.append_indexed (displayText st1)
                                    (JS.index FORCED_TEXT (currentIndex st));
                   currentIndex := currentIndex st1 + 1;
                   isFinished := isFinished st1;
                   popup := popup st1 |}
    end
  else Returns st.

(** [handleBackspace] (part_000:84-89) *)
Definition handleBackspace (st : state) : state :=
  if currentIndex st >? 0 then
    {| displayText := JS.slice_0_m1 (displayText st);
       currentIndex := currentIndex st - 1;
       isFinished := isFinished st;
       popup := popup st |}
  else st.

(** [handleEnter] (part_000:91-95) *)
Definition handleEnter (st : state) : state :=
  if currentIndex st =? JS.length FORCED_TEXT then
    {| displayText := displayText st;
       currentIndex := currentIndex st;
       isFinished := true;
       popup := popup st |}
  else st.

(** The buttons of the keyboard. *)
Inductive button := Letter (label : JS.jsstring) | Erase | Submit.

(** A click.  The keyboard is rendered while [isFinished] is false;
    a handler that throws leaves the state as it was. *)
Definition click (st : state) (b : button) : state :=
  if isFinished st then st
  else
    match b with
    | Letter label =>
        match handleKeyPress st label with
        | Returns st' => st'
        | TypeError => st
        end
    | Erase => handleBackspace st
    | Submit => handleEnter st
    end.

(** The timer of the effect on [isFinished], 3000 ms after the
    message is finished. *)
Definition resetTimeout (st : state) : state :=
  {| displayText := []; currentIndex := 0; isFinished := false; popup := popup st |}.

Definition clicks (st : state) (bs : list button) : state := fold_left click bs st.

End Part000.

(** ** part_001: [ForcedTypingInput] *)

Module ForcedTypingInput.

Record state := { value : JS.jsstring; index : Z }.

Definition init : state := {| value := []; index := 0 |}.

(** [handleKeyDown] (part_001:88-108): the next state and the
    argument of [onComplete], when it is called. *)
Definition handleKeyDown (textToType : JS.jsstring) (st : state) (key : JS.jsstring)
  : state * option JS.jsstring :=
  if JS.eqb key JS.Backspace then
    if index st >? 0 then
      ({| value := JS.substring_0 textToType (index st - 1);
          index := index st - 1 |}, None)
    else (st, None)
  else if JS.eqb key JS.Enter then
    if index st =? JS.length textToType then (init, Some textToType)
    else (st, None)
  else if (JS.length key =? 1) && (index st <? JS.length textToType) then
    ({| value := JS.substring_0 textToType (index st + 1);
        index := index st + 1 |}, None)
  else (st, None).

Fixpoint run (textToType : JS.jsstring) (st : state) (keys : list JS.jsstring)
  : state * list JS.jsstring :=
  match keys with
  | [] => (st, [])
  | k :: ks =>
      let '(st1, out) := handleKeyDown textToType st k in
      let '(st2, outs) := run textToType st1 ks in
      (st2, match out with Some t => t :: outs | None => outs end)
  end.

End ForcedTypingInput.

(** ** [FlowProp] and [LiveModeView], third file of App.jsx *)

Module FlowProp.

Record Message := {
  id : Z;
  senderName : string;
  text : JS.jsstring;
  isActor : bool
}.

Inductive DelayMode := natural | custom.

Record Project := {
  messages : list Message;
  delayMode : DelayMode;
  customDelay : Z
}.

Inductive View := home | wizard | main | live.

(** The callback of the timer set in [handleKeyDown]: it closes
    over the project, the next message and its index. *)
Record Callback := {
  cb_project : Project;
  nextMessage : Message;
  nextNonActorIndex : Z
}.

(** The state of [FlowProp] that live mode uses, and the timers. *)
Record state := {
  currentView : View;
  isLiveMode : bool;
  liveMessages : list Message;
  currentMessageIndex : Z;
  forcedText : JS.jsstring;
  forcedTextIndex : Z;
  inputValue : JS.jsstring;
  timers : Timers.table Callback
}.

Definition init : state :=
  {| currentView := main; isLiveMode := false; liveMessages := [];
     currentMessageIndex := 0; forcedText := []; forcedTextIndex := 0;
     inputValue := []; timers := Timers.empty |}.

(** [arr[i]] *)
Definition at_index {A} (l : list A) (i : Z) : option A :=
  if i <? 0 then None else nth_error l (Z.to_nat i).

(** [startLiveMode] (App.jsx:1776-1789) *)
Definition startLiveMode (p : Project) (st : state) : state :=
  let actorMessages := filter isActor (messages p) in
  match actorMessages with
  | m :: _ =>
      {| currentView := live; isLiveMode := true; liveMessages := [];
         currentMessageIndex := 0; forcedText := text m; forcedTextIndex := 0;
         inputValue := []; timers := timers st |}
  | [] =>
      {| currentView := live; isLiveMode := true; liveMessages := [];
         currentMessageIndex := 0; forcedText := forcedText st;
         forcedTextIndex := forcedTextIndex st;
         inputValue := inputValue st; timers := timers st |}
  end.

(** The back button in the header of [LiveModeView]
    (App.jsx:2008-2011). *)
Definition exitLive (st : state) : state :=
  {| currentView := main; isLiveMode := false; liveMessages := liveMessages st;
     currentMessageIndex := currentMessageIndex st; forcedText := forcedText st;
     forcedTextIndex := forcedTextIndex st; inputValue := inputValue st;
     timers := timers st |}.

(** [Math.random() * 2000 + 1000] with the draw [r], or
    [customDelay * 1000]. *)
Definition delay_of (p : Project) (r : Q) : Q :=
  match delayMode p with
  | natural => (r * 2000 + 1000)%Q
  | custom => inject_Z (customDelay p * 1000)
  end.

(** [LiveModeView.handleKeyDown] (App.jsx:1946-1999); [r] is the
    draw of [Math.random] should the handler ask for one.  The first
    test is [!forcedText]: the empty string. *)
Definition handleKeyDown (p : Project) (r : Q) (st : state) (key : JS.jsstring) : state :=
  if JS.length (forcedText st) =? 0 then st
  else if JS.eqb key JS.Backspace then
    if forcedTextIndex st >? 0 then
      {| currentView := currentView st; isLiveMode := isLiveMode st;
         liveMessages := liveMessages st;
         currentMessageIndex := currentMessageIndex st;
         forcedText := forcedText st;
         forcedTextIndex := forcedTextIndex st - 1;
         inputValue := JS.substring_0 (forcedText st) (forcedTextIndex st - 1);
         timers := timers st |}
    else st
  else if JS.eqb key JS.Enter then
    if forcedTextIndex st >=? JS.length (forcedText st) then
      let actorMessages := filter isActor (messages p) in
      match nth_error actorMessages (List.length (filter isActor (liveMessages st))) with
      | None => st
      | Some currentActorMessage =>
          let idx := currentMessageIndex st + 1 in
          let scheduled :=
            if idx <? Z.of_nat (List.length (messages p)) then
              match at_index (messages p) idx with
              | Some nm =>
                  if isActor nm then timers st
                  else snd (Timers.setTimeout
                              {| cb_project := p; nextMessage := nm; nextNonActorIndex := idx |}
                              (delay_of p r) (timers st))
              | None => timers st
              end
            else timers st in
          {| currentView := currentView st; isLiveMode := isLiveMode st;
             liveMessages := liveMessages st ++ [currentActorMessage];
             currentMessageIndex := currentMessageIndex st;
             forcedText := forcedText st;
             forcedTextIndex := forcedTextIndex st;
             inputValue := [];
             timers := scheduled |}
      end
    else st
  else if (JS.length key =? 1) || JS.eqb key (JS.lit " ") then
    if forcedTextIndex st <? JS.length (forcedText st) then
      {| currentView := currentView st; isLiveMode := isLiveMode st;
         liveMessages := liveMessages st;
         currentMessageIndex := currentMessageIndex st;
         forcedText := forcedText st;
         forcedTextIndex := forcedTextIndex st + 1;
         inputValue := JS.substring_0 (forcedText st) (forcedTextIndex st + 1);
         timers := timers st |}
    else st
  else st.

(** The body of the timer's callback (App.jsx:1975-1988). *)
Definition deliver (cb : Callback) (st : state) : state :=
  let delivered := liveMessages st ++ [nextMessage cb] in
  match find isActor
          (skipn (Z.to_nat (nextNonActorIndex cb + 1)) (messages (cb_project cb))) with
  | Some nextActorMessage =>
      {| currentView := currentView st; isLiveMode := isLiveMode st;
         liveMessages := delivered;
         currentMessageIndex := nextNonActorIndex cb;
         forcedText := text nextActorMessage;
         forcedTextIndex := 0;
         inputValue := inputValue st;
         timers := timers st |}
  | None =>
      {| currentView := currentView st; isLiveMode := isLiveMode st;
         liveMessages := delivered;
         currentMessageIndex := nextNonActorIndex cb;
         forcedText := forcedText st;
         forcedTextIndex := forcedTextIndex st;
         inputValue := inputValue st;
         timers := timers st |}
  end.

(** What can happen to the component: a key goes to the input of
    [LiveModeView] (only while that view is shown; [draw] is what
    [Math.random] returns should the handler call it), the next timer
    fires, the back button, [Go Live] (enabled in the main view when
    the script is not empty; of a project that does not start from
    the lock screen). *)
Inductive event :=
| Key (key : JS.jsstring) (draw : Q)
| Fire
| Exit
| GoLive.

(** The state with another timer table. *)
Definition with_timers (st : state) (t : Timers.table Callback) : state :=
  {| currentView := currentView st; isLiveMode := isLiveMode st;
     liveMessages := liveMessages st;
     currentMessageIndex := currentMessageIndex st;
     forcedText := forcedText st; forcedTextIndex := forcedTextIndex st;
     inputValue := inputValue st; timers := t |}.

Definition step (p : Project) (st : state) (ev : event) : state :=
  match ev with
  | Key key r =>
      match currentView st with
      | live => handleKeyDown p r st key
      | _ => st
      end
  | Fire =>
      match Timers.fire (timers st) with
      | None => st
      | Some (cb, t) => deliver cb (with_timers st t)
      end
  | Exit =>
      match currentView st with
      | live => exitLive st
      | _ => st
      end
  | GoLive =>
      match currentView st, messages p with
      | main, _ :: _ => startLiveMode p st
      | _, _ => st
      end
  end.

Definition steps (p : Project) (st : state) (evs : list event) : state :=
  fold_left (step p) evs st.

End FlowProp.

(** ** part_001: [LiveScreen] *)

Module LiveScreen.

(** A message of the conversation.  [ref] stands for the identity of
    the JavaScript object: two entries of an array are the same
    object exactly when their [ref] is the same. *)
Record Message := {
  ref : nat;
  id : string;
  sender : string;
  text : JS.jsstring;
  delay : Q
}.

Inductive TimingMode := natural | manual.
Inductive WritingMode := prop | real.

Record Settings := {
  writingMode : WritingMode;
  timingMode : TimingMode;
  initialDelay : Q
}.

(** An entry of [messages]: [{ ...msg, timestamp: new Date() }] *)
Record Shown := { msg : Message; timestamp : Q }.

(** The two kinds of callback handed to [setTimeout]. *)
Inductive Callback :=
| typingTimeout
| messageTimeout (m : Message).

Record state := {
  messages : list Shown;
  isTyping : bool;
  currentScriptIndex : Z;
  timeouts : list nat;
  input : option ForcedTypingInput.state;
  timers : Timers.table Callback
}.

Definition isMe (m : Message) : bool := String.eqb (sender m) "me".

(** State of the pass over [fullScript]. *)
Record pass := {
  cumulativeDelay : Q;
  p_timeouts : list nat;
  p_timers : Timers.table Callback;
  draws : nat
}.

Section Effect.
(** [Math.random()]: the n-th draw of the session. *)
Variable random : nat -> Q.

(** The body of [fullScript.forEach] (part_001:522-544). *)
Definition schedule_one (s : Settings) (a : pass) (m : Message) : pass :=
  let isContactMessage := negb (isMe m) in
  let '(messageDelay, n1) :=
    match timingMode s with
    | natural =>
        ((inject_Z (JS.length (text m) * 50) + random (draws a) * 500)%Q, S (draws a))
    | manual => ((delay m * 1000)%Q, draws a)
    end in
  let a1 :=
    if isContactMessage then
      let '(h, t) := Timers.setTimeout typingTimeout (cumulativeDelay a) (p_timers a) in
      {| cumulativeDelay := (cumulativeDelay a + (1000 + random n1 * 1000))%Q;
         p_timeouts := p_timeouts a ++ [h];
         p_timers := t;
         draws := S n1 |}
    else
      {| cumulativeDelay := cumulativeDelay a;
         p_timeouts := p_timeouts a;
         p_timers := p_timers a;
         draws := n1 |} in
  let '(h, t) := Timers.setTimeout (messageTimeout m) (cumulativeDelay a1) (p_timers a1) in
  {| cumulativeDelay := (cumulativeDelay a1 + messageDelay)%Q;
     p_timeouts := p_timeouts a1 ++ [h];
     p_timers := t;
     draws := draws a1 |}.

(** [timeouts.current.forEach(clearTimeout)] *)
Definition clear_all (hs : list nat) (t : Timers.table Callback) : Timers.table Callback :=
  fold_left (fun t h => Timers.clearTimeout h t) hs t.

(** The effect of [LiveScreen] (part_001:510-549), run after the
    first render and whenever [conversation] or [settings] is another
    object. *)
Definition effect (conversation : list Message) (s : Settings) (st : state) : state :=
  let t0 := clear_all (timeouts st) (timers st) in
  let a0 := {| cumulativeDelay := (initialDelay s * 1000)%Q;
               p_timeouts := [];
               p_timers := t0;
               draws := 0%nat |} in
  let a := fold_left (schedule_one s) conversation a0 in
  {| messages := [];
     isTyping := false;
     currentScriptIndex := 0;
     timeouts := p_timeouts a;
     input := input st;
     timers := p_timers a |}.
End Effect.

(** The function the effect returns: React calls it before the
    effect runs again and when the component is removed. *)
Definition cleanup (st : state) : state :=
  {| messages := messages st;
     isTyping := isTyping st;
     currentScriptIndex := currentScriptIndex st;
     timeouts := timeouts st;
     input := input st;
     timers := clear_all (timeouts st) (timers st) |}.

(** The component as first rendered, and after its effect. *)
Definition blank : state :=
  {| messages := []; isTyping := false; currentScriptIndex := 0;
     timeouts := []; input := None; timers := Timers.empty |}.

(** [conversation.find((msg, index) => msg.sender === 'me' &&
    index >= currentScriptIndex)], with the index it stops at. *)
Fixpoint find_from (l : list Message) (index : Z) (cursor : Z) : option (Z * Message) :=
  match l with
  | [] => None
  | m :: l' =>
      if isMe m && (index >=? cursor) then Some (index, m)
      else find_from l' (index + 1) cursor
  end.

Definition find_next (conversation : list Message) (cursor : Z) : option Message :=
  option_map snd (find_from conversation 0 cursor).

(** [conversation.indexOf(x)]: the first index that holds the object
    [x], or -1. *)
Fixpoint indexOf_from (l : list Message) (index : Z) (x : Message) : Z :=
  match l with
  | [] => -1
  | m :: l' => if Nat.eqb (ref m) (ref x) then index else indexOf_from l' (index + 1) x
  end.

Definition indexOf (conversation : list Message) (x : Message) : Z :=
  indexOf_from conversation 0 x.

(** [handleActorSend] (part_001:551-560) *)
Definition handleActorSend (conversation : list Message) (st : state)
           (actorMessage : JS.jsstring) : state :=
  match find_next conversation (currentScriptIndex st) with
  | None => st
  | Some nextMessage =>
      if JS.eqb actorMessage (text nextMessage) then
        {| messages := messages st
                       ++ [ {| msg := nextMessage; timestamp := Timers.now (timers st) |} ];
           isTyping := isTyping st;
           currentScriptIndex := indexOf conversation nextMessage + 1;
           timeouts := timeouts st;
           input := input st;
           timers := timers st |}
      else st
  end.

(** The bodies of the two timer callbacks. *)
Definition run_callback (cb : Callback) (st : state) : state :=
  match cb with
  | typingTimeout =>
      {| messages := messages st; isTyping := true;
         currentScriptIndex := currentScriptIndex st;
         timeouts := timeouts st; input := input st; timers := timers st |}
  | messageTimeout m =>
      {| messages := messages st
                     ++ [ {| msg := m; timestamp := Timers.now (timers st) |} ];
         isTyping := false;
         currentScriptIndex := currentScriptIndex st;
         timeouts := timeouts st; input := input st; timers := timers st |}
  end.

Definition with_timers (st : state) (t : Timers.table Callback) : state :=
  {| messages := messages st; isTyping := isTyping st;
     currentScriptIndex := currentScriptIndex st;
     timeouts := timeouts st; input := input st; timers := t |}.

Definition with_input (st : state) (i : option ForcedTypingInput.state) : state :=
  {| messages := messages st; isTyping := isTyping st;
     currentScriptIndex := currentScriptIndex st;
     timeouts := timeouts st; input := i; timers := timers st |}.

(** The next timer fires. *)
Definition fire (st : state) : state :=
  match Timers.fire (timers st) with
  | None => st
  | Some (cb, t) => run_callback cb (with_timers st t)
  end.

(** The footer of a render: [ForcedTypingInput] is there when the
    writing mode is [prop] and an actor message remains.  It keeps
    its state from render to render while it is there and starts
    from its initial state when it comes back. *)
Definition render (conversation : list Message) (s : Settings) (st : state) : state :=
  match writingMode s, find_next conversation (currentScriptIndex st) with
  | prop, Some _ =>
      match input st with
      | Some _ => st
      | None => with_input st (Some ForcedTypingInput.init)
      end
  | _, _ => with_input st None
  end.

(** The first render and its effect. *)
Definition mount (random : nat -> Q) (conversation : list Message) (s : Settings) : state :=
  render conversation s (effect random conversation s blank).

(** [conversation] or [settings] is replaced by another object:
    the cleanup, then the effect again. *)
Definition propChange (random : nat -> Q) (conversation' : list Message) (s' : Settings)
           (st : state) : state :=
  render conversation' s' (effect random conversation' s' (cleanup st)).

(** The component is removed ([onExit]). *)
Definition unmount (st : state) : state := cleanup st.

(** A key goes to [ForcedTypingInput] when it is rendered; the
    plain input of the other branch has no handler. *)
Definition keyDown (conversation : list Message) (s : Settings) (st : state)
           (key : JS.jsstring) : state :=
  match input st, find_next conversation (currentScriptIndex st) with
  | Some i, Some nextActorMessage =>
      let '(i', out) := ForcedTypingInput.handleKeyDown (text nextActorMessage) i key in
      match out with
      | Some completed =>
          render conversation s (with_input (handleActorSend conversation st completed) (Some i'))
      | None => with_input st (Some i')
      end
  | _, _ => st
  end.

Inductive event :=
| Key (key : JS.jsstring)
| Fire.

Definition step (conversation : list Message) (s : Settings) (st : state) (ev : event) : state :=
  match ev with
  | Key key => keyDown conversation s st key
  | Fire => fire st
  end.

Definition steps (conversation : list Message) (s : Settings) (st : state)
           (evs : list event) : state :=
  fold_left (step conversation s) evs st.

(** The ids of the delivered lines, in the order of delivery. *)
Definition delivered_ids (st : state) : list string :=
  map (fun x => id (msg x)) (messages st).

(** The states of a mounted [LiveScreen]: after the first render,
    after an event, after its props were replaced. *)
Inductive reachable : list Message -> Settings -> state -> Prop :=
| reach_mount random conversation s :
    reachable conversation s (mount random conversation s)
| reach_step conversation s st ev :
    reachable conversation s st ->
    reachable conversation s (step conversation s st ev)
| reach_props random conversation s st conversation' s' :
    reachable conversation s st ->
    reachable conversation' s' (propChange random conversation' s' st).

(** Every pending timer is listed in [timeouts.current]. *)
Definition tracked (st : state) : Prop :=
  forall x, In x (Timers.pending (timers st)) -> In (Timers.handle x) (timeouts st).

(** The callbacks that one pass over a script hands to
    [setTimeout], in order. *)
Definition script_callbacks (conversation : list Message) : list Callback :=
  flat_map (fun m => if isMe m then [messageTimeout m]
                     else [typingTimeout; messageTimeout m]) conversation.

(** In the words of the claim on [handleActorSend]: [m], at
    position [i], is the earliest message of the script that is sent
    by 'me' and stands at or after the cursor. *)
Definition earliest_actor (conversation : list Message) (cursor : Z)
           (i : nat) (m : Message) : Prop :=
  nth_error conversation i = Some m
  /\ isMe m = true
  /\ cursor <= Z.of_nat i
  /\ forall j m', (j < i)%nat -> nth_error conversation j = Some m' ->
                  isMe m' = true -> Z.of_nat j < cursor.

End LiveScreen.

(** ** [LiveChat], first file of App.jsx (lines 617-685) *)

Module LiveChat.

(** A delay of the script editor: the word [natural] or a number. *)
Inductive Delay := natural | seconds (n : Z).

Record Message := {
  id : string;
  participantId : string;
  text : JS.jsstring;
  startDelay : Delay;
  typingDelay : Delay
}.

(** An entry of [displayedMessages]: [{ ...message, timestamp }],
    or [{ ...activeMessage, text, timestamp }] for an actor line. *)
Record Shown := { line : Message; timestamp : Q }.

(** The callbacks of the two nested timers of [processNextMessage]. *)
Inductive Callback :=
| startTyping (message : Message) (typingSpeedMs : Z)
| deliver (message : Message).

Record state := {
  displayedMessages : list Shown;
  scriptIndex : Z;
  isTyping : bool;
  input : option ForcedTypingA.state;
  timers : Timers.table Callback
}.

Definition blank : state :=
  {| displayedMessages := []; scriptIndex := 0; isTyping := false;
     input := None; timers := Timers.empty |}.

(** [currentScene.config.messages[scriptIndex]] *)
Definition activeMessage (script : list Message) (st : state) : option Message :=
  if scriptIndex st <? 0 then None else nth_error script (Z.to_nat (scriptIndex st)).

(** [activeMessage?.participantId === 'you'] *)
Definition isActorTurn (script : list Message) (st : state) : bool :=
  match activeMessage script st with
  | Some m => String.eqb (participantId m) "you"
  | None => false
  end.

(** [x || 1000] on a number *)
Definition or_1000 (x : Q) : Q := if Qeq_bool x 0 then 1000%Q else x.

Definition startDelayMs (message : Message) : Q :=
  or_1000 match startDelay message with
          | natural => ((inject_Z (JS.length (text message)) / 15) * 1000)%Q
          | seconds n => inject_Z (n * 1000)
          end.

Definition typingSpeedMs (message : Message) : Z :=
  match typingDelay message with
  | natural => Z.max 30 (120 - JS.length (text message))
  | seconds n => if n * 50 =? 0 then 50 else n * 50
  end.

Definition with_timers (st : state) (t : Timers.table Callback) : state :=
  {| displayedMessages := displayedMessages st; scriptIndex := scriptIndex st;
     isTyping := isTyping st; input := input st; timers := t |}.

Definition with_input (st : state) (i : option ForcedTypingA.state) : state :=
  {| displayedMessages := displayedMessages st; scriptIndex := scriptIndex st;
     isTyping := isTyping st; input := i; timers := timers st |}.

(** [processNextMessage] (App.jsx:631-653), up to the first
    [setTimeout]. *)
Definition processNextMessage (script : list Message) (st : state) : state :=
  if (scriptIndex st >=? Z.of_nat (List.length script)) || isActorTurn script st then st
  else
    match activeMessage script st with
    | None => st
    | Some message =>
        with_timers st
          (snd (Timers.setTimeout (startTyping message (typingSpeedMs message))
                  (startDelayMs message) (timers st)))
    end.

(** The last child of the render: [ForcedTypingInput] is there
    while [isActorTurn] holds.  It has no key, so React keeps its
    hook state from one render to the next while it is there; it
    starts from [useState]'s initial values when it comes back. *)
Definition render (script : list Message) (st : state) : state :=
  if isActorTurn script st then
    match input st with
    | Some _ => st
    | None => with_input st (Some ForcedTypingA.init)
    end
  else with_input st None.

(** A render after [scriptIndex] or the script changed: the effect
    [processNextMessage] runs again. *)
Definition rerender (script : list Message) (st : state) : state :=
  processNextMessage script (render script st).

Definition mount (script : list Message) : state := rerender script blank.

(** [handleActorSend(text)] (App.jsx:657-661) of the render whose
    active message is [active]. *)
Definition handleActorSend (active : Message) (t : JS.jsstring) (st : state) : state :=
  {| displayedMessages :=
       displayedMessages st
       ++ [ {| line := {| id := id active; participantId := participantId active;
                          text := t; startDelay := startDelay active;
                          typingDelay := typingDelay active |};
               timestamp := Timers.now (timers st) |} ];
     scriptIndex := scriptIndex st + 1;
     isTyping := isTyping st;
     input := input st;
     timers := timers st |}.

(** The bodies of the timer callbacks. *)
Definition run_callback (cb : Callback) (st : state) : state :=
  match cb with
  | startTyping message speed =>
      let totalTypingTime := JS.length (text message) * speed in
      {| displayedMessages := displayedMessages st; scriptIndex := scriptIndex st;
         isTyping := true; input := input st;
         timers := snd (Timers.setTimeout (deliver message) (inject_Z totalTypingTime)
                          (timers st)) |}
  | deliver message =>
      {| displayedMessages :=
           displayedMessages st
           ++ [ {| line := message; timestamp := Timers.now (timers st) |} ];
         scriptIndex := scriptIndex st + 1;
         isTyping := false; input := input st; timers := timers st |}
  end.

Inductive event :=
| Key (key : JS.jsstring)
| ClickSend
| Fire
| Script (script' : list Message).

(** One event and the render that follows it.  The state carries no
    copy of the script: every render reads the [messages] of the
    scene it is given; [Script] is a render with another array. *)
Definition step (scripts : list Message * state) (ev : event) : list Message * state :=
  let '(script, st) := scripts in
  match ev with
  | Key key =>
      match input st, activeMessage script st with
      | Some h, Some active =>
          let '(h', out) := ForcedTypingA.handleKeyDown (text active) h key in
          match out with
          | Some t =>
              (script, rerender script (handleActorSend active t (with_input st (Some h'))))
          | None => (script, with_input st (Some h'))
          end
      | _, _ => (script, st)
      end
  | ClickSend =>
      match input st, activeMessage script st with
      | Some h, Some active =>
          if ForcedTypingA.isComplete (text active) h then
            (script, rerender script (handleActorSend active (ForcedTypingA.displayText h) st))
          else (script, st)
      | _, _ => (script, st)
      end
  | Fire =>
      match Timers.fire (timers st) with
      | None => (script, st)
      | Some (startTyping m speed, t) =>
          (script, run_callback (startTyping m speed) (with_timers st t))
      | Some (deliver m, t) =>
          (script, rerender script (run_callback (deliver m) (with_timers st t)))
      end
  | Script script' => (script', rerender script' st)
  end.

Definition steps (script : list Message) (st : state) (evs : list event)
  : list Message * state :=
  fold_left step evs (script, st).

(** A session: the first render of [script], then the events. *)
Definition session (script : list Message) (evs : list event) : state :=
  snd (steps script (mount script) evs).

Definition delivered_ids (st : state) : list string :=
  map (fun x => id (line x)) (displayedMessages st).

Definition delivered_texts (st : state) : list JS.jsstring :=
  map (fun x => text (line x)) (displayedMessages st).

(** An event other than a change of the script. *)
Definition same_script (ev : event) : bool :=
  match ev with
  | Script _ => false
  | _ => true
  end.

(** The shape of a session that goes through the script one line at
    a time: the delivered lines are the lines before the cursor; on
    the actor's turn the input is there and no timer is pending;
    otherwise the input is away and the only pending timer, if the
    script is not over, belongs to the line at the cursor. *)
Definition sequential (script : list Message) (st : state) : Prop :=
  0 <= scriptIndex st <= Z.of_nat (List.length script)
  /\ delivered_ids st = map id (firstn (Z.to_nat (scriptIndex st)) script)
  /\ (isActorTurn script st = true ->
      input st <> None /\ Timers.pending (timers st) = [])
  /\ (isActorTurn script st = false ->
      input st = None
      /\ match activeMessage script st with
         | None => Timers.pending (timers st) = []
         | Some m =>
             exists x, Timers.pending (timers st) = [x]
                       /\ ((exists speed, Timers.run x = startTyping m speed)
                           \/ Timers.run x = deliver m)
         end).

End LiveChat.

(** ** [LiveChatMode], second file of App.jsx (lines 1199-1346) *)

Module LiveChatMode.

Record Message := {
  id : string;
  sender : string;
  text : JS.jsstring;
  delay : Z
}.

(** [project.messages] and [project.participants[0]?.name] *)
Record Project := {
  messages : list Message;
  actorName : option string
}.

Record Shown := { line : Message; timestamp : Q }.

(** The callbacks handed to [setTimeout]: the delivery of a
    contact's line, and the step to the next line 500 ms after a
    delivery. *)
Inductive Callback :=
| deliverTimeout (message : Message)
| advanceTimeout.

Record state := {
  currentMessageIndex : Z;
  chatMessages : list Shown;
  isTyping : bool;
  typingSender : string;
  waitingForInput : bool;
  typing : ForcedTypingB.state;
  timers : Timers.table Callback
}.

Definition blank : state :=
  {| currentMessageIndex := 0; chatMessages := []; isTyping := false;
     typingSender := ""; waitingForInput := false;
     typing := ForcedTypingB.init; timers := Timers.empty |}.

(** [project.messages[currentMessageIndex]] *)
Definition currentMessage (p : Project) (st : state) : option Message :=
  if currentMessageIndex st <? 0 then None
  else nth_error (messages p) (Z.to_nat (currentMessageIndex st)).

(** [message.sender === project.participants[0]?.name] *)
Definition isUser (p : Project) (m : Message) : bool :=
  match actorName p with
  | Some n => String.eqb (sender m) n
  | None => false
  end.

(** [currentMessageIndex >= project.messages.length] *)
Definition isComplete_chat (p : Project) (st : state) : bool :=
  currentMessageIndex st >=? Z.of_nat (List.length (messages p)).

(** [(message.delay || 2) * 1000] *)
Definition delayMs (m : Message) : Q :=
  inject_Z ((if delay m =? 0 then 2 else delay m) * 1000).

(** The effect on [currentMessageIndex] (App.jsx:1226-1252). *)
Definition effect (p : Project) (st : state) : state :=
  if currentMessageIndex st <? Z.of_nat (List.length (messages p)) then
    match currentMessage p st with
    | None => st
    | Some message =>
        if isUser p message then
          {| currentMessageIndex := currentMessageIndex st;
             chatMessages := chatMessages st;
             isTyping := isTyping st;
             typingSender := typingSender st;
             waitingForInput := true;
             typing := ForcedTypingB.reset (typing st);
             timers := timers st |}
        else
          {| currentMessageIndex := currentMessageIndex st;
             chatMessages := chatMessages st;
             isTyping := true;
             typingSender := sender message;
             waitingForInput := waitingForInput st;
             typing := typing st;
             timers := snd (Timers.setTimeout (deliverTimeout message) (delayMs message)
                              (timers st)) |}
    end
  else st.

Definition mount (p : Project) : state := effect p blank.

(** The callback given to [useForcedTyping] (App.jsx:1211-1223). *)
Definition onComplete (current : Message) (completedText : JS.jsstring) (st : state) : state :=
  {| currentMessageIndex := currentMessageIndex st;
     chatMessages :=
       chatMessages st
       ++ [ {| line := {| id := id current; sender := sender current;
                          text := completedText; delay := delay current |};
               timestamp := Timers.now (timers st) |} ];
     isTyping := isTyping st;
     typingSender := typingSender st;
     waitingForInput := false;
     typing := typing st;
     timers := snd (Timers.setTimeout advanceTimeout 500 (timers st)) |}.

Definition with_typing (st : state) (h : ForcedTypingB.state) : state :=
  {| currentMessageIndex := currentMessageIndex st; chatMessages := chatMessages st;
     isTyping := isTyping st; typingSender := typingSender st;
     waitingForInput := waitingForInput st; typing := h; timers := timers st |}.

Definition with_timers (st : state) (t : Timers.table Callback) : state :=
  {| currentMessageIndex := currentMessageIndex st; chatMessages := chatMessages st;
     isTyping := isTyping st; typingSender := typingSender st;
     waitingForInput := waitingForInput st; typing := typing st; timers := t |}.

(** The bodies of the timer callbacks; after [advanceTimeout] the
    index has changed and the effect runs. *)
Definition run_callback (p : Project) (cb : Callback) (st : state) : state :=
  match cb with
  | deliverTimeout message =>
      {| currentMessageIndex := currentMessageIndex st;
         chatMessages :=
           chatMessages st ++ [ {| line := message; timestamp := Timers.now (timers st) |} ];
         isTyping := false;
         typingSender := typingSender st;
         waitingForInput := waitingForInput st;
         typing := typing st;
         timers := snd (Timers.setTimeout advanceTimeout 500 (timers st)) |}
  | advanceTimeout =>
      effect p
        {| currentMessageIndex := currentMessageIndex st + 1;
           chatMessages := chatMessages st;
           isTyping := isTyping st;
           typingSender := typingSender st;
           waitingForInput := waitingForInput st;
           typing := typing st;
           timers := timers st |}
  end.

(** [handleRestart] (App.jsx:1254-1260); the effect runs when the
    index has changed. *)
Definition handleRestart (p : Project) (st : state) : state :=
  let st' :=
    {| currentMessageIndex := 0; chatMessages := []; isTyping := false;
       typingSender := typingSender st; waitingForInput := false;
       typing := ForcedTypingB.reset (typing st); timers := timers st |} in
  if currentMessageIndex st =? 0 then st' else effect p st'.

Inductive event :=
| Key (key : JS.jsstring)
| Fire
| Restart.

(** One event.  The input is rendered while [waitingForInput] holds
    and the script is not over; the button [Restart Scene] is
    rendered when the script is over. *)
Definition step (p : Project) (st : state) (ev : event) : state :=
  match ev with
  | Key key =>
      if waitingForInput st && negb (isComplete_chat p st) then
        let scriptText := match currentMessage p st with
                          | Some m => text m
                          | None => []
                          end in
        let '(h, out) := ForcedTypingB.handleKeyDown scriptText (typing st) key in
        match out, currentMessage p st with
        | Some completedText, Some current =>
            onComplete current completedText (with_typing st h)
        | _, _ => with_typing st h
        end
      else st
  | Fire =>
      match Timers.fire (timers st) with
      | None => st
      | Some (cb, t) => run_callback p cb (with_timers st t)
      end
  | Restart =>
      if negb (waitingForInput st && negb (isComplete_chat p st)) && isComplete_chat p st
      then handleRestart p st
      else st
  end.

Definition session (p : Project) (evs : list event) : state :=
  fold_left (step p) evs (mount p).

(** The session never has two timers at once, none while it waits
    for the actor and none when the script is over. *)
Definition one_timer (p : Project) (st : state) : Prop :=
  0 <= currentMessageIndex st <= Z.of_nat (List.length (messages p))
  /\ (List.length (Timers.pending (timers st)) <= 1)%nat
  /\ (waitingForInput st = true -> Timers.pending (timers st) = [])
  /\ (Z.of_nat (List.length (messages p)) <= currentMessageIndex st ->
      Timers.pending (timers st) = []).

End LiveChatMode.

(** ** What the forced-typing states show *)

Module Reveal.

(** The text on display is the first [scriptIndex] characters of the
    script, and the index lies within the script: for the hook of the
    first file, of the second file, and for part_001's input. *)
Definition prefix_A (scriptText : JS.jsstring) (st : ForcedTypingA.state) : Prop :=
  0 <= ForcedTypingA.scriptIndex st <= JS.length scriptText
  /\ ForcedTypingA.displayText st
     = firstn (Z.to_nat (ForcedTypingA.scriptIndex st)) scriptText.

Definition prefix_B (scriptText : JS.jsstring) (st : ForcedTypingB.state) : Prop :=
  0 <= ForcedTypingB.scriptIndex st <= JS.length scriptText
  /\ ForcedTypingB.displayText st
     = firstn (Z.to_nat (ForcedTypingB.scriptIndex st)) scriptText.

Definition prefix_I (textToType : JS.jsstring) (st : ForcedTypingInput.state) : Prop :=
  0 <= ForcedTypingInput.index st <= JS.length textToType
  /\ ForcedTypingInput.value st
     = firstn (Z.to_nat (ForcedTypingInput.index st)) textToType.

End Reveal.

(** ** Shapes of [LiveChat] sessions *)

Module LiveChatShapes.

(** No line of the script belongs to the actor. *)
Definition contact_only (script : list LiveChat.Message) : bool :=
  forallb (fun m => negb (String.eqb (LiveChat.participantId m) "you")) script.

(** The session stands at the start of line [i]: the lines before it
    are delivered, the input is away, no typing indicator is shown,
    and the first timer of line [i] is the only one pending (none when
    the script is over). *)
Definition at_line (script : list LiveChat.Message) (st : LiveChat.state) (i : nat) : Prop :=
  LiveChat.scriptIndex st = Z.of_nat i
  /\ LiveChat.input st = None
  /\ LiveChat.isTyping st = false
  /\ LiveChat.delivered_ids st = map LiveChat.id (firstn i script)
  /\ match nth_error script i with
     | Some m =>
         exists x, Timers.pending (LiveChat.timers st) = [x]
                   /\ Timers.run x = LiveChat.startTyping m (LiveChat.typingSpeedMs m)
     | None => Timers.pending (LiveChat.timers st) = []
     end.

(** The lines on screen, without their timestamps. *)
Definition lines (st : LiveChat.state) : list LiveChat.Message :=
  map LiveChat.line (LiveChat.displayedMessages st).

(** The entry [shown] on screen stands for the line [m] of the
    script: it has the id, the sender and the delays of [m], and
    unless [m] is the actor's also its text.  An actor's line is
    shown with the text that the input handed over. *)
Definition delivered_as (m shown : LiveChat.Message) : Prop :=
  LiveChat.id shown = LiveChat.id m
  /\ LiveChat.participantId shown = LiveChat.participantId m
  /\ LiveChat.startDelay shown = LiveChat.startDelay m
  /\ LiveChat.typingDelay shown = LiveChat.typingDelay m
  /\ (String.eqb (LiveChat.participantId m) "you" = false ->
      LiveChat.text shown = LiveChat.text m).

(** The entries on screen stand, one by one and in order, for the
    lines of the script before the cursor. *)
Definition verbatim (script : list LiveChat.Message) (st : LiveChat.state) : Prop :=
  Forall2 delivered_as
    (firstn (Z.to_nat (LiveChat.scriptIndex st)) script) (lines st).

(** What [setTimeout] makes of a delay. *)
Definition clip (d : Q) : Q :=
  if Qle_bool 0 d && Qle_bool d Timers.max_delay then d else 0%Q.

(** A pending start timer was set for the delay and with the typing
    speed of its line, and the clock has not moved since. *)
Definition clocked (st : LiveChat.state) : Prop :=
  forall x m speed,
    In x (Timers.pending (LiveChat.timers st)) ->
    Timers.run x = LiveChat.startTyping m speed ->
    speed = LiveChat.typingSpeedMs m
    /\ Timers.due x
       = (Timers.now (LiveChat.timers st) + clip (LiveChat.startDelayMs m))%Q.

End LiveChatShapes.

(** ** Shapes of [LiveScreen] timer tables *)

Module LiveScreenShapes.

(** The lines that a list of callbacks delivers. *)
Definition callback_lines (cbs : list LiveScreen.Callback) : list LiveScreen.Message :=
  flat_map (fun cb => match cb with
                      | LiveScreen.messageTimeout m => [m]
                      | LiveScreen.typingTimeout => []
                      end) cbs.

(** The lines on screen, without their timestamps. *)
Definition shown_lines (st : LiveScreen.state) : list LiveScreen.Message :=
  map LiveScreen.msg (LiveScreen.messages st).

(** [cumulativeDelay] at the end of the effect's pass over the
    script: the length of the whole schedule in milliseconds. *)
Definition schedule_length (random : nat -> Q) (conversation : list LiveScreen.Message)
           (s : LiveScreen.Settings) : Q :=
  LiveScreen.cumulativeDelay
    (fold_left (LiveScreen.schedule_one random s) conversation
       {| LiveScreen.cumulativeDelay := (LiveScreen.initialDelay s * 1000)%Q;
          LiveScreen.p_timeouts := [];
          LiveScreen.p_timers := Timers.empty;
          LiveScreen.draws := 0%nat |}).

(** The pending timers stand in the order in which they fire: due
    times do not decrease along the list, and the handles are all
    different. *)
Definition in_firing_order (t : Timers.table LiveScreen.Callback) : Prop :=
  StronglySorted (fun x y => (Timers.due x <= Timers.due y)%Q) (Timers.pending t)
  /\ NoDup (map Timers.handle (Timers.pending t)).

(** No delay of the script or of the settings is negative, and
    [Math.random] returns no negative number. *)
Definition delays_not_negative (random : nat -> Q) (conversation : list LiveScreen.Message)
           (s : LiveScreen.Settings) : Prop :=
  (0 <= LiveScreen.initialDelay s)%Q
  /\ Forall (fun m => (0 <= LiveScreen.delay m)%Q) conversation
  /\ forall n, (0 <= random n)%Q.

(** What a pass over the script keeps true of its accumulator: the
    accumulated delay is not negative, and the timers set so far
    stand in firing order, none due later than the accumulated delay,
    with handles below the next free one. *)
Definition pass_ok (a : LiveScreen.pass) : Prop :=
  (0 <= LiveScreen.cumulativeDelay a)%Q
  /\ in_firing_order (LiveScreen.p_timers a)
  /\ Forall (fun x => (Timers.due x
                       <= Timers.now (LiveScreen.p_timers a)
                          + LiveScreen.cumulativeDelay a)%Q)
       (Timers.pending (LiveScreen.p_timers a))
  /\ Forall (fun x => (Timers.handle x < Timers.next (LiveScreen.p_timers a))%nat)
       (Timers.pending (LiveScreen.p_timers a)).

End LiveScreenShapes.

(** ** Shapes of [LiveChatMode] sessions *)

Module LiveChatModeShapes.

(** The lines in the chat, without their timestamps. *)
Definition transcript (st : LiveChatMode.state) : list LiveChatMode.Message :=
  map LiveChatMode.line (LiveChatMode.chatMessages st).

(** Where a session stands.  At line [i] of the script it either
    waits for the actor, with no timer and an input that shows a
    prefix of the line; or the delivery of the contact's line is
    pending; or the line is in the chat and the step to the next
    line is pending.  Past the last line nothing is pending and the
    chat holds the script. *)
Definition phase (p : LiveChatMode.Project) (st : LiveChatMode.state) : Prop :=
  exists i : nat,
    LiveChatMode.currentMessageIndex st = Z.of_nat i
    /\ match nth_error (LiveChatMode.messages p) i with
       | None =>
           i = List.length (LiveChatMode.messages p)
           /\ Timers.pending (LiveChatMode.timers st) = []
           /\ LiveChatMode.waitingForInput st = false
           /\ transcript st = LiveChatMode.messages p
       | Some m =>
           (LiveChatMode.waitingForInput st = true
            /\ Timers.pending (LiveChatMode.timers st) = []
            /\ Reveal.prefix_B (LiveChatMode.text m) (LiveChatMode.typing st)
            /\ transcript st = firstn i (LiveChatMode.messages p))
           \/ (LiveChatMode.waitingForInput st = false
               /\ (exists x, Timers.pending (LiveChatMode.timers st) = [x]
                             /\ Timers.run x = LiveChatMode.deliverTimeout m)
               /\ transcript st = firstn i (LiveChatMode.messages p))
           \/ (LiveChatMode.waitingForInput st = false
               /\ (exists x, Timers.pending (LiveChatMode.timers st) = [x]
                             /\ Timers.run x = LiveChatMode.advanceTimeout)
               /\ transcript st = firstn (S i) (LiveChatMode.messages p))
       end.

End LiveChatModeShapes.

(** ** Playing a script in [LiveChatMode] *)

Module LiveChatModePlay.

(** What it takes to get one line through: for a line of the actor
    one character key for each character, [Enter], and the timer
    that steps on; for another line its two timers. *)
Definition line_events (p : LiveChatMode.Project) (m : LiveChatMode.Message)
  : list LiveChatMode.event :=
  if LiveChatMode.isUser p m
  then (map (fun _ => LiveChatMode.Key (JS.lit "a")) (LiveChatMode.text m)
          ++ [LiveChatMode.Key JS.Enter; LiveChatMode.Fire])%list
  else [LiveChatMode.Fire; LiveChatMode.Fire].

Definition performance (p : LiveChatMode.Project) : list LiveChatMode.event :=
  flat_map (line_events p) (LiveChatMode.messages p).

(** The session has just arrived at line [i]: the lines before it
    are in the chat; for a line of the actor the input is empty and
    waiting, for another line the delivery is pending; past the end
    nothing is pending. *)
Definition at_start (p : LiveChatMode.Project) (st : LiveChatMode.state) (i : nat) : Prop :=
  LiveChatMode.currentMessageIndex st = Z.of_nat i
  /\ LiveChatModeShapes.transcript st = firstn i (LiveChatMode.messages p)
  /\ match nth_error (LiveChatMode.messages p) i with
     | None =>
         Timers.pending (LiveChatMode.timers st) = []
         /\ LiveChatMode.waitingForInput st = false
         /\ LiveChatMode.isTyping st = false
     | Some m =>
         if LiveChatMode.isUser p m then
           LiveChatMode.waitingForInput st = true
           /\ Timers.pending (LiveChatMode.timers st) = []
           /\ LiveChatMode.typing st = ForcedTypingB.init
           /\ LiveChatMode.isTyping st = false
         else
           LiveChatMode.waitingForInput st = false
           /\ exists x, Timers.pending (LiveChatMode.timers st) = [x]
                        /\ Timers.run x = LiveChatMode.deliverTimeout m
     end.

End LiveChatModePlay.

(** ** Shapes of live sessions of [FlowProp] (third file) *)

Module FlowPropShapes.

(** [currentProject.messages.filter(m => m.isActor)] *)
Definition actorMessages (p : FlowProp.Project) : list FlowProp.Message :=
  filter FlowProp.isActor (FlowProp.messages p).

(** The actor's lines among the lines on screen. *)
Definition sent (st : FlowProp.state) : list FlowProp.Message :=
  filter FlowProp.isActor (FlowProp.liveMessages st).

(** A callback set by [handleKeyDown] for project [p]: it closes over
    [p], over an index of at least 1 and over the line at that index,
    which is not the actor's. *)
Definition callback_ok (p : FlowProp.Project) (cb : FlowProp.Callback) : Prop :=
  FlowProp.cb_project cb = p
  /\ 1 <= FlowProp.nextNonActorIndex cb
  /\ FlowProp.at_index (FlowProp.messages p) (FlowProp.nextNonActorIndex cb)
     = Some (FlowProp.nextMessage cb)
  /\ FlowProp.isActor (FlowProp.nextMessage cb) = false.

(** A line on screen: a line of the script, and when it is not the
    actor's, not the line at index 0. *)
Definition shown_ok (p : FlowProp.Project) (m : FlowProp.Message) : Prop :=
  In m (FlowProp.messages p)
  /\ (FlowProp.isActor m = false -> In m (tl (FlowProp.messages p))).

(** What every state of a session on project [p] satisfies. *)
Record live_ok (p : FlowProp.Project) (st : FlowProp.state) : Prop := {
  index_ok : 0 <= FlowProp.currentMessageIndex st;
  forced_ok : 0 <= FlowProp.forcedTextIndex st <= JS.length (FlowProp.forcedText st);
  timers_ok : Forall (fun x => callback_ok p (Timers.run x))
                (Timers.pending (FlowProp.timers st));
  sent_ok : sent st = firstn (List.length (sent st)) (actorMessages p);
  screen_ok : Forall (shown_ok p) (FlowProp.liveMessages st)
}.

(** The component between two sessions: the live view is not shown
    and no timer is pending.  This is its state after mount, and
    after a session whose timers have all fired and which the back
    button has left, whichever project it played; the state keeps
    the lines, the index and the forced text of that session. *)
Definition idle (st : FlowProp.state) : Prop :=
  FlowProp.currentView st <> FlowProp.live
  /\ Timers.pending (FlowProp.timers st) = [].


End FlowPropShapes.

Module FlowPropRuns.

(** The lines at the indices 1 to [j] of the script are all lines of
    contacts. *)
Definition contact_run (p : FlowProp.Project) (j : Z) : Prop :=
  1 <= j
  /\ forall k, 1 <= k <= j ->
       exists m, FlowProp.at_index (FlowProp.messages p) k = Some m
                 /\ FlowProp.isActor m = false.

(** A line on screen is a line of the actor in the script, or it
    stands in the script at the end of such a run. *)
Definition delivered_ok (p : FlowProp.Project) (m : FlowProp.Message) : Prop :=
  (FlowProp.isActor m = true /\ In m (FlowProp.messages p))
  \/ exists j, contact_run p j /\ FlowProp.at_index (FlowProp.messages p) j = Some m.

(** What every state of a session on project [p] satisfies. *)
Record live_run (p : FlowProp.Project) (st : FlowProp.state) : Prop := {
  index_run : FlowProp.currentMessageIndex st = 0
              \/ contact_run p (FlowProp.currentMessageIndex st);
  timers_run : Forall (fun x => FlowPropShapes.callback_ok p (Timers.run x)
                                /\ contact_run p (FlowProp.nextNonActorIndex (Timers.run x)))
                 (Timers.pending (FlowProp.timers st));
  screen_run : Forall (delivered_ok p) (FlowProp.liveMessages st)
}.

(** The state of a session on a script of actor lines in which the
    first line has been typed and [k] lines have been sent. *)
Definition typed_once (p : FlowProp.Project) (t : JS.jsstring) (st : FlowProp.state)
           (k : nat) : Prop :=
  FlowProp.currentView st = FlowProp.live
  /\ FlowProp.forcedText st = t
  /\ FlowProp.forcedTextIndex st = JS.length t
  /\ FlowProp.currentMessageIndex st = 0
  /\ FlowProp.liveMessages st = firstn k (FlowProp.messages p)
  /\ Timers.pending (FlowProp.timers st) = [].

(** The state that a session of another project leaves behind once
    its timer has fired: the actor's line and the contact's are
    still in [liveMessages], the view is the main view. *)
Definition after_another_project : FlowProp.state :=
  let hi := {| FlowProp.id := 1; FlowProp.senderName := "A";
               FlowProp.text := JS.lit "hi"; FlowProp.isActor := true |} in
  let yo := {| FlowProp.id := 2; FlowProp.senderName := "B";
               FlowProp.text := JS.lit "yo"; FlowProp.isActor := false |} in
  FlowProp.steps
    {| FlowProp.messages := [hi; yo]; FlowProp.delayMode := FlowProp.natural;
       FlowProp.customDelay := 2 |}
    FlowProp.init
    [FlowProp.GoLive; FlowProp.Key (JS.lit "h") 0; FlowProp.Key (JS.lit "i") 0;
     FlowProp.Key JS.Enter 0; FlowProp.Fire; FlowProp.Exit].

End FlowPropRuns.

(** ** The editors of the first file (App.jsx:170-204, 374-458) *)

Module DelaySelector.

(** [value === 'natural'] *)
Definition isNatural (value : LiveChat.Delay) : bool :=
  match value with
  | LiveChat.natural => true
  | LiveChat.seconds _ => false
  end.

(** [isNatural ? 0 : parseInt(value, 10)]; the numbers of the
    editor are whole numbers, in decimal notation without an
    exponent, which [parseInt] reads back as they are. *)
Definition numericValue (value : LiveChat.Delay) : Z :=
  match value with
  | LiveChat.natural => 0
  | LiveChat.seconds n => n
  end.

(** [handleChange(change)]: the argument of [onChange] when it is
    called. *)
Definition handleChange (disabled : bool) (value : LiveChat.Delay) (change : Z)
  : option LiveChat.Delay :=
  if disabled then None
  else Some (LiveChat.seconds (Z.max 0 (numericValue value + change))).

(** [toggleNatural] *)
Definition toggleNatural (disabled : bool) (value : LiveChat.Delay)
  : option LiveChat.Delay :=
  if disabled then None
  else Some (if isNatural value then LiveChat.seconds 1 else LiveChat.natural).

Inductive button := Down | Up | Natural.

(** A click on a button of the selector.  The arrows carry
    [disabled={disabled || isNatural}], the button [Natural] carries
    [disabled={disabled}]; a disabled button calls nothing. *)
Definition click (disabled : bool) (value : LiveChat.Delay) (b : button)
  : option LiveChat.Delay :=
  match b with
  | Down => if disabled || isNatural value then None else handleChange disabled value (-1)
  | Up => if disabled || isNatural value then None else handleChange disabled value 1
  | Natural => if disabled then None else toggleNatural disabled value
  end.

End DelaySelector.

Module ScriptEditor.

(** The message that [addMessage] appends; [now] is
    [Date.now().toString()]. *)
Definition fresh (now : string) : LiveChat.Message :=
  {| LiveChat.id := now; LiveChat.participantId := "you"; LiveChat.text := [];
     LiveChat.startDelay := LiveChat.seconds 1;
     LiveChat.typingDelay := LiveChat.natural |}.

Definition addMessage (messages : list LiveChat.Message) (now : string)
  : list LiveChat.Message :=
  messages ++ [fresh now].

(** [messages.filter((_, i) => i !== index)] *)
Definition removeMessage (messages : list LiveChat.Message) (index : nat)
  : list LiveChat.Message :=
  map snd (filter (fun im => negb (Nat.eqb (fst im) index))
             (combine (seq 0 (List.length messages)) messages)).

(** [updateLocalMessage(index, updates)] for an index of a row on
    screen; [None] when there is no such row (the handlers are
    attached to the rows of [messages.map] only). *)
Fixpoint updateLocalMessage (messages : list LiveChat.Message) (index : nat)
         (updates : LiveChat.Message -> LiveChat.Message)
  : option (list LiveChat.Message) :=
  match messages, index with
  | [], _ => None
  | m :: rest, O => Some (updates m :: rest)
  | m :: rest, S i => option_map (cons m) (updateLocalMessage rest i updates)
  end.

Definition set_participantId (v : string) (m : LiveChat.Message) : LiveChat.Message :=
  {| LiveChat.id := LiveChat.id m; LiveChat.participantId := v;
     LiveChat.text := LiveChat.text m; LiveChat.startDelay := LiveChat.startDelay m;
     LiveChat.typingDelay := LiveChat.typingDelay m |}.

Definition set_text (v : JS.jsstring) (m : LiveChat.Message) : LiveChat.Message :=
  {| LiveChat.id := LiveChat.id m; LiveChat.participantId := LiveChat.participantId m;
     LiveChat.text := v; LiveChat.startDelay := LiveChat.startDelay m;
     LiveChat.typingDelay := LiveChat.typingDelay m |}.

Definition set_startDelay (v : LiveChat.Delay) (m : LiveChat.Message) : LiveChat.Message :=
  {| LiveChat.id := LiveChat.id m; LiveChat.participantId := LiveChat.participantId m;
     LiveChat.text := LiveChat.text m; LiveChat.startDelay := v;
     LiveChat.typingDelay := LiveChat.typingDelay m |}.

Definition set_typingDelay (v : LiveChat.Delay) (m : LiveChat.Message) : LiveChat.Message :=
  {| LiveChat.id := LiveChat.id m; LiveChat.participantId := LiveChat.participantId m;
     LiveChat.text := LiveChat.text m; LiveChat.startDelay := LiveChat.startDelay m;
     LiveChat.typingDelay := v |}.

(** What the user can do in the editor: the button [Add Message],
    and on the row at [index] the trash button, the select, the
    text area and the buttons of the two delay selectors. *)
Inductive event :=
| Add (now : string)
| Remove (index : nat)
| SelectParticipant (index : nat) (participantId : string)
| EditText (index : nat) (text : JS.jsstring)
| StartDelay (index : nat) (b : DelaySelector.button)
| TypingSpeed (index : nat) (b : DelaySelector.button).

(** The selectors of a row are rendered when the row is not the
    actor's; they are never disabled. *)
Definition selector_click (field : LiveChat.Message -> LiveChat.Delay)
           (set : LiveChat.Delay -> LiveChat.Message -> LiveChat.Message)
           (messages : list LiveChat.Message) (index : nat) (b : DelaySelector.button)
  : list LiveChat.Message :=
  match nth_error messages index with
  | None => messages
  | Some msg =>
      if String.eqb (LiveChat.participantId msg) "you" then messages
      else
        match DelaySelector.click false (field msg) b with
        | None => messages
        | Some val =>
            match updateLocalMessage messages index (set val) with
            | Some l => l
            | None => messages
            end
        end
  end.

Definition step (messages : list LiveChat.Message) (ev : event) : list LiveChat.Message :=
  match ev with
  | Add now => addMessage messages now
  | Remove index => removeMessage messages index
  | SelectParticipant index v =>
      match updateLocalMessage messages index (set_participantId v) with
      | Some l => l
      | None => messages
      end
  | EditText index v =>
      match updateLocalMessage messages index (set_text v) with
      | Some l => l
      | None => messages
      end
  | StartDelay index b =>
      selector_click LiveChat.startDelay set_startDelay messages index b
  | TypingSpeed index b =>
      selector_click LiveChat.typingDelay set_typingDelay messages index b
  end.

(** The script after a series of events in the editor of a new
    scene, whose script is empty (App.jsx:46). *)
Definition edited (evs : list event) : list LiveChat.Message := fold_left step evs [].

(** A delay that is the word [natural] or a number that is not
    negative. *)
Definition not_negative (d : LiveChat.Delay) : Prop :=
  match d with
  | LiveChat.natural => True
  | LiveChat.seconds n => 0 <= n
  end.

(** Neither delay of a line is a negative number. *)
Definition delays_ok (m : LiveChat.Message) : Prop :=
  not_negative (LiveChat.startDelay m) /\ not_negative (LiveChat.typingDelay m).

End ScriptEditor.

Module ParticipantsEditor.

Record Participant := {
  id : string;
  name : JS.jsstring;
  avatar : string;
  isFixed : bool
}.

(** The participants of a new scene (App.jsx:42-45). *)
Definition you : Participant :=
  {| id := "you"; name := JS.lit "You"; avatar := "blue"; isFixed := true |}.

Definition contact1 : Participant :=
  {| id := "contact1"; name := JS.lit "Contact 1"; avatar := "gray"; isFixed := false |}.

Definition initial : list Participant := [you; contact1].

(** The decimal notation of a number, as a template literal
    inserts it. *)
Definition decimal (n : N) : string := NilZero.string_of_uint (N.to_uint n).

(** [addParticipant]; [now] is [Date.now()]. *)
Definition addParticipant (participants : list Participant) (now : N) : list Participant :=
  participants
  ++ [ {| id := String.append "contact" (decimal now);
          name := JS.lit (String.append "Contact "
                            (decimal (N.of_nat (List.length participants))));
          avatar := "gray"; isFixed := false |} ].

(** [removeParticipant(id)] *)
Definition removeParticipant (participants : list Participant) (i : string)
  : list Participant :=
  if (List.length participants <=? 2)%nat then participants
  else filter (fun p => negb (String.eqb (id p) i)) participants.

(** [updateLocalParticipant(id, { name })] *)
Definition updateLocalParticipant (participants : list Participant) (i : string)
           (v : JS.jsstring) : list Participant :=
  map (fun p => if String.eqb (id p) i
                then {| id := id p; name := v; avatar := avatar p; isFixed := isFixed p |}
                else p) participants.

(** The button [Add Contact], and on the row of a participant that
    is not fixed the trash button and the name input. *)
Inductive event :=
| AddContact (now : N)
| Remove (i : string)
| Rename (i : string) (v : JS.jsstring).

(** A row with this id is on screen and is not fixed. *)
Definition editable (participants : list Participant) (i : string) : bool :=
  existsb (fun p => String.eqb (id p) i && negb (isFixed p)) participants.

Definition step (participants : list Participant) (ev : event) : list Participant :=
  match ev with
  | AddContact now => addParticipant participants now
  | Remove i => if editable participants i then removeParticipant participants i
                else participants
  | Rename i v => if editable participants i then updateLocalParticipant participants i v
                  else participants
  end.

Definition edited (evs : list event) : list Participant := fold_left step evs initial.

(** The entries after the first: none is fixed, none has the id of
    the actor. *)
Definition others_ok (rest : list Participant) : Prop :=
  Forall (fun q => isFixed q = false /\ id q <> "you"%string) rest.

End ParticipantsEditor.

(** ** [LiveContainer] (App.jsx:521-541) *)

Module LiveContainer.

(** [scenarioType], set by the select of the scene editor. *)
Inductive Scenario := direct | contacts | lockscreen.

(** [liveState]: one of the three scenario types, or ['chat']. *)
Inductive LiveState := on_direct | on_contacts | on_lockscreen | on_chat.

Record state := { liveState : LiveState; activeContactId : option string }.

(** [useState(currentScene.config.scenarioType)], [useState(null)] *)
Definition init (scenarioType : Scenario) : state :=
  {| liveState := match scenarioType with
                  | direct => on_direct
                  | contacts => on_contacts
                  | lockscreen => on_lockscreen
                  end;
     activeContactId := None |}.

(** A click on the lock screen, on a row of the messages list, and
    on the button [Messages] in the header of the chat. *)
Inductive event := Unlock | SelectContact (contactId : string) | ExitList.

(** [renderLiveState] decides which handler is on screen: the lock
    screen for ['lockscreen'], the list for ['contacts'], the chat
    otherwise; the chat shows the button [Messages] when
    [scenarioType] is ['contacts']. *)
Definition step (scenarioType : Scenario) (st : state) (ev : event) : state :=
  match liveState st, ev with
  | on_lockscreen, Unlock =>
      {| liveState := match scenarioType with
                      | lockscreen => on_chat
                      | _ => on_contacts
                      end;
         activeContactId := activeContactId st |}
  | on_contacts, SelectContact contactId =>
      {| liveState := on_chat; activeContactId := Some contactId |}
  | on_direct, ExitList
  | on_chat, ExitList =>
      match scenarioType with
      | contacts => {| liveState := on_contacts; activeContactId := activeContactId st |}
      | _ => st
      end
  | _, _ => st
  end.

Definition steps (scenarioType : Scenario) (evs : list event) : state :=
  fold_left (step scenarioType) evs (init scenarioType).

End LiveContainer.

(** ** Stored projects of the second file (App.jsx:722-743, 789-840) *)

Module UseLocalStorageB.
Section Hook.
(** The values of the store, [JSON.stringify] on such a value, and
    [JSON.parse], which returns nothing when it throws. *)
Variable A : Type.
Variable stringify : A -> string.
Variable parse : string -> option A.
Variable initialValue : A.

(** The argument of [setValue]: a value, or an updater function. *)
Inductive arg := Value (v : A) | Updater (f : A -> A).

(** [storedValue], and the item under [key] in [localStorage]
    ([None] when [getItem] returns [null]). *)
Record state := { storedValue : A; item : option string }.

(** The initializer of [useState]: [item ? JSON.parse(item) :
    initialValue], with [initialValue] when the parse throws.  The
    empty string is falsy. *)
Definition read (it : option string) : A :=
  match it with
  | None => initialValue
  | Some s =>
      if String.eqb s "" then initialValue
      else match parse s with
           | Some v => v
           | None => initialValue
           end
  end.

Definition mount (it : option string) : state :=
  {| storedValue := read it; item := it |}.

(** [JSON.stringify(value)] as [setItem] stores it: for a function
    [JSON.stringify] returns [undefined], which [setItem] turns into
    the text [undefined]. *)
Definition written (a : arg) : string :=
  match a with
  | Value v => stringify v
  | Updater _ => "undefined"
  end.

(** [setValue(value)]: [setStoredValue(value)], which applies an
    updater to the current state, then [setItem]. *)
Definition setValue (a : arg) (st : state) : state :=
  {| storedValue := match a with
                    | Value v => v
                    | Updater f => f (storedValue st)
                    end;
     item := Some (written a) |}.
End Hook.

Arguments Value {A} _.
Arguments Updater {A} _.
Arguments storedValue {A} _.
Arguments item {A} _.
Arguments read {A} _ _ _.
Arguments mount {A} _ _ _.
Arguments written {A} _ _.
Arguments setValue {A} _ _ _.
End UseLocalStorageB.

Module ProjectProvider.
Section Provider.
(** The projects, with their [id]. *)
Variable Project : Type.
Variable id : Project -> string.
Variable stringify : list Project -> string.
Variable parse : string -> option (list Project).

(** The operations of the provider on [projects]; [createProject]
    and [updateProject] with the project object they have built. *)
Inductive op :=
| createProject (newProject : Project)
| updateProject (projectId : string) (updatedProject : Project)
| deleteProject (projectId : string).

(** The updater each of them hands to [setProjects]. *)
Definition updater (o : op) (prev : list Project) : list Project :=
  match o with
  | createProject newProject => prev ++ [newProject]
  | updateProject projectId updatedProject =>
      map (fun p => if String.eqb (id p) projectId then updatedProject else p) prev
  | deleteProject projectId =>
      filter (fun p => negb (String.eqb (id p) projectId)) prev
  end.

Definition run (st : UseLocalStorageB.state (list Project)) (o : op)
  : UseLocalStorageB.state (list Project) :=
  UseLocalStorageB.setValue stringify (UseLocalStorageB.Updater (updater o)) st.

(** The page is loaded again: [useLocalStorage('flowprop_projects',
    [])] reads what is stored. *)
Definition reload (st : UseLocalStorageB.state (list Project))
  : UseLocalStorageB.state (list Project) :=
  UseLocalStorageB.mount parse [] (UseLocalStorageB.item st).
End Provider.

Arguments createProject {Project} _.
Arguments updateProject {Project} _ _.
Arguments deleteProject {Project} _.
Arguments updater {Project} _ _ _.
Arguments run {Project} _ _ _ _.
Arguments reload {Project} _ _.
End ProjectProvider.

(** ** [SetupScreen] of part_001 (lines 367-393) *)

Module SetupScreen.

Record Contact := { c_id : string; c_name : string; avatar : string }.

(** [contacts.find(c => c.id === settings.targetContactId)];
    [targetContactId] is [null] in a new project. *)
Definition targetContact (contacts : list Contact) (targetContactId : option string)
  : option Contact :=
  match targetContactId with
  | None => None
  | Some t => find (fun c => String.eqb (c_id c) t) contacts
  end.

(** [addMessage]; [fresh] is the identity of the new object and
    what [generateId] returns.  [if (newSender)] fails for [null] and
    for the empty string. *)
Definition addMessage (contacts : list Contact) (targetContactId : option string)
           (conversation : list LiveScreen.Message) (fresh : nat * string)
  : list LiveScreen.Message :=
  let lastSender :=
    match conversation with
    | [] => "me"%string
    | _ => match nth_error conversation (List.length conversation - 1) with
           | Some m => LiveScreen.sender m
           | None => "me"%string
           end
    end in
  let newSender :=
    if String.eqb lastSender "me"
    then option_map c_id (targetContact contacts targetContactId)
    else Some "me"%string in
  match newSender with
  | None => conversation
  | Some s =>
      if String.eqb s "" then conversation
      else conversation
           ++ [ {| LiveScreen.ref := fst fresh; LiveScreen.id := snd fresh;
                   LiveScreen.sender := s; LiveScreen.text := [];
                   LiveScreen.delay := 2 |} ]
  end.

(** [deleteMessage(id)] *)
Definition deleteMessage (conversation : list LiveScreen.Message) (i : string)
  : list LiveScreen.Message :=
  filter (fun m => negb (String.eqb (LiveScreen.id m) i)) conversation.

End SetupScreen.

(** ** The wizard and the script editor of [FlowProp] (third file,
    App.jsx:1546-1577, 1662-1679, 1735-1762) *)

Module WizardView.

Record Participant := { id : Z; name : string; isActor : bool }.

(** [handleAddParticipant]; [name] is what [prompt] returns ([null]
    when it is dismissed), [now] is [Date.now()].  [if (name)] fails
    for [null] and for the empty string. *)
Definition handleAddParticipant (participants : list Participant) (n : option string)
           (now : Z) : list Participant :=
  match n with
  | None => participants
  | Some s =>
      if String.eqb s "" then participants
      else participants
           ++ [ {| id := now; name := s;
                   isActor := (List.length participants =? 0)%nat |} ]
  end.

(** The trash button of a row:
    [participants.filter(part => part.id !== p.id)] *)
Definition deleteParticipant (participants : list Participant) (i : Z)
  : list Participant :=
  filter (fun part => negb (id part =? i)) participants.

Inductive event :=
| AddParticipant (n : option string) (now : Z)
| Delete (i : Z).

Definition step (participants : list Participant) (ev : event) : list Participant :=
  match ev with
  | AddParticipant n now => handleAddParticipant participants n now
  | Delete i => deleteParticipant participants i
  end.

(** The participants of [projectConfig] after a series of events in
    a wizard that started from the empty list. *)
Definition configured (evs : list event) : list Participant := fold_left step evs [].

End WizardView.

Module MainView.

(** What the user answers to the two prompts of [handleAddMessage],
    and [Date.now()]. *)
Record entry := {
  e_senderName : option string;
  e_text : option JS.jsstring;
  e_now : Z
}.

(** [handleAddMessage] (App.jsx:1735-1762) *)
Definition handleAddMessage (participants : list WizardView.Participant)
           (messages : list FlowProp.Message) (e : entry) : list FlowProp.Message :=
  match find (fun p => match e_senderName e with
                       | Some s => String.eqb (WizardView.name p) s
                       | None => false
                       end) participants with
  | None => messages
  | Some sender =>
      match e_text e with
      | None => messages
      | Some t =>
          if JS.length t =? 0 then messages
          else messages
               ++ [ {| FlowProp.id := e_now e;
                       FlowProp.senderName := WizardView.name sender;
                       FlowProp.text := t;
                       FlowProp.isActor := WizardView.isActor sender |} ]
      end
  end.

(** The script after a series of additions to an empty script. *)
Definition written (participants : list WizardView.Participant) (es : list entry)
  : list FlowProp.Message :=
  fold_left (handleAddMessage participants) es [].

End MainView.

(** * Properties *)

(** ** Strings and keys *)

Lemma JS_eqb_refl (a : JS.jsstring) : JS.eqb a a = true.
Proof.
  induction a as [|x a IH]; simpl; [reflexivity|].
  now rewrite N.eqb_refl, IH.
Qed.

Lemma JS_eqb_eq (a b : JS.jsstring) : JS.eqb a b = true <-> a = b.
Proof.
  split.
  - revert b; induction a as [|x a IH]; intros [|y b]; simpl; try discriminate; auto.
    intros H. apply andb_true_iff in H as [Hx Hab].
    apply N.eqb_eq in Hx. subst. f_equal. now apply IH.
  - intros ->. apply JS_eqb_refl.
Qed.

Lemma JS_eqb_neq (a b : JS.jsstring) : JS.eqb a b = false <-> a <> b.
Proof.
  split.
  - intros H E. apply JS_eqb_eq in E. congruence.
  - intros H. destruct (JS.eqb a b) eqn:E; [|reflexivity].
    apply JS_eqb_eq in E. contradiction.
Qed.

Lemma JS_length_nonneg (s : JS.jsstring) : 0 <= JS.length s.
Proof. unfold JS.length. lia. Qed.

Lemma JS_length_one (key : JS.jsstring) : JS.length key = 1 -> exists u, key = [u].
Proof.
  unfold JS.length. destruct key as [|u [|v k]]; simpl; intros H; try lia.
  now exists u.
Qed.

(** A key whose name is one code unit long is neither [Backspace]
    nor [Enter]. *)
Lemma single_unit_key (key : JS.jsstring) :
  JS.length key = 1 -> JS.eqb key JS.Backspace = false /\ JS.eqb key JS.Enter = false.
Proof.
  intros H. destruct (JS_length_one key H) as [u ->].
  split; cbn; apply andb_false_r.
Qed.

Lemma JS_index_in_range (s : JS.jsstring) (i : Z) :
  0 <= i < JS.length s -> exists u, JS.index s i = Some u.
Proof.
  unfold JS.index, JS.length. intros [H0 H1].
  destruct (i <? 0) eqn:E; [apply Z.ltb_lt in E; lia|].
  destruct (nth_error s (Z.to_nat i)) as [u|] eqn:N; [now exists u|].
  apply nth_error_None in N. lia.
Qed.

Lemma JS_length_app (a b : JS.jsstring) : JS.length (a ++ b) = JS.length a + JS.length b.
Proof. unfold JS.length. rewrite length_app. lia. Qed.

Lemma JS_length_slice (s : JS.jsstring) :
  0 < JS.length s -> JS.length (JS.slice_0_m1 s) = JS.length s - 1.
Proof.
  unfold JS.length, JS.slice_0_m1. intros H.
  destruct s as [|x s] using rev_ind; [simpl in H; lia|].
  rewrite removelast_last, length_app. simpl. lia.
Qed.

Lemma JS_substring_0_full (s : JS.jsstring) : JS.substring_0 s (JS.length s) = s.
Proof. unfold JS.substring_0, JS.length. rewrite Nat2Z.id. apply firstn_all. Qed.

Lemma JS_length_substring_0 (s : JS.jsstring) (n : Z) :
  0 <= n <= JS.length s -> JS.length (JS.substring_0 s n) = n.
Proof.
  unfold JS.substring_0, JS.length. intros H.
  rewrite length_firstn. lia.
Qed.

(** ** The forced-typing reducers *)

Lemma firstn_snoc_nth {A} (l : list A) (n : nat) (x : A) :
  nth_error l n = Some x -> (firstn n l ++ [x])%list = firstn (S n) l.
Proof.
  revert n; induction l as [|y l IH]; intros [|n]; simpl; try discriminate.
  - now intros [= ->].
  - intros H. f_equal. now apply IH.
Qed.

Lemma JS_append_indexed_firstn (s : JS.jsstring) (i : Z) :
  0 <= i < JS.length s ->
  JS.append_indexed (firstn (Z.to_nat i) s) (JS.index s i) = firstn (Z.to_nat (i + 1)) s.
Proof.
  intros H. unfold JS.index.
  destruct (i <? 0) eqn:E; [apply Z.ltb_lt in E; lia|].
  destruct (nth_error s (Z.to_nat i)) as [u|] eqn:N.
  - simpl. rewrite (firstn_snoc_nth _ _ _ N). f_equal. lia.
  - apply nth_error_None in N. unfold JS.length in H. lia.
Qed.

Section HookA.
Import ForcedTypingA.
Variable scriptText : JS.jsstring.

Lemma A_backspace_at_zero (st : state) :
  scriptIndex st = 0 -> handleKeyDown scriptText st JS.Backspace = (st, None).
Proof.
  intros H. unfold handleKeyDown.
  rewrite JS_eqb_refl, H. reflexivity.
Qed.

(** A key of one code unit: the third branch of the handler. *)
Lemma A_printable (st : state) (key : JS.jsstring) :
  JS.length key = 1 ->
  handleKeyDown scriptText st key =
    if scriptIndex st <? JS.length scriptText then
      ({| displayText := JS.append_indexed (displayText st)
                           (JS.index scriptText (scriptIndex st));
          scriptIndex := scriptIndex st + 1 |}, None)
    else (st, None).
Proof.
  intros H. unfold handleKeyDown.
  destruct (single_unit_key key H) as [-> ->].
  rewrite H. reflexivity.
Qed.

(** The index stays between 0 and the length of the script. *)
Lemma A_bounds_step (st : state) (key : JS.jsstring) :
  0 <= scriptIndex st <= JS.length scriptText ->
  0 <= scriptIndex (fst (handleKeyDown scriptText st key)) <= JS.length scriptText.
Proof.
  intros H. unfold handleKeyDown.
  destruct (JS.eqb key JS.Backspace).
  - destruct (scriptIndex st >? 0) eqn:E; simpl; [|assumption].
    apply Z.gtb_lt in E. lia.
  - destruct (JS.eqb key JS.Enter).
    + destruct (scriptIndex st >=? JS.length scriptText); simpl; assumption.
    + destruct (JS.length key =? 1); [|simpl; assumption].
      destruct (scriptIndex st <? JS.length scriptText) eqn:E; simpl; [|assumption].
      apply Z.ltb_lt in E. lia.
Qed.

Lemma A_bounds_run (keys : list JS.jsstring) : forall st,
  0 <= scriptIndex st <= JS.length scriptText ->
  0 <= scriptIndex (fst (run scriptText st keys)) <= JS.length scriptText.
Proof.
  induction keys as [|k ks IH]; intros st H; simpl; [assumption|].
  pose proof (A_bounds_step st k H) as Hk.
  destruct (handleKeyDown scriptText st k) as [st1 out].
  specialize (IH st1 Hk).
  destruct (run scriptText st1 ks) as [st2 outs]. exact IH.
Qed.

(** Keys of one code unit reveal the script from left to right. *)
Lemma A_run_printable (keys : list JS.jsstring) : forall st,
  Forall (fun k => JS.length k = 1) keys ->
  0 <= scriptIndex st ->
  displayText st = firstn (Z.to_nat (scriptIndex st)) scriptText ->
  scriptIndex st + Z.of_nat (List.length keys) <= JS.length scriptText ->
  run scriptText st keys =
    ({| displayText := firstn (Z.to_nat (scriptIndex st + Z.of_nat (List.length keys))) scriptText;
        scriptIndex := scriptIndex st + Z.of_nat (List.length keys) |}, []).
Proof.
  induction keys as [|k ks IH]; intros st Hk H0 Hd Hlen.
  - simpl. rewrite Z.add_0_r, <- Hd. now destruct st.
  - inversion Hk as [|? ? Hk1 Hks]; subst.
    cbn [run]. rewrite (A_printable st k Hk1).
    cbn [List.length] in Hlen.
    destruct (scriptIndex st <? JS.length scriptText) eqn:E;
      [|apply Z.ltb_ge in E; lia].
    apply Z.ltb_lt in E.
    rewrite IH; cbn [scriptIndex displayText]; try assumption; try lia.
    + cbn [List.length].
      replace (scriptIndex st + 1 + Z.of_nat (List.length ks))
        with (scriptIndex st + Z.of_nat (S (List.length ks))) by lia.
      reflexivity.
    + rewrite Hd. apply JS_append_indexed_firstn. lia.
Qed.

(** From the initial state, as many one-unit keys as the script is
    long and then [Enter] hand the script itself to [onComplete]. *)
Lemma A_fidelity_from_init (keys : list JS.jsstring) :
  Forall (fun k => JS.length k = 1) keys ->
  Z.of_nat (List.length keys) = JS.length scriptText ->
  snd (run scriptText init (keys ++ [JS.Enter])) = [scriptText].
Proof.
  intros Hk Hlen.
  assert (R : forall ks st st' outs,
             run scriptText st ks = (st', outs) ->
             run scriptText st (ks ++ [JS.Enter]) =
               (fst (run scriptText st' [JS.Enter]),
                (outs ++ snd (run scriptText st' [JS.Enter]))%list)).
  { induction ks as [|k ks IH]; intros st st' outs.
    - simpl. intros [= <- <-].
      destruct (handleKeyDown scriptText st JS.Enter) as [s o]. reflexivity.
    - cbn [run app]. destruct (handleKeyDown scriptText st k) as [s1 o1].
      destruct (run scriptText s1 ks) as [s2 o2] eqn:R2. intros [= <- <-].
      rewrite (IH s1 s2 o2 R2). destruct o1; reflexivity. }
  rewrite (R keys init _ _ (A_run_printable keys init Hk (Z.le_refl 0) eq_refl
                              ltac:(cbn [scriptIndex init]; lia))).
  cbn [snd app scriptIndex init run]. unfold handleKeyDown.
  cbn [scriptIndex displayText].
  replace (JS.eqb JS.Enter JS.Backspace) with false by reflexivity.
  rewrite JS_eqb_refl, Z.add_0_l, Hlen.
  replace (JS.length scriptText >=? JS.length scriptText) with true
    by (symmetry; apply Z.geb_le; lia).
  cbn. f_equal. unfold JS.length. rewrite Nat2Z.id. apply firstn_all.
Qed.
End HookA.

Section HookB.
Import ForcedTypingB.
Variable scriptText : JS.jsstring.

Lemma B_key_matches_single (key : JS.jsstring) :
  key_matches key = true -> JS.length key = 1.
Proof. destruct key as [|u [|v k]]; simpl; try discriminate. reflexivity. Qed.

(** A key of the class: only the first [if] applies. *)
Lemma B_classified (st : state) (key : JS.jsstring) :
  key_matches key = true ->
  handleKeyDown scriptText st key =
    if scriptIndex st <? JS.length scriptText then
      ({| displayText := JS.append_indexed (displayText st)
                           (JS.index scriptText (scriptIndex st));
          scriptIndex := scriptIndex st + 1 |}, None)
    else (st, None).
Proof.
  intros H. unfold handleKeyDown. rewrite H.
  destruct (single_unit_key key (B_key_matches_single key H)) as [-> ->].
  cbn [andb]. destruct (scriptIndex st <? JS.length scriptText); reflexivity.
Qed.

(** A key outside the class that is neither [Backspace] nor
    [Enter] changes nothing. *)
Lemma B_unclassified (st : state) (key : JS.jsstring) :
  key_matches key = false ->
  JS.eqb key JS.Backspace = false -> JS.eqb key JS.Enter = false ->
  handleKeyDown scriptText st key = (st, None).
Proof.
  intros H1 H2 H3. unfold handleKeyDown. rewrite H1, H2, H3. reflexivity.
Qed.

Lemma B_backspace (st : state) :
  handleKeyDown scriptText st JS.Backspace =
    if JS.length (displayText st) >? 0 then
      ({| displayText := JS.slice_0_m1 (displayText st);
          scriptIndex := Z.max 0 (scriptIndex st - 1) |}, None)
    else (st, None).
Proof.
  unfold handleKeyDown.
  replace (key_matches JS.Backspace) with false by reflexivity.
  replace (JS.eqb JS.Backspace JS.Enter) with false by reflexivity.
  rewrite JS_eqb_refl. cbn [andb].
  destruct (JS.length (displayText st) >? 0); reflexivity.
Qed.

Lemma B_enter (st : state) :
  handleKeyDown scriptText st JS.Enter =
    if scriptIndex st >=? JS.length scriptText then (init, Some (displayText st))
    else (st, None).
Proof.
  unfold handleKeyDown.
  replace (key_matches JS.Enter) with false by reflexivity.
  replace (JS.eqb JS.Enter JS.Backspace) with false by reflexivity.
  rewrite JS_eqb_refl. cbn [andb].
  destruct (scriptIndex st >=? JS.length scriptText); reflexivity.
Qed.

(** Every key is of exactly one of four kinds. *)
Lemma B_key_cases (key : JS.jsstring) :
  key_matches key = true \/ key = JS.Backspace \/ key = JS.Enter
  \/ (key_matches key = false /\ JS.eqb key JS.Backspace = false
      /\ JS.eqb key JS.Enter = false).
Proof.
  destruct (key_matches key) eqn:M; [now left|right].
  destruct (JS.eqb key JS.Backspace) eqn:B; [left; now apply JS_eqb_eq|right].
  destruct (JS.eqb key JS.Enter) eqn:E; [left; now apply JS_eqb_eq|right].
  auto.
Qed.

Lemma B_consistent_step (st : state) (key : JS.jsstring) :
  consistent st -> consistent (fst (handleKeyDown scriptText st key)).
Proof.
  unfold consistent. intros H.
  destruct (B_key_cases key) as [M|[->|[->|(M & B & E)]]].
  - rewrite (B_classified st key M).
    destruct (scriptIndex st <? JS.length scriptText) eqn:L; [|exact H].
    apply Z.ltb_lt in L. cbn [fst displayText scriptIndex].
    destruct (JS_index_in_range scriptText (scriptIndex st)) as [u ->].
    { pose proof (JS_length_nonneg (displayText st)). lia. }
    cbn [JS.append_indexed]. rewrite JS_length_app. cbn. lia.
  - rewrite B_backspace.
    destruct (JS.length (displayText st) >? 0) eqn:L; [|exact H].
    apply Z.gtb_lt in L. cbn [fst displayText scriptIndex].
    rewrite JS_length_slice by lia. lia.
  - rewrite B_enter.
    destruct (scriptIndex st >=? JS.length scriptText); [reflexivity|exact H].
  - rewrite (B_unclassified st key M B E). exact H.
Qed.

Lemma B_consistent_run (keys : list JS.jsstring) : forall st,
  consistent st -> consistent (fst (run scriptText st keys)).
Proof.
  induction keys as [|k ks IH]; intros st H; simpl; [assumption|].
  pose proof (B_consistent_step st k H) as Hk.
  destruct (handleKeyDown scriptText st k) as [st1 out].
  specialize (IH st1 Hk).
  destruct (run scriptText st1 ks) as [st2 outs]. exact IH.
Qed.

Lemma B_backspace_at_zero (st : state) :
  consistent st -> scriptIndex st = 0 ->
  handleKeyDown scriptText st JS.Backspace = (st, None).
Proof.
  unfold consistent. intros H H0. rewrite B_backspace, H, H0. reflexivity.
Qed.
End HookB.

Section Input001.
Import ForcedTypingInput.
Variable textToType : JS.jsstring.

Lemma I_printable (st : state) (key : JS.jsstring) :
  JS.length key = 1 ->
  handleKeyDown textToType st key =
    if index st <? JS.length textToType then
      ({| value := JS.substring_0 textToType (index st + 1);
          index := index st + 1 |}, None)
    else (st, None).
Proof.
  intros H. unfold handleKeyDown.
  destruct (single_unit_key key H) as [-> ->].
  rewrite H. reflexivity.
Qed.

Lemma I_run_printable (keys : list JS.jsstring) : forall st,
  Forall (fun k => JS.length k = 1) keys ->
  index st + Z.of_nat (List.length keys) <= JS.length textToType ->
  index (fst (run textToType st keys)) = index st + Z.of_nat (List.length keys)
  /\ snd (run textToType st keys) = [].
Proof.
  induction keys as [|k ks IH]; intros st Hk Hlen.
  - simpl. split; [lia|reflexivity].
  - inversion Hk as [|? ? Hk1 Hks]; subst.
    cbn [run]. rewrite (I_printable st k Hk1).
    cbn [List.length] in Hlen.
    destruct (index st <? JS.length textToType) eqn:E;
      [|apply Z.ltb_ge in E; lia].
    specialize (IH {| value := JS.substring_0 textToType (index st + 1);
                      index := index st + 1 |} Hks).
    cbn [index] in IH.
    destruct (run textToType _ ks) as [st2 outs].
    cbn [fst snd] in *. destruct IH as [IH1 IH2]; [lia|].
    split; [cbn [List.length]; lia|exact IH2].
Qed.

Lemma I_run_app (ks1 ks2 : list JS.jsstring) : forall st,
  run textToType st (ks1 ++ ks2) =
    (fst (run textToType (fst (run textToType st ks1)) ks2),
     (snd (run textToType st ks1)
        ++ snd (run textToType (fst (run textToType st ks1)) ks2))%list).
Proof.
  induction ks1 as [|k ks IH]; intros st.
  - simpl. now destruct (run textToType st ks2).
  - cbn [run app]. destruct (handleKeyDown textToType st k) as [s1 o1].
    rewrite (IH s1). destruct (run textToType s1 ks) as [s2 o2].
    cbn [fst snd]. destruct o1; reflexivity.
Qed.

(** [ForcedTypingInput] hands [textToType] itself to [onComplete]. *)
Lemma I_fidelity_from_init (keys : list JS.jsstring) :
  Forall (fun k => JS.length k = 1) keys ->
  Z.of_nat (List.length keys) = JS.length textToType ->
  snd (run textToType init (keys ++ [JS.Enter])) = [textToType].
Proof.
  intros Hk Hlen. rewrite I_run_app.
  destruct (I_run_printable keys init Hk) as [Hi Ho].
  { cbn [index init]. lia. }
  cbn [snd]. rewrite Ho. cbn [app run]. unfold handleKeyDown at 1.
  replace (JS.eqb JS.Enter JS.Backspace) with false by reflexivity.
  rewrite JS_eqb_refl, Hi. cbn [index init].
  rewrite Z.add_0_l, Hlen, Z.eqb_refl. reflexivity.
Qed.
End Input001.

Section Keyboard000.
Import Part000.

(** Below the full length every letter key throws: nothing is
    revealed. *)
Lemma P000_letter_throws (st : state) (label : JS.jsstring) :
  currentIndex st < JS.length FORCED_TEXT -> handleKeyPress st label = TypeError.
Proof.
  intros H. unfold handleKeyPress, showKeyPopup.
  apply Z.ltb_lt in H as H1. rewrite H1.
  replace (currentIndex st >=? JS.length FORCED_TEXT) with false; [reflexivity|].
  symmetry. rewrite Z.geb_leb. apply Z.leb_gt. lia.
Qed.

Lemma P000_letter_click (st : state) (label : JS.jsstring) :
  click st (Letter label) = st.
Proof.
  unfold click, handleKeyPress. destruct (isFinished st); [reflexivity|].
  destruct (currentIndex st <? JS.length FORCED_TEXT) eqn:E; [|reflexivity].
  unfold showKeyPopup.
  replace (currentIndex st >=? JS.length FORCED_TEXT) with false; [reflexivity|].
  apply Z.ltb_lt in E. symmetry. rewrite Z.geb_leb. apply Z.leb_gt. lia.
Qed.

Lemma P000_backspace_at_zero (st : state) :
  currentIndex st = 0 -> handleBackspace st = st.
Proof. intros H. unfold handleBackspace. rewrite H. reflexivity. Qed.

Lemma P000_nonneg_click (st : state) (b : button) :
  0 <= currentIndex st -> 0 <= currentIndex (click st b).
Proof.
  intros H. destruct b as [label| |].
  - now rewrite P000_letter_click.
  - unfold click, handleBackspace. destruct (isFinished st); [assumption|].
    destruct (currentIndex st >? 0) eqn:E; [|assumption].
    apply Z.gtb_lt in E. cbn. lia.
  - unfold click, handleEnter. destruct (isFinished st); [assumption|].
    destruct (currentIndex st =? JS.length FORCED_TEXT); assumption.
Qed.

Lemma P000_nonneg_clicks (bs : list button) : forall st,
  0 <= currentIndex st -> 0 <= currentIndex (clicks st bs).
Proof.
  unfold clicks. induction bs as [|b bs IH]; intros st H; simpl; [assumption|].
  apply IH. now apply P000_nonneg_click.
Qed.
End Keyboard000.

Section LiveModeViewKeys.
Import FlowProp.

(** A key of one code unit (the space bar is one) in [LiveModeView]:
    the last branch of the handler. *)
Lemma F_printable (p : Project) (r : Q) (st : state) (key : JS.jsstring) :
  JS.length key = 1 -> forcedText st <> [] ->
  handleKeyDown p r st key =
    if forcedTextIndex st <? JS.length (forcedText st) then
      {| currentView := currentView st; isLiveMode := isLiveMode st;
         liveMessages := liveMessages st;
         currentMessageIndex := currentMessageIndex st;
         forcedText := forcedText st;
         forcedTextIndex := forcedTextIndex st + 1;
         inputValue := JS.substring_0 (forcedText st) (forcedTextIndex st + 1);
         timers := timers st |}
    else st.
Proof.
  intros H Hne. unfold handleKeyDown.
  destruct (JS.length (forcedText st) =? 0) eqn:E.
  { apply Z.eqb_eq in E. unfold JS.length in E.
    destruct (forcedText st); [contradiction|simpl in E; lia]. }
  destruct (single_unit_key key H) as [-> ->].
  rewrite H. reflexivity.
Qed.
End LiveModeViewKeys.

(** ** Erasing at the start of the line *)

Lemma iter_fixpoint {A} (f : A -> A) (x : A) (n : nat) : f x = x -> Nat.iter n f x = x.
Proof. intros H. induction n as [|n IH]; simpl; [reflexivity|]. now rewrite IH. Qed.

(** C9.  An erase signal at revealed length 0 changes nothing, however
    often it is repeated, and nothing is handed to [onComplete]: in
    [useForcedTyping] of the first file, in the variant of the second
    file (in every state its keys can reach) and in the keyboard of
    part_000.  In all three the revealed length never goes below 0. *)
Theorem C9_erase_at_zero_is_a_no_op :
  (forall scriptText st n,
      ForcedTypingA.scriptIndex st = 0 ->
      Nat.iter n (fun s => fst (ForcedTypingA.handleKeyDown scriptText s JS.Backspace)) st = st
      /\ snd (ForcedTypingA.handleKeyDown scriptText st JS.Backspace) = None)
  /\ (forall scriptText keys n,
         let st := fst (ForcedTypingB.run scriptText ForcedTypingB.init keys) in
         ForcedTypingB.scriptIndex st = 0 ->
         Nat.iter n (fun s => fst (ForcedTypingB.handleKeyDown scriptText s JS.Backspace)) st = st
         /\ snd (ForcedTypingB.handleKeyDown scriptText st JS.Backspace) = None)
  /\ (forall st n,
         Part000.currentIndex st = 0 -> Nat.iter n Part000.handleBackspace st = st)
  /\ (forall scriptText keys,
         0 <= ForcedTypingA.scriptIndex
                (fst (ForcedTypingA.run scriptText ForcedTypingA.init keys)))
  /\ (forall scriptText keys,
         0 <= ForcedTypingB.scriptIndex
                (fst (ForcedTypingB.run scriptText ForcedTypingB.init keys)))
  /\ (forall bs, 0 <= Part000.currentIndex (Part000.clicks Part000.init bs)).
Proof.
  split; [|split; [|split; [|split; [|split]]]].
  - intros scriptText st n H. split.
    + apply iter_fixpoint. cbv beta. now rewrite A_backspace_at_zero.
    + now rewrite A_backspace_at_zero.
  - intros scriptText keys n st H.
    assert (C : ForcedTypingB.consistent st)
      by (apply B_consistent_run; reflexivity).
    split.
    + apply iter_fixpoint. cbv beta. now rewrite B_backspace_at_zero.
    + now rewrite B_backspace_at_zero.
  - intros st n H. apply iter_fixpoint. now apply P000_backspace_at_zero.
  - intros scriptText keys. apply A_bounds_run. cbn.
    pose proof (JS_length_nonneg scriptText). lia.
  - intros scriptText keys.
    pose proof (B_consistent_run scriptText keys ForcedTypingB.init eq_refl) as H.
    unfold ForcedTypingB.consistent in H. rewrite <- H. apply JS_length_nonneg.
  - intros bs. apply P000_nonneg_clicks. cbn. lia.
Qed.

(** Five erase signals at the start of "ok" in each of the three. *)
Lemma C9_erase_at_zero_witness :
  (ForcedTypingA.scriptIndex ForcedTypingA.init = 0
   /\ Nat.iter 5 (fun s => fst (ForcedTypingA.handleKeyDown (JS.lit "ok") s JS.Backspace))
        ForcedTypingA.init = ForcedTypingA.init)
  /\ (ForcedTypingB.scriptIndex
        (fst (ForcedTypingB.run (JS.lit "ok") ForcedTypingB.init
                [JS.lit "x"; JS.Backspace])) = 0
      /\ Nat.iter 5 (fun s => fst (ForcedTypingB.handleKeyDown (JS.lit "ok") s JS.Backspace))
           (fst (ForcedTypingB.run (JS.lit "ok") ForcedTypingB.init
                   [JS.lit "x"; JS.Backspace]))
         = fst (ForcedTypingB.run (JS.lit "ok") ForcedTypingB.init
                  [JS.lit "x"; JS.Backspace]))
  /\ (Part000.currentIndex Part000.init = 0
      /\ Nat.iter 5 Part000.handleBackspace Part000.init = Part000.init).
Proof.
  destruct C9_erase_at_zero_is_a_no_op as (HA & HB & HP & _).
  split; [|split].
  - split; [reflexivity|].
    exact (proj1 (HA (JS.lit "ok") ForcedTypingA.init 5%nat eq_refl)).
  - split; [reflexivity|].
    exact (proj1 (HB (JS.lit "ok") [JS.lit "x"; JS.Backspace] 5%nat eq_refl)).
  - split; [reflexivity|].
    exact (HP Part000.init 5%nat eq_refl).
Defined.

(** ** Printable keys *)

(** C6 as stated fails on the variant of the second file: the key "@"
    is a single key that is no control key, the revealed length is
    below the length of the script, and the revealed length stays 0. *)
Lemma C6_counterexample :
  JS.length (JS.lit "@") = 1
  /\ ForcedTypingB.scriptIndex ForcedTypingB.init < JS.length (JS.lit "hi")
  /\ ForcedTypingB.scriptIndex
       (fst (ForcedTypingB.handleKeyDown (JS.lit "hi") ForcedTypingB.init (JS.lit "@")))
     <> ForcedTypingB.scriptIndex ForcedTypingB.init + 1
  /\ ForcedTypingB.handleKeyDown (JS.lit "hi") ForcedTypingB.init (JS.lit "@")
     <> ForcedTypingB.handleKeyDown (JS.lit "hi") ForcedTypingB.init (JS.lit "a").
Proof.
  repeat split; try reflexivity; cbn; discriminate.
Qed.

(** A key that is no character for the handler and neither
    [Backspace] nor [Enter]: the first file, and [LiveModeView]. *)
Lemma A_unclassified (scriptText : JS.jsstring) (st : ForcedTypingA.state)
      (key : JS.jsstring) :
  JS.length key <> 1 -> key <> JS.Backspace -> key <> JS.Enter ->
  ForcedTypingA.handleKeyDown scriptText st key = (st, None).
Proof.
  intros L B E. unfold ForcedTypingA.handleKeyDown.
  apply JS_eqb_neq in B. apply JS_eqb_neq in E. apply Z.eqb_neq in L.
  now rewrite B, E, L.
Qed.

Lemma F_unclassified (p : FlowProp.Project) (r : Q) (st : FlowProp.state)
      (key : JS.jsstring) :
  JS.length key <> 1 -> key <> JS.Backspace -> key <> JS.Enter ->
  FlowProp.handleKeyDown p r st key = st.
Proof.
  intros L B E. unfold FlowProp.handleKeyDown.
  destruct (JS.length (FlowProp.forcedText st) =? 0); [reflexivity|].
  assert (S : JS.eqb key (JS.lit " ") = false).
  { apply JS_eqb_neq. intros ->. now apply L. }
  apply JS_eqb_neq in B. apply JS_eqb_neq in E. apply Z.eqb_neq in L.
  now rewrite B, E, L, S.
Qed.

(** C6, amended.  A key that the handler takes for a character adds
    exactly 1 to the revealed length while that is below the length of
    the script and changes nothing at full length, and two such keys
    have the same effect.  The keys taken for a character are: in
    [useForcedTyping] of the first file and in [LiveModeView], every
    key whose name is one code unit long; in the variant of the second
    file, only the keys of its character class.  A key that is not
    taken for a character and is neither [Backspace] nor [Enter]
    changes nothing and hands nothing over; [Backspace] and [Enter]
    have their own effects. *)
Theorem C6_classified_key_reveals_one_character :
  (forall scriptText st key,
      JS.length key = 1 ->
      let r := ForcedTypingA.handleKeyDown scriptText st key in
      (ForcedTypingA.scriptIndex st < JS.length scriptText ->
       ForcedTypingA.scriptIndex (fst r) = ForcedTypingA.scriptIndex st + 1)
      /\ (JS.length scriptText <= ForcedTypingA.scriptIndex st -> fst r = st)
      /\ snd r = None
      /\ forall key', JS.length key' = 1 ->
                      ForcedTypingA.handleKeyDown scriptText st key' = r)
  /\ (forall scriptText st key,
         ForcedTypingB.key_matches key = true ->
         let r := ForcedTypingB.handleKeyDown scriptText st key in
         (ForcedTypingB.scriptIndex st < JS.length scriptText ->
          ForcedTypingB.scriptIndex (fst r) = ForcedTypingB.scriptIndex st + 1)
         /\ (JS.length scriptText <= ForcedTypingB.scriptIndex st -> fst r = st)
         /\ snd r = None
         /\ forall key', ForcedTypingB.key_matches key' = true ->
                         ForcedTypingB.handleKeyDown scriptText st key' = r)
  /\ (forall p d st key,
         JS.length key = 1 -> FlowProp.forcedText st <> [] ->
         let r := FlowProp.handleKeyDown p d st key in
         (FlowProp.forcedTextIndex st < JS.length (FlowProp.forcedText st) ->
          FlowProp.forcedTextIndex r = FlowProp.forcedTextIndex st + 1)
         /\ (JS.length (FlowProp.forcedText st) <= FlowProp.forcedTextIndex st -> r = st)
         /\ forall key' d', JS.length key' = 1 ->
                            FlowProp.handleKeyDown p d' st key' = r)
  /\ (forall scriptText st key,
         JS.length key <> 1 -> key <> JS.Backspace -> key <> JS.Enter ->
         ForcedTypingA.handleKeyDown scriptText st key = (st, None))
  /\ (forall scriptText st key,
         ForcedTypingB.key_matches key = false ->
         key <> JS.Backspace -> key <> JS.Enter ->
         ForcedTypingB.handleKeyDown scriptText st key = (st, None))
  /\ (forall p d st key,
         JS.length key <> 1 -> key <> JS.Backspace -> key <> JS.Enter ->
         FlowProp.handleKeyDown p d st key = st).
Proof.
  split; [|split; [|split; [|split; [|split]]]].
  - intros scriptText st key H r. subst r. rewrite (A_printable scriptText st key H).
    repeat split.
    + intros L. apply Z.ltb_lt in L. now rewrite L.
    + intros L. apply Z.ltb_ge in L. now rewrite L.
    + now destruct (ForcedTypingA.scriptIndex st <? JS.length scriptText).
    + intros key' H'. apply A_printable, H'.
  - intros scriptText st key H r. subst r. rewrite (B_classified scriptText st key H).
    repeat split.
    + intros L. apply Z.ltb_lt in L. now rewrite L.
    + intros L. apply Z.ltb_ge in L. now rewrite L.
    + now destruct (ForcedTypingB.scriptIndex st <? JS.length scriptText).
    + intros key' H'. apply B_classified, H'.
  - intros p d st key H Hne r. subst r. rewrite (F_printable p d st key H Hne).
    repeat split.
    + intros L. apply Z.ltb_lt in L. now rewrite L.
    + intros L. apply Z.ltb_ge in L. now rewrite L.
    + intros key' d' H'. apply F_printable; assumption.
  - exact A_unclassified.
  - intros scriptText st key M B E. apply B_unclassified; [exact M| |];
      now apply JS_eqb_neq.
  - exact F_unclassified.
Qed.

(** The keys "x" and "7" on "hi" in the three handlers, and the keys
    [Shift] and "@", which are taken for no character. *)
Lemma C6_classified_key_witness :
  (JS.length (JS.lit "x") = 1
   /\ ForcedTypingA.scriptIndex
        (fst (ForcedTypingA.handleKeyDown (JS.lit "hi") ForcedTypingA.init (JS.lit "x")))
      = 1)
  /\ (ForcedTypingB.key_matches (JS.lit "7") = true
      /\ ForcedTypingB.scriptIndex
           (fst (ForcedTypingB.handleKeyDown (JS.lit "hi") ForcedTypingB.init (JS.lit "7")))
         = 1)
  /\ (JS.length (JS.lit "x") = 1
      /\ FlowProp.forcedTextIndex
           (FlowProp.handleKeyDown
              {| FlowProp.messages := []; FlowProp.delayMode := FlowProp.custom;
                 FlowProp.customDelay := 2 |} 0%Q
              {| FlowProp.currentView := FlowProp.live; FlowProp.isLiveMode := true;
                 FlowProp.liveMessages := []; FlowProp.currentMessageIndex := 0;
                 FlowProp.forcedText := JS.lit "hi"; FlowProp.forcedTextIndex := 0;
                 FlowProp.inputValue := []; FlowProp.timers := Timers.empty |}
              (JS.lit "x"))
         = 1)
  /\ (JS.length (JS.lit "Shift") <> 1
      /\ ForcedTypingA.handleKeyDown (JS.lit "hi") ForcedTypingA.init (JS.lit "Shift")
         = (ForcedTypingA.init, None))
  /\ (ForcedTypingB.key_matches (JS.lit "@") = false
      /\ ForcedTypingB.handleKeyDown (JS.lit "hi") ForcedTypingB.init (JS.lit "@")
         = (ForcedTypingB.init, None)).
Proof.
  destruct C6_classified_key_reveals_one_character as (HA & HB & HF & HA' & HB' & _).
  split; [|split; [|split; [|split]]].
  - split; [reflexivity|].
    exact (proj1 (HA (JS.lit "hi") ForcedTypingA.init (JS.lit "x") eq_refl) eq_refl).
  - split; [reflexivity|].
    exact (proj1 (HB (JS.lit "hi") ForcedTypingB.init (JS.lit "7") eq_refl) eq_refl).
  - split; [reflexivity|].
    match goal with
    | |- FlowProp.forcedTextIndex (FlowProp.handleKeyDown ?p ?d ?st ?key) = _ =>
        exact (proj1 (HF p d st key eq_refl ltac:(cbn; discriminate)) eq_refl)
    end.
  - split; [cbn; discriminate|].
    exact (HA' (JS.lit "hi") ForcedTypingA.init (JS.lit "Shift")
             ltac:(cbn; discriminate) ltac:(discriminate) ltac:(discriminate)).
  - split; [reflexivity|].
    exact (HB' (JS.lit "hi") ForcedTypingB.init (JS.lit "@") eq_refl
             ltac:(discriminate) ltac:(discriminate)).
Defined.

(** ** Timers *)

Section TimerFacts.
Context {callback : Type}.
Implicit Types t : Timers.table callback.

Lemma pending_setTimeout cb d t :
  Timers.pending (snd (Timers.setTimeout cb d t)) =
    (Timers.pending t
       ++ [ {| Timers.handle := Timers.next t;
               Timers.due := (Timers.now t
                              + (if Qle_bool 0 d && Qle_bool d Timers.max_delay
                                 then d else 0))%Q;
               Timers.run := cb |} ])%list.
Proof. reflexivity. Qed.

Lemma earliest_In (l : list (Timers.timer callback)) x :
  Timers.earliest l = Some x -> In x l.
Proof.
  revert x; induction l as [|y l IH]; simpl; intros x; [discriminate|].
  destruct (Timers.earliest l) as [z|].
  - destruct (Qle_bool (Timers.due y) (Timers.due z)); intros [= <-]; auto.
  - intros [= <-]. auto.
Qed.

Lemma earliest_None (l : list (Timers.timer callback)) :
  Timers.earliest l = None <-> l = [].
Proof.
  split; [|intros ->; reflexivity].
  destruct l as [|y l]; simpl; [reflexivity|].
  destruct (Timers.earliest l) as [z|]; [|discriminate].
  destruct (Qle_bool _ _); discriminate.
Qed.

(** A fired timer was pending, and no timer is added. *)
Lemma fire_pending t cb t' :
  Timers.fire t = Some (cb, t') ->
  (exists x, In x (Timers.pending t) /\ cb = Timers.run x)
  /\ forall y, In y (Timers.pending t') -> In y (Timers.pending t).
Proof.
  unfold Timers.fire. destruct (Timers.earliest (Timers.pending t)) as [x|] eqn:E;
    [|discriminate].
  intros [= <- <-]. split.
  - exists x. split; [now apply earliest_In|reflexivity].
  - cbn. intros y Hy. apply filter_In in Hy. tauto.
Qed.

(** With nothing pending, time passes without effect. *)
Lemma fire_nothing t : Timers.pending t = [] -> Timers.fire t = None.
Proof. unfold Timers.fire. now intros ->. Qed.

(** A single pending timer is the one that fires. *)
Lemma fire_single t x :
  Timers.pending t = [x] ->
  Timers.fire t =
    Some (Timers.run x,
          {| Timers.pending := [];
             Timers.next := Timers.next t;
             Timers.now := if Qle_bool (Timers.now t) (Timers.due x)
                           then Timers.due x else Timers.now t |}).
Proof.
  intros H. unfold Timers.fire. rewrite H. cbn. now rewrite Nat.eqb_refl.
Qed.
End TimerFacts.

(** ** [LiveScreen] *)

Section LiveScreenFacts.
Import LiveScreen.

Lemma clear_all_pending (hs : list nat) : forall t,
  Timers.pending (clear_all hs t) =
    filter (fun x => negb (existsb (Nat.eqb (Timers.handle x)) hs)) (Timers.pending t).
Proof.
  unfold clear_all. induction hs as [|h hs IH]; intros t; cbn [fold_left existsb].
  - cbn. symmetry. apply forallb_filter_id. now apply forallb_forall.
  - rewrite IH. cbn [Timers.clearTimeout Timers.pending].
    generalize (Timers.pending t). intros l.
    induction l as [|x l IHl]; cbn [filter]; [reflexivity|].
    destruct (Nat.eqb (Timers.handle x) h); cbn [negb orb filter].
    + exact IHl.
    + destruct (existsb _ hs); cbn [negb]; [exact IHl|now rewrite IHl].
Qed.

Lemma clear_all_now (hs : list nat) : forall t,
  Timers.now (clear_all hs t) = Timers.now t.
Proof.
  unfold clear_all. induction hs as [|h hs IH]; intros t; cbn [fold_left]; [reflexivity|].
  now rewrite IH.
Qed.

(** Clearing the listed handles of a tracked state leaves nothing
    pending. *)
Lemma cleanup_clears (st : state) :
  tracked st -> Timers.pending (timers (cleanup st)) = [].
Proof.
  unfold tracked. intros H. cbn [cleanup timers]. rewrite clear_all_pending.
  induction (Timers.pending (timers st)) as [|x l IH]; [reflexivity|].
  cbn [filter]. assert (E : existsb (Nat.eqb (Timers.handle x)) (timeouts st) = true).
  { apply existsb_exists. exists (Timers.handle x).
    split; [apply H; now left|apply Nat.eqb_refl]. }
  rewrite E. cbn [negb]. apply IH. intros y Hy. apply H. now right.
Qed.

(** One pass over the script: every timer it sets is listed, and
    the callbacks are those of [script_callbacks]. *)
Lemma schedule_pass random s (conversation : list Message) : forall a,
  let a' := fold_left (schedule_one random s) conversation a in
  (forall x, In x (Timers.pending (p_timers a)) -> In (Timers.handle x) (p_timeouts a)) ->
  (forall x, In x (Timers.pending (p_timers a')) -> In (Timers.handle x) (p_timeouts a'))
  /\ map Timers.run (Timers.pending (p_timers a'))
     = (map Timers.run (Timers.pending (p_timers a)) ++ script_callbacks conversation)%list.
Proof.
  induction conversation as [|m l IH]; intros a a' H.
  - subst a'. cbn. rewrite app_nil_r. auto.
  - subst a'. cbn [fold_left].
    specialize (IH (schedule_one random s a m)). cbv zeta in IH.
    destruct IH as [IH1 IH2].
    + unfold schedule_one.
      destruct (timingMode s); destruct (isMe m); cbn;
        intros x Hx; rewrite ?in_app_iff in *; cbn in *;
        repeat (destruct Hx as [Hx|Hx]; try contradiction);
        subst; cbn; auto 6.
    + split; [exact IH1|]. rewrite IH2.
      cbn [script_callbacks flat_map]. rewrite app_assoc. f_equal.
      unfold schedule_one.
      destruct (timingMode s); destruct (isMe m); cbn;
        rewrite ?map_app, <- ?app_assoc; reflexivity.
Qed.

Lemma effect_tracked random conversation s (st : state) :
  tracked st ->
  tracked (effect random conversation s st)
  /\ map Timers.run (Timers.pending (timers (effect random conversation s st)))
     = script_callbacks conversation
  /\ messages (effect random conversation s st) = []
  /\ currentScriptIndex (effect random conversation s st) = 0.
Proof.
  intros H. unfold effect, tracked. cbn [timers timeouts messages currentScriptIndex].
  match goal with
  | |- context [fold_left ?f ?l ?a0] =>
      destruct (schedule_pass random s conversation a0) as [P1 P2]
  end.
  - cbn [p_timers p_timeouts].
    pose proof (cleanup_clears st H) as C. cbn [cleanup timers] in C.
    rewrite C. intros x [].
  - split; [exact P1|]. split; [|auto]. rewrite P2. cbn [p_timers].
    pose proof (cleanup_clears st H) as C. cbn [cleanup timers] in C.
    now rewrite C.
Qed.

Lemma tracked_blank : tracked blank.
Proof. intros x []. Qed.

Lemma tracked_render conversation s st : tracked st -> tracked (render conversation s st).
Proof.
  unfold render. intros H.
  destruct (writingMode s); [|exact H].
  destruct (find_next conversation (currentScriptIndex st)); [|exact H].
  destruct (input st); exact H.
Qed.

Lemma tracked_cleanup st : tracked st -> tracked (cleanup st).
Proof. intros H x Hx. rewrite (cleanup_clears st H) in Hx. destruct Hx. Qed.

Lemma tracked_handleActorSend conversation st t :
  tracked st -> tracked (handleActorSend conversation st t).
Proof.
  unfold handleActorSend. intros H.
  destruct (find_next conversation (currentScriptIndex st)) as [m|]; [|exact H].
  destruct (JS.eqb t (text m)); exact H.
Qed.

Lemma tracked_step conversation s st ev :
  tracked st -> tracked (step conversation s st ev).
Proof.
  intros H. destruct ev as [key|]; cbn [step].
  - unfold keyDown. destruct (input st) as [i|]; [|exact H].
    destruct (find_next conversation (currentScriptIndex st)) as [m|] eqn:F; [|exact H].
    destruct (ForcedTypingInput.handleKeyDown (text m) i key) as [i' [c|]].
    + apply tracked_render.
      pose proof (tracked_handleActorSend conversation st c H) as T.
      exact T.
    + exact H.
  - unfold fire. destruct (Timers.fire (timers st)) as [[cb t]|] eqn:F; [|exact H].
    destruct (fire_pending _ _ _ F) as [_ Sub].
    intros x Hx. destruct cb; cbn in Hx |- *; apply H, Sub, Hx.
Qed.

Lemma reachable_tracked conversation s st : reachable conversation s st -> tracked st.
Proof.
  induction 1 as [random conversation s|conversation s st ev _ IH
                 |random conversation s st conversation' s' _ IH].
  - apply tracked_render. apply (effect_tracked random conversation s blank tracked_blank).
  - now apply tracked_step.
  - apply tracked_render.
    apply (effect_tracked random conversation' s' (cleanup st)).
    now apply tracked_cleanup.
Qed.

(** When [LiveScreen] is removed, no timer of the session stays
    behind: passing time does nothing to the state it left. *)
Lemma LiveScreen_unmount_cancels_every_timer conversation s st :
  reachable conversation s st ->
  Timers.pending (timers (unmount st)) = [] /\ fire (unmount st) = unmount st.
Proof.
  intros R. pose proof (cleanup_clears st (reachable_tracked _ _ _ R)) as C.
  split; [exact C|]. unfold fire, unmount. now rewrite (fire_nothing _ C).
Qed.

(** The first pass sets a [messageTimeout] for every line of the
    script, the lines of 'me' included. *)
Lemma LiveScreen_schedules_every_line random conversation s :
  map Timers.run (Timers.pending (timers (mount random conversation s)))
  = script_callbacks conversation
  /\ forall m, In m conversation -> In (messageTimeout m) (script_callbacks conversation).
Proof.
  split.
  - unfold mount.
    destruct (effect_tracked random conversation s blank tracked_blank) as (_ & E & _).
    rewrite <- E. unfold render.
    destruct (writingMode s); [|reflexivity].
    destruct (find_next conversation _); [|reflexivity].
    destruct (input _); reflexivity.
  - intros m Hm. unfold script_callbacks. apply in_flat_map. exists m.
    split; [exact Hm|]. destruct (isMe m); cbn; auto.
Qed.
End LiveScreenFacts.

(** ** [handleActorSend] of [LiveScreen] *)

Section ActorSend.
Import LiveScreen.

Lemma find_from_spec (l : list Message) : forall k c,
  match find_from l k c with
  | Some (i, m) =>
      exists j, i = k + Z.of_nat j /\ nth_error l j = Some m /\ isMe m = true /\ c <= i
                /\ forall j' m', (j' < j)%nat -> nth_error l j' = Some m' ->
                                 isMe m' = true -> k + Z.of_nat j' < c
  | None =>
      forall j m, nth_error l j = Some m -> isMe m = true -> k + Z.of_nat j < c
  end.
Proof.
  induction l as [|x l IH]; intros k c; cbn [find_from].
  - intros [|j] m; discriminate.
  - destruct (isMe x && (k >=? c)) eqn:E.
    + apply andb_true_iff in E as [E1 E2]. apply Z.geb_le in E2.
      exists 0%nat. cbn. repeat split; auto; try lia.
    + specialize (IH (k + 1) c).
      assert (X : isMe x = true -> k < c).
      { intros E1. rewrite E1 in E. cbn in E. rewrite Z.geb_leb in E.
        apply Z.leb_gt in E. exact E. }
      destruct (find_from l (k + 1) c) as [[i m]|].
      * destruct IH as (j & -> & N & M & C & Min).
        exists (S j). cbn [nth_error]. repeat split; auto; try lia.
        intros [|j'] m' Hj N' M'.
        -- cbn in N'. injection N' as <-. specialize (X M'). lia.
        -- cbn in N'. specialize (Min j' m' ltac:(lia) N' M'). lia.
      * intros [|j] m N M.
        -- cbn in N. injection N as <-. specialize (X M). lia.
        -- cbn in N. specialize (IH j m N M). lia.
Qed.

Lemma indexOf_from_nodup (l : list Message) : forall k j m,
  NoDup (map ref l) -> nth_error l j = Some m ->
  indexOf_from l k m = k + Z.of_nat j.
Proof.
  induction l as [|x l IH]; intros k j m ND N; [destruct j; discriminate|].
  cbn [indexOf_from]. cbn [map] in ND. inversion ND as [|? ? Hx ND']; subst.
  destruct j as [|j]; cbn in N.
  - injection N as <-. rewrite Nat.eqb_refl. lia.
  - destruct (Nat.eqb (ref x) (ref m)) eqn:E.
    + apply Nat.eqb_eq in E. exfalso. apply Hx. rewrite E.
      apply in_map. eapply nth_error_In, N.
    + rewrite (IH (k + 1) j m ND' N). lia.
Qed.

Lemma earliest_actor_found conversation cursor i m :
  earliest_actor conversation cursor i m ->
  find_from conversation 0 cursor = Some (Z.of_nat i, m).
Proof.
  intros (N & M & C & Min).
  pose proof (find_from_spec conversation 0 cursor) as S.
  destruct (find_from conversation 0 cursor) as [[i0 m0]|].
  - destruct S as (j & -> & N0 & M0 & C0 & Min0).
    destruct (Nat.lt_trichotomy i j) as [L|[E|L]].
    + specialize (Min0 i m L N M). lia.
    + subst j. rewrite N in N0. injection N0 as <-. reflexivity.
    + specialize (Min j m0 L N0 M0). lia.
  - specialize (S i m N M). lia.
Qed.

Lemma no_earliest_actor conversation cursor :
  (forall i m, ~ earliest_actor conversation cursor i m) ->
  find_from conversation 0 cursor = None.
Proof.
  intros H. pose proof (find_from_spec conversation 0 cursor) as S.
  destruct (find_from conversation 0 cursor) as [[i0 m0]|]; [|reflexivity].
  destruct S as (j & -> & N0 & M0 & C0 & Min0). exfalso.
  apply (H j m0). split; [exact N0|]. split; [exact M0|]. split; [lia|].
  intros j' m' L N' M'. specialize (Min0 j' m' L N' M'). lia.
Qed.
End ActorSend.

(** C10.  In [LiveScreen], where the script holds no object twice, a
    completed submission is appended to [messages] and moves the
    cursor (to just behind that line) exactly when its text equals the
    text of the earliest message of 'me' at or after the cursor; when
    the text differs, or when no such message remains, the state,
    cursor included, is as before. *)
Theorem C10_handleActorSend_matches_next_actor_line
  (conversation : list LiveScreen.Message) (st : LiveScreen.state)
  (actorMessage : JS.jsstring) :
  NoDup (map LiveScreen.ref conversation) ->
  (forall i m,
      LiveScreen.earliest_actor conversation (LiveScreen.currentScriptIndex st) i m ->
      actorMessage = LiveScreen.text m ->
      let st' := LiveScreen.handleActorSend conversation st actorMessage in
      LiveScreen.messages st'
      = (LiveScreen.messages st
           ++ [ {| LiveScreen.msg := m;
                   LiveScreen.timestamp := Timers.now (LiveScreen.timers st) |} ])%list
      /\ LiveScreen.currentScriptIndex st' = Z.of_nat i + 1
      /\ LiveScreen.currentScriptIndex st < LiveScreen.currentScriptIndex st')
  /\ (forall i m,
         LiveScreen.earliest_actor conversation (LiveScreen.currentScriptIndex st) i m ->
         actorMessage <> LiveScreen.text m ->
         LiveScreen.handleActorSend conversation st actorMessage = st)
  /\ ((forall i m,
          ~ LiveScreen.earliest_actor conversation (LiveScreen.currentScriptIndex st) i m) ->
      LiveScreen.handleActorSend conversation st actorMessage = st).
Proof.
  intros ND. split; [|split].
  - intros i m E -> st'. subst st'.
    unfold LiveScreen.handleActorSend, LiveScreen.find_next.
    rewrite (earliest_actor_found _ _ _ _ E). cbn [option_map snd].
    rewrite JS_eqb_refl. cbn [LiveScreen.messages LiveScreen.currentScriptIndex].
    destruct E as (N & M & C & Min).
    unfold LiveScreen.indexOf. rewrite (indexOf_from_nodup conversation 0 i m ND N).
    repeat split; lia.
  - intros i m E Hne.
    unfold LiveScreen.handleActorSend, LiveScreen.find_next.
    rewrite (earliest_actor_found _ _ _ _ E). cbn [option_map snd].
    apply JS_eqb_neq in Hne. now rewrite Hne.
  - intros H. unfold LiveScreen.handleActorSend, LiveScreen.find_next.
    now rewrite (no_earliest_actor _ _ H).
Qed.

(** The script "contact: hey", "me: ok", the cursor at 0 and the
    submission "ok". *)
Lemma C10_handleActorSend_witness :
  let hey := {| LiveScreen.ref := 1; LiveScreen.id := "a"; LiveScreen.sender := "c1";
                LiveScreen.text := JS.lit "hey"; LiveScreen.delay := 2 |} in
  let ok := {| LiveScreen.ref := 2; LiveScreen.id := "b"; LiveScreen.sender := "me";
               LiveScreen.text := JS.lit "ok"; LiveScreen.delay := 2 |} in
  NoDup (map LiveScreen.ref [hey; ok])
  /\ LiveScreen.earliest_actor [hey; ok]
       (LiveScreen.currentScriptIndex LiveScreen.blank) 1 ok
  /\ LiveScreen.currentScriptIndex
       (LiveScreen.handleActorSend [hey; ok] LiveScreen.blank (JS.lit "ok")) = 2.
Proof.
  intros hey ok.
  assert (ND : NoDup (map LiveScreen.ref [hey; ok])).
  { cbn. repeat constructor; cbn; intuition discriminate. }
  assert (E : LiveScreen.earliest_actor [hey; ok]
                (LiveScreen.currentScriptIndex LiveScreen.blank) 1 ok).
  { repeat split; cbn; try lia.
    intros [|[|j]] m' L N M; try lia.
    cbn in N. injection N as <-. discriminate M. }
  split; [exact ND|]. split; [exact E|].
  exact (proj1 (proj2 (proj1 (C10_handleActorSend_matches_next_actor_line
                                [hey; ok] LiveScreen.blank (JS.lit "ok") ND)
                         1%nat ok E eq_refl))).
Defined.

(** ** [LiveChat] with an unchanged script *)

Section LiveChatFacts.
Import LiveChat.
Variable script : list Message.

Lemma activeMessage_in_range (st : state) :
  0 <= scriptIndex st < Z.of_nat (List.length script) ->
  exists m, activeMessage script st = Some m.
Proof.
  intros H. unfold activeMessage.
  destruct (scriptIndex st <? 0) eqn:E; [apply Z.ltb_lt in E; lia|].
  destruct (nth_error script (Z.to_nat (scriptIndex st))) as [m|] eqn:N; [now exists m|].
  apply nth_error_None in N. lia.
Qed.

Lemma activeMessage_at_end (st : state) :
  Z.of_nat (List.length script) <= scriptIndex st -> activeMessage script st = None.
Proof.
  intros H. unfold activeMessage.
  destruct (scriptIndex st <? 0) eqn:E; [reflexivity|].
  apply nth_error_None. lia.
Qed.

Lemma activeMessage_nth (st : state) m :
  activeMessage script st = Some m ->
  0 <= scriptIndex st < Z.of_nat (List.length script)
  /\ nth_error script (Z.to_nat (scriptIndex st)) = Some m.
Proof.
  unfold activeMessage. destruct (scriptIndex st <? 0) eqn:E; [discriminate|].
  apply Z.ltb_ge in E. intros N. split; [|exact N].
  split; [exact E|]. assert (X : nth_error script (Z.to_nat (scriptIndex st)) <> None)
    by congruence.
  apply nth_error_Some in X. lia.
Qed.

Lemma activeMessage_ext (st1 st2 : state) :
  scriptIndex st1 = scriptIndex st2 ->
  activeMessage script st1 = activeMessage script st2.
Proof. unfold activeMessage. now intros ->. Qed.

Lemma isActorTurn_ext (st1 st2 : state) :
  scriptIndex st1 = scriptIndex st2 ->
  isActorTurn script st1 = isActorTurn script st2.
Proof. unfold isActorTurn. intros E. now rewrite (activeMessage_ext _ _ E). Qed.

(** The render and the effect that follow a delivery. *)
Lemma rerender_sequential (st : state) :
  0 <= scriptIndex st <= Z.of_nat (List.length script) ->
  delivered_ids st = map id (firstn (Z.to_nat (scriptIndex st)) script) ->
  Timers.pending (timers st) = [] ->
  sequential script (rerender script st).
Proof.
  intros B D P. unfold rerender, render.
  destruct (isActorTurn script st) eqn:A.
  - set (st1 := match input st with
                | Some _ => st
                | None => with_input st (Some ForcedTypingA.init)
                end).
    assert (E1 : scriptIndex st1 = scriptIndex st) by (subst st1; now destruct (input st)).
    assert (D1 : delivered_ids st1 = delivered_ids st) by (subst st1; now destruct (input st)).
    assert (P1 : Timers.pending (timers st1) = []) by (subst st1; now destruct (input st)).
    assert (I1 : input st1 <> None) by (subst st1; destruct (input st) eqn:I; cbn; congruence).
    assert (A1 : isActorTurn script st1 = true) by (now rewrite (isActorTurn_ext _ _ E1)).
    unfold processNextMessage. rewrite A1, orb_true_r.
    unfold sequential. rewrite E1, D1, A1.
    split; [exact B|]. split; [exact D|]. split; [auto|discriminate].
  - set (st1 := with_input st None).
    assert (A1 : isActorTurn script st1 = false) by exact A.
    unfold processNextMessage. rewrite A1, orb_false_r.
    change (scriptIndex st1) with (scriptIndex st).
    change (activeMessage script st1) with (activeMessage script st).
    destruct (scriptIndex st >=? Z.of_nat (List.length script)) eqn:G.
    + apply Z.geb_le in G. unfold sequential. rewrite A1.
      change (activeMessage script st1) with (activeMessage script st).
      rewrite (activeMessage_at_end st G).
      split; [exact B|]. split; [exact D|]. split; [discriminate|].
      intros _. split; [reflexivity|exact P].
    + rewrite Z.geb_leb in G. apply Z.leb_gt in G.
      destruct (activeMessage_in_range st ltac:(lia)) as [m M]. rewrite M.
      unfold sequential.
      match goal with
      | |- context [isActorTurn script ?s] =>
          replace (isActorTurn script s) with false by (symmetry; exact A);
          replace (activeMessage script s) with (Some m) by (symmetry; exact M)
      end.
      split; [exact B|]. split; [exact D|]. split; [discriminate|].
      intros _. split; [reflexivity|].
      cbn [with_timers timers]. rewrite pending_setTimeout.
      change (timers st1) with (timers st). rewrite P. cbn [app].
      eexists. split; [reflexivity|]. left. cbn. eauto.
Qed.

(** Delivering the line at the cursor keeps the delivered lines a
    prefix of the script. *)
Lemma prefix_extends (st : state) m :
  activeMessage script st = Some m ->
  delivered_ids st = map id (firstn (Z.to_nat (scriptIndex st)) script) ->
  (delivered_ids st ++ [id m])%list
  = map id (firstn (Z.to_nat (scriptIndex st + 1)) script).
Proof.
  intros M D. destruct (activeMessage_nth st m M) as [B N].
  rewrite D. replace (Z.to_nat (scriptIndex st + 1)) with (S (Z.to_nat (scriptIndex st)))
    by lia.
  rewrite <- (firstn_snoc_nth _ _ _ N), map_app. reflexivity.
Qed.

(** A change of the input's state alone. *)
Lemma with_input_sequential (st : state) h :
  sequential script st -> isActorTurn script st = true ->
  sequential script (with_input st (Some h)).
Proof.
  intros (B & D & HA & HN) A. unfold sequential.
  change (scriptIndex (with_input st (Some h))) with (scriptIndex st).
  change (delivered_ids (with_input st (Some h))) with (delivered_ids st).
  change (isActorTurn script (with_input st (Some h))) with (isActorTurn script st).
  rewrite A. split; [exact B|]. split; [exact D|]. split; [|discriminate].
  intros _. split; [discriminate|]. exact (proj2 (HA A)).
Qed.

Lemma step_sequential (st : state) (ev : event) :
  same_script ev = true ->
  sequential script st ->
  fst (step (script, st) ev) = script /\ sequential script (snd (step (script, st) ev)).
Proof.
  intros Hev S. pose proof S as (B & D & HA & HN).
  destruct ev as [key| | |script']; [| | |discriminate]; cbn [step].
  - (* a key *)
    destruct (input st) as [h|] eqn:I; [|now split].
    destruct (activeMessage script st) as [active|] eqn:M; [|now split].
    destruct (isActorTurn script st) eqn:A;
      [|destruct (HN eq_refl) as [X _]; congruence].
    destruct (HA eq_refl) as [_ P].
    destruct (ForcedTypingA.handleKeyDown (text active) h key) as [h' [t|]]; cbn [fst snd].
    + split; [reflexivity|]. apply rerender_sequential.
      * cbn. destruct (activeMessage_nth st active M). lia.
      * unfold delivered_ids. cbn [handleActorSend displayedMessages with_input scriptIndex].
        rewrite map_app. cbn [map line id]. now apply prefix_extends.
      * exact P.
    + split; [reflexivity|]. now apply with_input_sequential.
  - (* the send button *)
    destruct (input st) as [h|] eqn:I; [|now split].
    destruct (activeMessage script st) as [active|] eqn:M; [|now split].
    destruct (isActorTurn script st) eqn:A;
      [|destruct (HN eq_refl) as [X _]; congruence].
    destruct (HA eq_refl) as [_ P].
    destruct (ForcedTypingA.isComplete (text active) h); cbn [fst snd]; [|now split].
    split; [reflexivity|]. apply rerender_sequential.
    + cbn. destruct (activeMessage_nth st active M). lia.
    + unfold delivered_ids. cbn [handleActorSend displayedMessages scriptIndex].
      rewrite map_app. cbn [map line id]. now apply prefix_extends.
    + exact P.
  - (* a timer *)
    destruct (isActorTurn script st) eqn:A.
    { destruct (HA eq_refl) as [_ P]. rewrite (fire_nothing _ P). now split. }
    destruct (HN eq_refl) as [I P].
    destruct (activeMessage script st) as [m|] eqn:M.
    2:{ rewrite (fire_nothing _ P). now split. }
    destruct P as (x & P & R). rewrite (fire_single _ _ P).
    destruct R as [[speed R]|R]; rewrite R; cbn [fst snd]; (split; [reflexivity|]).
    + unfold sequential.
      match goal with
      | |- context [isActorTurn script ?s] =>
          replace (isActorTurn script s) with false by (symmetry; exact A);
          replace (activeMessage script s) with (Some m) by (symmetry; exact M)
      end.
      split; [exact B|]. split; [exact D|]. split; [discriminate|].
      intros _. split; [exact I|].
      cbn. eexists. split; [reflexivity|]. right. reflexivity.
    + apply rerender_sequential.
      * cbn. destruct (activeMessage_nth st m M). lia.
      * unfold delivered_ids. cbn [run_callback displayedMessages with_timers scriptIndex].
        rewrite map_app. cbn [map line id]. now apply prefix_extends.
      * reflexivity.
Qed.

Lemma mount_sequential : sequential script (mount script).
Proof.
  apply rerender_sequential; cbn; try reflexivity. lia.
Qed.

Lemma steps_sequential (evs : list event) : forall st,
  forallb same_script evs = true ->
  sequential script st ->
  fst (steps script st evs) = script /\ sequential script (snd (steps script st evs)).
Proof.
  unfold steps. induction evs as [|ev evs IH]; intros st F S; cbn [fold_left].
  - split; [reflexivity|exact S].
  - cbn [forallb] in F. apply andb_true_iff in F as [F1 F2].
    destruct (step_sequential st ev F1 S) as [E S1].
    destruct (step (script, st) ev) as [script1 st1]. cbn [fst snd] in *. subst script1.
    now apply IH.
Qed.

(** While the script is not replaced, [LiveChat] delivers its lines
    one by one in the order of the script: what has been delivered
    is always the part of the script before the cursor. *)
Lemma LiveChat_delivers_in_script_order (evs : list event) :
  forallb same_script evs = true ->
  let st := session script evs in
  delivered_ids st = map id (firstn (Z.to_nat (scriptIndex st)) script)
  /\ 0 <= scriptIndex st <= Z.of_nat (List.length script).
Proof.
  intros F st. subst st. unfold session.
  destruct (steps_sequential evs (mount script) F mount_sequential) as [_ (B & D & _)].
  split; assumption.
Qed.

(** On the actor's turn no timer is pending: passing time changes
    nothing. *)
Lemma LiveChat_actor_turn_has_no_timer (evs : list event) :
  forallb same_script evs = true ->
  let st := session script evs in
  isActorTurn script st = true ->
  Timers.pending (timers st) = [] /\ step (script, st) Fire = (script, st).
Proof.
  intros F st A. subst st. unfold session in *.
  destruct (steps_sequential evs (mount script) F mount_sequential) as [_ (_ & _ & HA & _)].
  destruct (HA A) as [_ P]. split; [exact P|].
  cbn [step]. now rewrite (fire_nothing _ P).
Qed.
End LiveChatFacts.

(** ** [LiveChat]: what is on screen, and when *)

Section LiveChatLines.
Import LiveChat LiveChatShapes.
Variable script : list Message.

Lemma rerender_displayedMessages st :
  displayedMessages (rerender script st) = displayedMessages st.
Proof.
  unfold rerender, render, processNextMessage.
  destruct (isActorTurn script st); [destruct (input st)|];
    match goal with
    | |- context [if ?c then _ else _] => destruct c
    end; try reflexivity;
    match goal with
    | |- context [match ?c with Some _ => _ | None => _ end] => destruct c
    end; reflexivity.
Qed.

Lemma rerender_scriptIndex st : scriptIndex (rerender script st) = scriptIndex st.
Proof.
  unfold rerender, render, processNextMessage.
  destruct (isActorTurn script st); [destruct (input st)|];
    match goal with
    | |- context [if ?c then _ else _] => destruct c
    end; try reflexivity;
    match goal with
    | |- context [match ?c with Some _ => _ | None => _ end] => destruct c
    end; reflexivity.
Qed.

Lemma rerender_verbatim st : verbatim script st -> verbatim script (rerender script st).
Proof.
  unfold verbatim, lines. now rewrite rerender_displayedMessages, rerender_scriptIndex.
Qed.

Lemma verbatim_extends (st : state) m shown :
  activeMessage script st = Some m -> delivered_as m shown ->
  verbatim script st ->
  Forall2 delivered_as (firstn (Z.to_nat (scriptIndex st + 1)) script)
    (lines st ++ [shown]).
Proof.
  intros M D V. destruct (activeMessage_nth script st m M) as [B N].
  replace (Z.to_nat (scriptIndex st + 1)) with (S (Z.to_nat (scriptIndex st))) by lia.
  rewrite <- (firstn_snoc_nth _ _ _ N). apply Forall2_app; [exact V|].
  constructor; [exact D|constructor].
Qed.

Lemma actor_line_delivered_as (st : state) active t :
  activeMessage script st = Some active -> isActorTurn script st = true ->
  delivered_as active
    {| id := id active; participantId := participantId active; text := t;
       startDelay := startDelay active; typingDelay := typingDelay active |}.
Proof.
  intros M A. unfold isActorTurn in A. rewrite M in A.
  unfold delivered_as. cbn. repeat split; auto. congruence.
Qed.

Lemma step_verbatim (st : state) (ev : event) :
  same_script ev = true -> sequential script st -> verbatim script st ->
  verbatim script (snd (step (script, st) ev)).
Proof.
  intros Hev S V. pose proof S as (B & D & HA & HN).
  destruct ev as [key| | |script']; [| | |discriminate]; cbn [step].
  - destruct (input st) as [h|] eqn:I; [|exact V].
    destruct (activeMessage script st) as [active|] eqn:M; [|exact V].
    destruct (isActorTurn script st) eqn:A;
      [|destruct (HN eq_refl) as [X _]; congruence].
    destruct (ForcedTypingA.handleKeyDown (text active) h key) as [h' [t|]]; cbn [snd];
      [|exact V].
    apply rerender_verbatim. unfold verbatim, lines.
    cbn [handleActorSend displayedMessages with_input scriptIndex].
    rewrite map_app. cbn [map line].
    apply (verbatim_extends st active _ M); [|exact V].
    now apply (actor_line_delivered_as st).
  - destruct (input st) as [h|] eqn:I; [|exact V].
    destruct (activeMessage script st) as [active|] eqn:M; [|exact V].
    destruct (isActorTurn script st) eqn:A;
      [|destruct (HN eq_refl) as [X _]; congruence].
    destruct (ForcedTypingA.isComplete (text active) h); cbn [snd]; [|exact V].
    apply rerender_verbatim. unfold verbatim, lines.
    cbn [handleActorSend displayedMessages scriptIndex].
    rewrite map_app. cbn [map line].
    apply (verbatim_extends st active _ M); [|exact V].
    now apply (actor_line_delivered_as st).
  - destruct (isActorTurn script st) eqn:A.
    { destruct (HA eq_refl) as [_ P]. now rewrite (fire_nothing _ P). }
    destruct (HN eq_refl) as [I P].
    destruct (activeMessage script st) as [m|] eqn:M.
    2:{ now rewrite (fire_nothing _ P). }
    destruct P as (x & P & R). rewrite (fire_single _ _ P).
    destruct R as [[speed R]|R]; rewrite R; cbn [snd].
    + exact V.
    + apply rerender_verbatim. unfold verbatim, lines.
      cbn [run_callback displayedMessages with_timers scriptIndex].
      rewrite map_app. cbn [map line].
      apply (verbatim_extends st m _ M); [|exact V].
      unfold delivered_as. repeat split; auto.
Qed.

Lemma rerender_clocked st : clocked st -> clocked (rerender script st).
Proof.
  intros C. unfold rerender, processNextMessage.
  assert (T : timers (render script st) = timers st).
  { unfold render. destruct (isActorTurn script st); [destruct (input st)|]; reflexivity. }
  assert (C1 : clocked (render script st)).
  { unfold clocked. rewrite T. exact C. }
  destruct ((scriptIndex (render script st) >=? Z.of_nat (List.length script))
            || isActorTurn script (render script st)); [exact C1|].
  destruct (activeMessage script (render script st)) as [message|]; [|exact C1].
  unfold clocked. cbn [with_timers timers]. rewrite pending_setTimeout.
  intros x m speed X R. apply in_app_iff in X as [X|[<-|[]]].
  - destruct (C1 x m speed X R) as [E1 E2]. split; [exact E1|exact E2].
  - cbn in R. injection R as <- <-. split; reflexivity.
Qed.

Lemma step_clocked (st : state) (ev : event) :
  same_script ev = true -> sequential script st -> clocked st ->
  clocked (snd (step (script, st) ev)).
Proof.
  intros Hev S C. pose proof S as (B & D & HA & HN).
  destruct ev as [key| | |script']; [| | |discriminate]; cbn [step].
  - destruct (input st) as [h|] eqn:I; [|exact C].
    destruct (activeMessage script st) as [active|] eqn:M; [|exact C].
    destruct (ForcedTypingA.handleKeyDown (text active) h key) as [h' [t|]]; cbn [snd];
      [|exact C].
    apply rerender_clocked. exact C.
  - destruct (input st) as [h|] eqn:I; [|exact C].
    destruct (activeMessage script st) as [active|] eqn:M; [|exact C].
    destruct (ForcedTypingA.isComplete (text active) h); cbn [snd]; [|exact C].
    apply rerender_clocked. exact C.
  - destruct (isActorTurn script st) eqn:A.
    { destruct (HA eq_refl) as [_ P]. now rewrite (fire_nothing _ P). }
    destruct (HN eq_refl) as [I P].
    destruct (activeMessage script st) as [m|] eqn:M.
    2:{ now rewrite (fire_nothing _ P). }
    destruct P as (x & P & R). rewrite (fire_single _ _ P).
    destruct R as [[speed R]|R]; rewrite R; cbn [snd].
    + unfold clocked. cbn [run_callback with_timers timers].
      rewrite pending_setTimeout. cbn [Timers.pending app].
      intros y m' speed' [<-|[]] Ry. discriminate.
    + apply rerender_clocked. unfold clocked. cbn [run_callback with_timers timers].
      cbn [Timers.pending]. intros y m' speed' [].
Qed.

Lemma steps_lines_clock (evs : list event) : forall st,
  forallb same_script evs = true ->
  sequential script st -> verbatim script st -> clocked st ->
  sequential script (snd (steps script st evs))
  /\ verbatim script (snd (steps script st evs))
  /\ clocked (snd (steps script st evs)).
Proof.
  unfold steps. induction evs as [|ev evs IH]; intros st F S V C; cbn [fold_left].
  - auto.
  - cbn [forallb] in F. apply andb_true_iff in F as [F1 F2].
    destruct (step_sequential script st ev F1 S) as [E S1].
    pose proof (step_verbatim st ev F1 S V) as V1.
    pose proof (step_clocked st ev F1 S C) as C1.
    destruct (step (script, st) ev) as [script1 st1]. cbn [fst snd] in *. subst script1.
    now apply IH.
Qed.

Lemma session_lines_clock (evs : list event) :
  forallb same_script evs = true ->
  sequential script (session script evs)
  /\ verbatim script (session script evs)
  /\ clocked (session script evs).
Proof.
  intros F. unfold session. apply steps_lines_clock; auto.
  - apply mount_sequential.
  - apply rerender_verbatim. constructor.
  - apply rerender_clocked. intros x m speed [].
Qed.

(** On a script without a line of the actor the entries on screen
    are the lines themselves. *)
Lemma verbatim_contacts (l shown : list Message) :
  forallb (fun m => negb (String.eqb (participantId m) "you")) l = true ->
  Forall2 delivered_as l shown -> shown = l.
Proof.
  intros C F. induction F as [|m s l shown D F IH]; [reflexivity|].
  cbn in C. apply andb_true_iff in C as [C1 C2]. apply negb_true_iff in C1.
  destruct D as (D1 & D2 & D3 & D4 & D5). specialize (D5 C1).
  f_equal; [|now apply IH]. destruct m, s. cbn in *. congruence.
Qed.
End LiveChatLines.

(** ** Sessions on concrete scripts *)

(** C8.  [LiveChat] on the script "you: ab", "you: cd": when the first
    line has been typed and submitted, the second actor line is the
    active one and its input does not start from the initial state: it
    still shows "ab" with the index at 2, so the line counts as
    complete before a key is pressed. *)
Theorem C8_second_actor_line_inherits_the_input_state :
  let ab := {| LiveChat.id := "1"; LiveChat.participantId := "you";
               LiveChat.text := JS.lit "ab";
               LiveChat.startDelay := LiveChat.seconds 1;
               LiveChat.typingDelay := LiveChat.natural |} in
  let cd := {| LiveChat.id := "2"; LiveChat.participantId := "you";
               LiveChat.text := JS.lit "cd";
               LiveChat.startDelay := LiveChat.seconds 1;
               LiveChat.typingDelay := LiveChat.natural |} in
  let st := LiveChat.session [ab; cd]
              [LiveChat.Key (JS.lit "a"); LiveChat.Key (JS.lit "b");
               LiveChat.Key JS.Enter] in
  LiveChat.activeMessage [ab; cd] st = Some cd
  /\ LiveChat.input st
     = Some {| ForcedTypingA.displayText := JS.lit "ab";
               ForcedTypingA.scriptIndex := 2 |}
  /\ LiveChat.input st <> Some ForcedTypingA.init
  /\ ForcedTypingA.isComplete (JS.lit "cd")
       {| ForcedTypingA.displayText := JS.lit "ab";
          ForcedTypingA.scriptIndex := 2 |} = true.
Proof.
  cbv zeta. repeat split; try reflexivity. vm_compute. discriminate.
Qed.

(** An actor line that follows a line of a contact does start from
    the initial state: the input was away in between. *)
Lemma LiveChat_input_starts_fresh_after_a_contact_line script st :
  LiveChat.input st = None -> LiveChat.isActorTurn script st = true ->
  LiveChat.input (LiveChat.rerender script st) = Some ForcedTypingA.init.
Proof.
  intros I A. unfold LiveChat.rerender, LiveChat.render, LiveChat.processNextMessage.
  rewrite A, I.
  replace (LiveChat.isActorTurn script
             (LiveChat.with_input st (Some ForcedTypingA.init))) with true
    by (symmetry; exact A).
  rewrite orb_true_r. reflexivity.
Qed.

(** C2.  [LiveChat] on the script "you: ab", "you: cd": for the second
    line, whose text has length 2, two printable keys and [Enter] hand
    "ab" to [onSend], and the line is delivered with that text. *)
Theorem C2_second_actor_line_is_sent_with_the_previous_text :
  let ab := {| LiveChat.id := "1"; LiveChat.participantId := "you";
               LiveChat.text := JS.lit "ab";
               LiveChat.startDelay := LiveChat.seconds 1;
               LiveChat.typingDelay := LiveChat.natural |} in
  let cd := {| LiveChat.id := "2"; LiveChat.participantId := "you";
               LiveChat.text := JS.lit "cd";
               LiveChat.startDelay := LiveChat.seconds 1;
               LiveChat.typingDelay := LiveChat.natural |} in
  let first := [LiveChat.Key (JS.lit "a"); LiveChat.Key (JS.lit "b");
                LiveChat.Key JS.Enter] in
  let second := [LiveChat.Key (JS.lit "c"); LiveChat.Key (JS.lit "d");
                 LiveChat.Key JS.Enter] in
  snd (ForcedTypingA.run (JS.lit "cd")
         {| ForcedTypingA.displayText := JS.lit "ab"; ForcedTypingA.scriptIndex := 2 |}
         [JS.lit "c"; JS.lit "d"; JS.Enter]) = [JS.lit "ab"]
  /\ LiveChat.delivered_ids (LiveChat.session [ab; cd] (first ++ second)) = ["1"; "2"]%string
  /\ LiveChat.delivered_texts (LiveChat.session [ab; cd] (first ++ second))
     = [JS.lit "ab"; JS.lit "ab"]
  /\ JS.lit "ab" <> JS.lit "cd".
Proof.
  cbv zeta. repeat split; try reflexivity. vm_compute. discriminate.
Qed.

(** In part_000 no letter key reveals a character: whatever keys are
    pressed before [ENTER], the text stays empty and the message is
    not finished. *)
Lemma Part000_letters_reveal_nothing (labels : list JS.jsstring) :
  Part000.clicks Part000.init (map Part000.Letter labels ++ [Part000.Submit])
  = Part000.init.
Proof.
  unfold Part000.clicks. rewrite fold_left_app.
  assert (E : fold_left Part000.click (map Part000.Letter labels) Part000.init
              = Part000.init).
  { induction labels as [|l ls IH]; [reflexivity|].
    cbn [map fold_left]. now rewrite P000_letter_click. }
  rewrite E. reflexivity.
Qed.

(** C4.  [LiveScreen] on the script "me: hi" with no start delay: the
    first pass sets a timer for the actor's line, and when it fires,
    without any key, the line is delivered. *)
Theorem C4_LiveScreen_sets_a_timer_for_the_actor_line :
  let hi := {| LiveScreen.ref := 1; LiveScreen.id := "a"; LiveScreen.sender := "me";
               LiveScreen.text := JS.lit "hi"; LiveScreen.delay := 2 |} in
  let s := {| LiveScreen.writingMode := LiveScreen.prop;
              LiveScreen.timingMode := LiveScreen.manual;
              LiveScreen.initialDelay := 0 |} in
  let st := LiveScreen.mount (fun _ => 0%Q) [hi] s in
  map Timers.run (Timers.pending (LiveScreen.timers st)) = [LiveScreen.messageTimeout hi]
  /\ LiveScreen.input st = Some ForcedTypingInput.init
  /\ LiveScreen.delivered_ids (LiveScreen.steps [hi] s st [LiveScreen.Fire]) = ["a"]%string.
Proof. cbv zeta. repeat split; reflexivity. Qed.

(** C1.  [LiveScreen] on the script "me: hi": the line is delivered
    by its timer and again when the actor submits it, in either
    order. *)
Theorem C1_LiveScreen_delivers_the_actor_line_twice :
  let hi := {| LiveScreen.ref := 1; LiveScreen.id := "a"; LiveScreen.sender := "me";
               LiveScreen.text := JS.lit "hi"; LiveScreen.delay := 2 |} in
  let s := {| LiveScreen.writingMode := LiveScreen.prop;
              LiveScreen.timingMode := LiveScreen.manual;
              LiveScreen.initialDelay := 0 |} in
  let typed := [LiveScreen.Key (JS.lit "h"); LiveScreen.Key (JS.lit "i");
                LiveScreen.Key JS.Enter] in
  let st := LiveScreen.mount (fun _ => 0%Q) [hi] s in
  LiveScreen.delivered_ids (LiveScreen.steps [hi] s st (LiveScreen.Fire :: typed))
  = ["a"; "a"]%string
  /\ LiveScreen.delivered_ids (LiveScreen.steps [hi] s st (typed ++ [LiveScreen.Fire]))
     = ["a"; "a"]%string.
Proof. cbv zeta. split; reflexivity. Qed.

(** C3.  [FlowProp] on the script "actor: hi", "contact: yo" with a
    custom delay of 2 seconds.  The actor submits "hi", which sets the
    timer of "yo", and leaves live mode with the back button.  The
    timer stays pending; when it fires, "yo" is appended to
    [liveMessages].  If live mode was entered again in between, the
    new session, which has delivered nothing, shows "yo" first. *)
Theorem C3_LiveModeView_timer_outlives_the_session :
  let hi := {| FlowProp.id := 1; FlowProp.senderName := "A";
               FlowProp.text := JS.lit "hi"; FlowProp.isActor := true |} in
  let yo := {| FlowProp.id := 2; FlowProp.senderName := "B";
               FlowProp.text := JS.lit "yo"; FlowProp.isActor := false |} in
  let p := {| FlowProp.messages := [hi; yo]; FlowProp.delayMode := FlowProp.custom;
              FlowProp.customDelay := 2 |} in
  let played := [FlowProp.GoLive; FlowProp.Key (JS.lit "h") 0; FlowProp.Key (JS.lit "i") 0;
                 FlowProp.Key JS.Enter 0; FlowProp.Exit] in
  let left := FlowProp.steps p FlowProp.init played in
  FlowProp.currentView left = FlowProp.main
  /\ FlowProp.liveMessages left = [hi]
  /\ map Timers.due (Timers.pending (FlowProp.timers left)) = [2000%Q]
  /\ FlowProp.liveMessages (FlowProp.step p left FlowProp.Fire) = [hi; yo]
  /\ FlowProp.liveMessages (FlowProp.step p left FlowProp.GoLive) = []
  /\ FlowProp.liveMessages
       (FlowProp.steps p left [FlowProp.GoLive; FlowProp.Fire]) = [yo].
Proof. cbv zeta. repeat split; reflexivity. Qed.

(** ** The script during a session *)




(** ** Delays *)




(** With a start delay of 0 the first timer of [LiveChat] is set to
    1000 ms, the value [startDelayMs] falls back to. *)
Lemma LiveChat_start_delay_zero_waits_a_second m :
  LiveChat.startDelay m = LiveChat.seconds 0 -> LiveChat.startDelayMs m = 1000%Q.
Proof. intros H. unfold LiveChat.startDelayMs. rewrite H. reflexivity. Qed.

Section ManualTiming.
Import LiveChat LiveChatShapes.



End ManualTiming.

Section ManualTimingLiveScreen.
Import LiveScreen.

End ManualTimingLiveScreen.



(** ** [LiveChatMode] *)

Section LiveChatModeFacts.
Import LiveChatMode.
Variable p : Project.

Lemma effect_one_timer (st : state) :
  0 <= currentMessageIndex st <= Z.of_nat (List.length (messages p)) ->
  Timers.pending (timers st) = [] -> waitingForInput st = false ->
  one_timer p (effect p st).
Proof.
  intros B P W. unfold effect.
  destruct (currentMessageIndex st <? Z.of_nat (List.length (messages p))) eqn:L.
  - apply Z.ltb_lt in L.
    destruct (currentMessage p st) as [m|].
    + destruct (isUser p m); unfold one_timer; cbn.
      * rewrite P. cbn. repeat split; try lia; auto.
      * rewrite P. cbn. repeat split; try lia; try congruence.
    + unfold one_timer. rewrite P. cbn. repeat split; try lia; auto.
  - unfold one_timer. rewrite P. cbn. repeat split; try lia; auto.
Qed.

Lemma step_one_timer (st : state) (ev : event) :
  one_timer p st -> one_timer p (step p st ev).
Proof.
  intros J. pose proof J as (B & N & W & C).
  destruct ev as [key| |]; cbn [step].
  - (* a key *)
    destruct (waitingForInput st && negb (isComplete_chat p st)) eqn:G; [|exact J].
    apply andb_true_iff in G as [G1 G2]. specialize (W G1).
    destruct (ForcedTypingB.handleKeyDown _ (typing st) key) as [h [t|]];
      [destruct (currentMessage p st) as [cur|]|]; try exact J.
    unfold one_timer, onComplete. cbn. rewrite W. cbn.
    unfold isComplete_chat in G2. apply negb_true_iff in G2.
    rewrite Z.geb_leb in G2. apply Z.leb_gt in G2.
    repeat split; try lia; try congruence.
  - (* a timer *)
    destruct (Timers.pending (timers st)) as [|x [|y l]] eqn:P.
    + now rewrite (fire_nothing _ P).
    + rewrite (fire_single _ _ P).
      assert (W' : waitingForInput st = false).
      { destruct (waitingForInput st); [|reflexivity]. specialize (W eq_refl). discriminate. }
      assert (L : currentMessageIndex st < Z.of_nat (List.length (messages p))).
      { destruct (Z_lt_le_dec (currentMessageIndex st) (Z.of_nat (List.length (messages p))))
          as [H|H]; [exact H|]. specialize (C H). discriminate. }
      destruct (Timers.run x) as [m|]; cbn [run_callback].
      * unfold one_timer. cbn. repeat split; try lia; try congruence.
      * apply effect_one_timer; cbn; try lia; auto.
    + cbn in N. lia.
  - (* the restart button *)
    destruct (negb (waitingForInput st && negb (isComplete_chat p st))
              && isComplete_chat p st) eqn:G; [|exact J].
    apply andb_true_iff in G as [_ G]. unfold isComplete_chat in G. apply Z.geb_le in G.
    specialize (C G). unfold handleRestart.
    assert (Z0 : 0 <= 0 <= Z.of_nat (List.length (messages p))) by lia.
    destruct (currentMessageIndex st =? 0).
    + unfold one_timer. cbn. rewrite C. cbn. repeat split; try lia; auto.
    + apply effect_one_timer; cbn; auto.
Qed.

Lemma session_one_timer (evs : list event) : one_timer p (session p evs).
Proof.
  unfold session.
  assert (M : one_timer p (mount p)).
  { apply effect_one_timer; cbn; auto. lia. }
  revert M. generalize (mount p). induction evs as [|ev evs IH]; intros st J; cbn [fold_left].
  - exact J.
  - apply IH. now apply step_one_timer.
Qed.

(** [handleRestart] clears no timer, and has none to clear: whenever
    the button [Restart Scene] is rendered, no timer is pending, and
    the callbacks pending after the restart are those of a first
    render. *)
Lemma LiveChatMode_restart_finds_no_pending_timer (evs : list event) :
  let st := session p evs in
  isComplete_chat p st = true ->
  Timers.pending (timers st) = []
  /\ map Timers.run (Timers.pending (timers (step p st Restart)))
     = map Timers.run (Timers.pending (timers (mount p))).
Proof.
  intros st G. destruct (session_one_timer evs) as (B & N & W & C).
  fold st in B, N, W, C.
  unfold isComplete_chat in G. pose proof G as G'. apply Z.geb_le in G'.
  specialize (C G'). split; [exact C|].
  cbn [step]. unfold isComplete_chat. rewrite G.
  rewrite andb_false_r. cbn [negb andb]. unfold handleRestart.
  destruct (currentMessageIndex st =? 0) eqn:E.
  - cbn [timers]. rewrite C. apply Z.eqb_eq in E.
    unfold mount, effect.
    replace (currentMessageIndex blank <? Z.of_nat (List.length (messages p))) with false;
      [reflexivity|].
    symmetry. apply Z.ltb_ge. cbn. lia.
  - unfold mount, effect, currentMessage. cbn [currentMessageIndex blank].
    destruct (0 <? Z.of_nat (List.length (messages p))); [|cbn; now rewrite C].
    cbn [Z.ltb Z.compare Z.to_nat].
    destruct (nth_error (messages p) 0) as [m|]; [|cbn; now rewrite C].
    destruct (isUser p m); cbn [timers]; [now rewrite C|].
    rewrite !pending_setTimeout, C. reflexivity.
Qed.
End LiveChatModeFacts.

(** * Further properties *)

(** ** The forced-typing reducers on any key sequence *)

Lemma firstn_removelast_step {A} (l : list A) (n : nat) :
  (0 < n <= List.length l)%nat -> removelast (firstn n l) = firstn (n - 1) l.
Proof.
  intros H. destruct n as [|n]; [lia|].
  rewrite removelast_firstn by lia. f_equal. lia.
Qed.

Section PrefixA.
Import ForcedTypingA.
Variable scriptText : JS.jsstring.


Lemma A_prefix_step (st : state) (key : JS.jsstring) :
  Reveal.prefix_A scriptText st ->
  Reveal.prefix_A scriptText (fst (handleKeyDown scriptText st key))
  /\ forall t, snd (handleKeyDown scriptText st key) = Some t -> t = scriptText.
Proof.
  intros [B D]. unfold handleKeyDown.
  destruct (JS.eqb key JS.Backspace).
  - destruct (scriptIndex st >? 0) eqn:E; cbn [fst snd]; [|split; [now split|discriminate]].
    apply Z.gtb_lt in E. split; [|discriminate]. split; cbn [scriptIndex displayText]; [lia|].
    unfold JS.slice_0_m1. rewrite D, firstn_removelast_step.
    + f_equal. lia.
    + unfold JS.length in B. lia.
  - destruct (JS.eqb key JS.Enter).
    + destruct (scriptIndex st >=? JS.length scriptText) eqn:E; cbn [fst snd];
        (split; [now split|]); [|discriminate].
      apply Z.geb_le in E. intros t [= <-]. rewrite D.
      replace (scriptIndex st) with (JS.length scriptText) by lia.
      unfold JS.length. rewrite Nat2Z.id. apply firstn_all.
    + destruct (JS.length key =? 1); [|split; [now split|discriminate]].
      destruct (scriptIndex st <? JS.length scriptText) eqn:E; cbn [fst snd];
        [|split; [now split|discriminate]].
      apply Z.ltb_lt in E. split; [|discriminate].
      split; cbn [scriptIndex displayText]; [lia|].
      rewrite D. apply JS_append_indexed_firstn. lia.
Qed.

Lemma A_prefix_run (keys : list JS.jsstring) : forall st,
  Reveal.prefix_A scriptText st ->
  Reveal.prefix_A scriptText (fst (run scriptText st keys))
  /\ Forall (fun t => t = scriptText) (snd (run scriptText st keys)).
Proof.
  induction keys as [|k ks IH]; intros st H; cbn [run].
  - split; [exact H|constructor].
  - destruct (A_prefix_step st k H) as [H1 O1].
    destruct (handleKeyDown scriptText st k) as [st1 o1]. cbn [fst snd] in *.
    destruct (IH st1 H1) as [H2 O2].
    destruct (run scriptText st1 ks) as [st2 outs]. cbn [fst snd] in *.
    split; [exact H2|]. destruct o1 as [t|]; [|exact O2].
    constructor; [now apply O1|exact O2].
Qed.

Lemma A_prefix_from_init (keys : list JS.jsstring) :
  let st := fst (run scriptText init keys) in
  (0 <= scriptIndex st <= JS.length scriptText
   /\ displayText st = firstn (Z.to_nat (scriptIndex st)) scriptText)
  /\ Forall (fun t => t = scriptText) (snd (run scriptText init keys)).
Proof.
  apply A_prefix_run. split; [|reflexivity].
  cbn. pose proof (JS_length_nonneg scriptText). lia.
Qed.

(** A character key and then [Backspace]. *)
Lemma A_key_then_backspace (st : state) (key : JS.jsstring) :
  JS.length key = 1 -> 0 <= scriptIndex st < JS.length scriptText ->
  fst (handleKeyDown scriptText (fst (handleKeyDown scriptText st key)) JS.Backspace) = st.
Proof.
  intros K B. rewrite (A_printable scriptText st key K).
  destruct (scriptIndex st <? JS.length scriptText) eqn:E; [|apply Z.ltb_ge in E; lia].
  cbn [fst]. unfold handleKeyDown. rewrite JS_eqb_refl. cbn [scriptIndex displayText].
  replace (scriptIndex st + 1 >? 0) with true by (symmetry; apply Z.gtb_lt; lia).
  cbn [fst]. destruct (JS_index_in_range scriptText (scriptIndex st) B) as [u ->].
  cbn [JS.append_indexed]. unfold JS.slice_0_m1. rewrite removelast_last.
  destruct st as [d i]. cbn. f_equal. lia.
Qed.
End PrefixA.

Section PrefixB.
Import ForcedTypingB.
Variable scriptText : JS.jsstring.


Lemma B_prefix_init : Reveal.prefix_B scriptText init.
Proof.
  split; [|reflexivity]. cbn. pose proof (JS_length_nonneg scriptText). lia.
Qed.

Lemma B_prefix_length (st : state) :
  Reveal.prefix_B scriptText st -> JS.length (displayText st) = scriptIndex st.
Proof.
  intros [B D]. rewrite D. unfold JS.length in *. rewrite length_firstn. lia.
Qed.

Lemma B_prefix_step (st : state) (key : JS.jsstring) :
  Reveal.prefix_B scriptText st ->
  Reveal.prefix_B scriptText (fst (handleKeyDown scriptText st key))
  /\ forall t, snd (handleKeyDown scriptText st key) = Some t -> t = scriptText.
Proof.
  intros H. pose proof H as [B D]. pose proof (B_prefix_length st H) as L.
  destruct (B_key_cases key) as [M|[->|[->|(M & Bk & E)]]].
  - rewrite (B_classified scriptText st key M).
    destruct (scriptIndex st <? JS.length scriptText) eqn:E; cbn [fst snd];
      [|split; [exact H|discriminate]].
    apply Z.ltb_lt in E. split; [|discriminate].
    split; cbn [scriptIndex displayText]; [lia|].
    rewrite D. apply JS_append_indexed_firstn. lia.
  - rewrite B_backspace. rewrite L.
    destruct (scriptIndex st >? 0) eqn:E; cbn [fst snd]; [|split; [exact H|discriminate]].
    apply Z.gtb_lt in E. split; [|discriminate].
    split; cbn [scriptIndex displayText]; [lia|].
    unfold JS.slice_0_m1. rewrite D, firstn_removelast_step.
    + f_equal. lia.
    + unfold JS.length in B. lia.
  - rewrite B_enter.
    destruct (scriptIndex st >=? JS.length scriptText) eqn:E; cbn [fst snd].
    + split; [apply B_prefix_init|]. apply Z.geb_le in E. intros t [= <-]. rewrite D.
      replace (scriptIndex st) with (JS.length scriptText) by lia.
      unfold JS.length. rewrite Nat2Z.id. apply firstn_all.
    + split; [exact H|discriminate].
  - rewrite (B_unclassified scriptText st key M Bk E). split; [exact H|discriminate].
Qed.

Lemma B_prefix_run (keys : list JS.jsstring) : forall st,
  Reveal.prefix_B scriptText st ->
  Reveal.prefix_B scriptText (fst (run scriptText st keys))
  /\ Forall (fun t => t = scriptText) (snd (run scriptText st keys)).
Proof.
  induction keys as [|k ks IH]; intros st H; cbn [run].
  - split; [exact H|constructor].
  - destruct (B_prefix_step st k H) as [H1 O1].
    destruct (handleKeyDown scriptText st k) as [st1 o1]. cbn [fst snd] in *.
    destruct (IH st1 H1) as [H2 O2].
    destruct (run scriptText st1 ks) as [st2 outs]. cbn [fst snd] in *.
    split; [exact H2|]. destruct o1 as [t|]; [|exact O2].
    constructor; [now apply O1|exact O2].
Qed.

Lemma B_prefix_from_init (keys : list JS.jsstring) :
  let st := fst (run scriptText init keys) in
  (0 <= scriptIndex st <= JS.length scriptText
   /\ displayText st = firstn (Z.to_nat (scriptIndex st)) scriptText)
  /\ Forall (fun t => t = scriptText) (snd (run scriptText init keys)).
Proof. apply B_prefix_run, B_prefix_init. Qed.

Lemma B_key_then_backspace (st : state) (key : JS.jsstring) :
  key_matches key = true -> 0 <= scriptIndex st < JS.length scriptText ->
  fst (handleKeyDown scriptText (fst (handleKeyDown scriptText st key)) JS.Backspace) = st.
Proof.
  intros K B. rewrite (B_classified scriptText st key K).
  destruct (scriptIndex st <? JS.length scriptText) eqn:E; [|apply Z.ltb_ge in E; lia].
  cbn [fst]. rewrite B_backspace. cbn [scriptIndex displayText].
  destruct (JS_index_in_range scriptText (scriptIndex st) B) as [u ->].
  cbn [JS.append_indexed]. rewrite JS_length_app.
  replace (JS.length (displayText st) + JS.length [u] >? 0) with true.
  2:{ symmetry. apply Z.gtb_lt. pose proof (JS_length_nonneg (displayText st)).
      cbn. lia. }
  cbn [fst]. unfold JS.slice_0_m1. rewrite removelast_last.
  destruct st as [d i]. cbn in *. f_equal. lia.
Qed.

(** Keys of the class move the index by one each and hand nothing
    to [onComplete]. *)
Lemma B_run_classified (keys : list JS.jsstring) : forall st,
  Forall (fun k => key_matches k = true) keys ->
  scriptIndex st + Z.of_nat (List.length keys) <= JS.length scriptText ->
  scriptIndex (fst (run scriptText st keys)) = scriptIndex st + Z.of_nat (List.length keys)
  /\ snd (run scriptText st keys) = [].
Proof.
  induction keys as [|k ks IH]; intros st Hk Hlen.
  - simpl. split; [lia|reflexivity].
  - inversion Hk as [|? ? Hk1 Hks]; subst.
    cbn [run]. rewrite (B_classified scriptText st k Hk1).
    cbn [List.length] in Hlen.
    destruct (scriptIndex st <? JS.length scriptText) eqn:E;
      [|apply Z.ltb_ge in E; lia].
    match goal with
    | |- context [run scriptText ?s ks] => specialize (IH s Hks)
    end.
    cbn [scriptIndex] in IH.
    destruct (run scriptText _ ks) as [st2 outs].
    cbn [fst snd] in *. destruct IH as [IH1 IH2]; [lia|].
    split; [cbn [List.length]; lia|exact IH2].
Qed.

Lemma B_run_app (ks1 ks2 : list JS.jsstring) : forall st,
  run scriptText st (ks1 ++ ks2) =
    (fst (run scriptText (fst (run scriptText st ks1)) ks2),
     (snd (run scriptText st ks1)
        ++ snd (run scriptText (fst (run scriptText st ks1)) ks2))%list).
Proof.
  induction ks1 as [|k ks IH]; intros st.
  - simpl. now destruct (run scriptText st ks2).
  - cbn [run app]. destruct (handleKeyDown scriptText st k) as [s1 o1].
    rewrite (IH s1). destruct (run scriptText s1 ks) as [s2 o2].
    cbn [fst snd]. destruct o1; reflexivity.
Qed.

Lemma B_fidelity_from_init (keys : list JS.jsstring) :
  Forall (fun k => key_matches k = true) keys ->
  Z.of_nat (List.length keys) = JS.length scriptText ->
  run scriptText init (keys ++ [JS.Enter]) = (init, [scriptText]).
Proof.
  intros Hk Hlen. rewrite B_run_app.
  destruct (B_run_classified keys init Hk) as [Hi Ho]; [cbn; lia|].
  destruct (B_prefix_from_init keys) as [[Bd D] _]. cbv zeta in Bd, D.
  rewrite Ho. cbn [app run]. rewrite B_enter, Hi. cbn [scriptIndex init].
  rewrite Z.add_0_l, Hlen.
  replace (JS.length scriptText >=? JS.length scriptText) with true
    by (symmetry; apply Z.geb_le; lia).
  cbn [fst snd]. f_equal. f_equal. rewrite D, Hi. cbn [scriptIndex init].
  rewrite Z.add_0_l, Hlen. unfold JS.length. rewrite Nat2Z.id. apply firstn_all.
Qed.
End PrefixB.

Section PrefixInput.
Import ForcedTypingInput.
Variable textToType : JS.jsstring.


Lemma I_prefix_step (st : state) (key : JS.jsstring) :
  Reveal.prefix_I textToType st ->
  Reveal.prefix_I textToType (fst (handleKeyDown textToType st key))
  /\ forall t, snd (handleKeyDown textToType st key) = Some t -> t = textToType.
Proof.
  intros [B D]. unfold handleKeyDown.
  destruct (JS.eqb key JS.Backspace).
  - destruct (index st >? 0) eqn:E; cbn [fst snd]; [|split; [now split|discriminate]].
    apply Z.gtb_lt in E. split; [|discriminate]. split; cbn [index value]; [lia|reflexivity].
  - destruct (JS.eqb key JS.Enter).
    + destruct (index st =? JS.length textToType) eqn:E; cbn [fst snd].
      * split; [|now intros t [= <-]]. split; [|reflexivity].
        cbn. pose proof (JS_length_nonneg textToType). lia.
      * split; [now split|discriminate].
    + destruct ((JS.length key =? 1) && (index st <? JS.length textToType)) eqn:E;
        cbn [fst snd]; [|split; [now split|discriminate]].
      apply andb_true_iff in E as [_ E]. apply Z.ltb_lt in E.
      split; [|discriminate]. split; cbn [index value]; [lia|reflexivity].
Qed.

Lemma I_prefix_run (keys : list JS.jsstring) : forall st,
  Reveal.prefix_I textToType st ->
  Reveal.prefix_I textToType (fst (run textToType st keys))
  /\ Forall (fun t => t = textToType) (snd (run textToType st keys)).
Proof.
  induction keys as [|k ks IH]; intros st H; cbn [run].
  - split; [exact H|constructor].
  - destruct (I_prefix_step st k H) as [H1 O1].
    destruct (handleKeyDown textToType st k) as [st1 o1]. cbn [fst snd] in *.
    destruct (IH st1 H1) as [H2 O2].
    destruct (run textToType st1 ks) as [st2 outs]. cbn [fst snd] in *.
    split; [exact H2|]. destruct o1 as [t|]; [|exact O2].
    constructor; [now apply O1|exact O2].
Qed.

Lemma I_prefix_from_init (keys : list JS.jsstring) :
  let st := fst (run textToType init keys) in
  (0 <= index st <= JS.length textToType
   /\ value st = firstn (Z.to_nat (index st)) textToType)
  /\ Forall (fun t => t = textToType) (snd (run textToType init keys)).
Proof.
  apply I_prefix_run. split; [|reflexivity].
  cbn. pose proof (JS_length_nonneg textToType). lia.
Qed.

Lemma I_key_then_backspace (keys : list JS.jsstring) (key : JS.jsstring) :
  let st := fst (run textToType init keys) in
  JS.length key = 1 -> index st < JS.length textToType ->
  fst (handleKeyDown textToType (fst (handleKeyDown textToType st key)) JS.Backspace) = st.
Proof.
  intros st K B. destruct (I_prefix_from_init keys) as [[Bd D] _]. fold st in Bd, D.
  rewrite (I_printable textToType st key K).
  apply Z.ltb_lt in B as B'. rewrite B'. cbn [fst]. unfold handleKeyDown.
  rewrite JS_eqb_refl. cbn [index value].
  replace (index st + 1 >? 0) with true by (symmetry; apply Z.gtb_lt; lia).
  cbn [fst]. destruct st as [v i]. cbn in *. rewrite D. unfold JS.substring_0.
  f_equal; [f_equal|]; lia.
Qed.

Lemma I_fidelity_state (keys : list JS.jsstring) :
  Forall (fun k => JS.length k = 1) keys ->
  Z.of_nat (List.length keys) = JS.length textToType ->
  run textToType init (keys ++ [JS.Enter]) = (init, [textToType]).
Proof.
  intros Hk Hlen. rewrite I_run_app.
  destruct (I_run_printable textToType keys init Hk) as [Hi Ho].
  { cbn [index init]. lia. }
  rewrite Ho. cbn [app run]. unfold handleKeyDown at 1 2.
  replace (JS.eqb JS.Enter JS.Backspace) with false by reflexivity.
  rewrite JS_eqb_refl, Hi. cbn [index init].
  rewrite Z.add_0_l, Hlen, Z.eqb_refl. reflexivity.
Qed.
End PrefixInput.

(** X1.  Whatever keys are pressed from the initial state, each of
    the three forced-typing reducers shows exactly the first
    [scriptIndex] characters of its script, with the index between 0
    and the length of the script. *)
Theorem X1_display_is_always_a_prefix_of_the_script :
  (forall scriptText keys,
      Reveal.prefix_A scriptText (fst (ForcedTypingA.run scriptText ForcedTypingA.init keys)))
  /\ (forall scriptText keys,
         Reveal.prefix_B scriptText (fst (ForcedTypingB.run scriptText ForcedTypingB.init keys)))
  /\ (forall textToType keys,
         Reveal.prefix_I textToType
           (fst (ForcedTypingInput.run textToType ForcedTypingInput.init keys))).
Proof.
  split; [|split]; intros text keys.
  - exact (proj1 (A_prefix_from_init text keys)).
  - exact (proj1 (B_prefix_from_init text keys)).
  - exact (proj1 (I_prefix_from_init text keys)).
Qed.

(** X2.  Whatever keys are pressed from the initial state, every text
    a reducer hands to its completion callback is the script itself:
    a partly revealed or foreign text is never submitted. *)
Theorem X2_only_the_script_is_ever_submitted :
  (forall scriptText keys,
      Forall (fun t => t = scriptText)
        (snd (ForcedTypingA.run scriptText ForcedTypingA.init keys)))
  /\ (forall scriptText keys,
         Forall (fun t => t = scriptText)
           (snd (ForcedTypingB.run scriptText ForcedTypingB.init keys)))
  /\ (forall textToType keys,
         Forall (fun t => t = textToType)
           (snd (ForcedTypingInput.run textToType ForcedTypingInput.init keys))).
Proof.
  split; [|split]; intros text keys.
  - exact (proj2 (A_prefix_from_init text keys)).
  - exact (proj2 (B_prefix_from_init text keys)).
  - exact (proj2 (I_prefix_from_init text keys)).
Qed.

(** X3.  From the initial state, as many character keys as the script
    is long, followed by [Enter], submit the script exactly once; the
    reducers of the second file and of part_001 are back in their
    initial state afterwards.  (A character key is a key of one code
    unit, for the second file a key of its class.) *)
Theorem X3_typing_the_whole_line_submits_it_once :
  (forall scriptText keys,
      Forall (fun k => JS.length k = 1) keys ->
      Z.of_nat (List.length keys) = JS.length scriptText ->
      snd (ForcedTypingA.run scriptText ForcedTypingA.init (keys ++ [JS.Enter]))
      = [scriptText])
  /\ (forall scriptText keys,
         Forall (fun k => ForcedTypingB.key_matches k = true) keys ->
         Z.of_nat (List.length keys) = JS.length scriptText ->
         ForcedTypingB.run scriptText ForcedTypingB.init (keys ++ [JS.Enter])
         = (ForcedTypingB.init, [scriptText]))
  /\ (forall textToType keys,
         Forall (fun k => JS.length k = 1) keys ->
         Z.of_nat (List.length keys) = JS.length textToType ->
         ForcedTypingInput.run textToType ForcedTypingInput.init (keys ++ [JS.Enter])
         = (ForcedTypingInput.init, [textToType])).
Proof.
  split; [|split].
  - exact A_fidelity_from_init.
  - exact B_fidelity_from_init.
  - exact I_fidelity_state.
Qed.

(** The keys "o", "k" and [Enter] on the script "ok". *)
Lemma X3_typing_the_whole_line_witness :
  let keys := [JS.lit "o"; JS.lit "k"] in
  (Forall (fun k => JS.length k = 1) keys
   /\ Z.of_nat (List.length keys) = JS.length (JS.lit "ok")
   /\ snd (ForcedTypingA.run (JS.lit "ok") ForcedTypingA.init (keys ++ [JS.Enter]))
      = [JS.lit "ok"])
  /\ (Forall (fun k => ForcedTypingB.key_matches k = true) keys
      /\ ForcedTypingB.run (JS.lit "ok") ForcedTypingB.init (keys ++ [JS.Enter])
         = (ForcedTypingB.init, [JS.lit "ok"]))
  /\ ForcedTypingInput.run (JS.lit "ok") ForcedTypingInput.init (keys ++ [JS.Enter])
     = (ForcedTypingInput.init, [JS.lit "ok"]).
Proof.
  intros keys.
  destruct X3_typing_the_whole_line_submits_it_once as (HA & HB & HI).
  assert (K1 : Forall (fun k => JS.length k = 1) keys)
    by (repeat constructor).
  assert (K2 : Forall (fun k => ForcedTypingB.key_matches k = true) keys)
    by (repeat constructor).
  split; [|split].
  - split; [exact K1|]. split; [reflexivity|].
    exact (HA (JS.lit "ok") keys K1 eq_refl).
  - split; [exact K2|]. exact (HB (JS.lit "ok") keys K2 eq_refl).
  - exact (HI (JS.lit "ok") keys K1 eq_refl).
Defined.

(** X4.  [Backspace] undoes the character key before it: below the
    full length, a character key followed by [Backspace] leaves the
    state as it was (for part_001's input, in the states its keys can
    reach). *)
Theorem X4_backspace_undoes_a_character_key :
  (forall scriptText st key,
      JS.length key = 1 ->
      0 <= ForcedTypingA.scriptIndex st < JS.length scriptText ->
      fst (ForcedTypingA.handleKeyDown scriptText
             (fst (ForcedTypingA.handleKeyDown scriptText st key)) JS.Backspace) = st)
  /\ (forall scriptText st key,
         ForcedTypingB.key_matches key = true ->
         0 <= ForcedTypingB.scriptIndex st < JS.length scriptText ->
         fst (ForcedTypingB.handleKeyDown scriptText
                (fst (ForcedTypingB.handleKeyDown scriptText st key)) JS.Backspace) = st)
  /\ (forall textToType keys key,
         let st := fst (ForcedTypingInput.run textToType ForcedTypingInput.init keys) in
         JS.length key = 1 ->
         ForcedTypingInput.index st < JS.length textToType ->
         fst (ForcedTypingInput.handleKeyDown textToType
                (fst (ForcedTypingInput.handleKeyDown textToType st key)) JS.Backspace) = st).
Proof.
  split; [|split].
  - exact A_key_then_backspace.
  - exact B_key_then_backspace.
  - exact I_key_then_backspace.
Qed.

(** After "h" on the script "hi": the key "x", then [Backspace]. *)
Lemma X4_backspace_undoes_witness :
  let a := {| ForcedTypingA.displayText := JS.lit "h"; ForcedTypingA.scriptIndex := 1 |} in
  let b := {| ForcedTypingB.displayText := JS.lit "h"; ForcedTypingB.scriptIndex := 1 |} in
  (JS.length (JS.lit "x") = 1
   /\ 0 <= ForcedTypingA.scriptIndex a < JS.length (JS.lit "hi")
   /\ fst (ForcedTypingA.handleKeyDown (JS.lit "hi")
             (fst (ForcedTypingA.handleKeyDown (JS.lit "hi") a (JS.lit "x"))) JS.Backspace)
      = a)
  /\ (ForcedTypingB.key_matches (JS.lit "x") = true
      /\ fst (ForcedTypingB.handleKeyDown (JS.lit "hi")
                (fst (ForcedTypingB.handleKeyDown (JS.lit "hi") b (JS.lit "x"))) JS.Backspace)
         = b)
  /\ (ForcedTypingInput.index
        (fst (ForcedTypingInput.run (JS.lit "hi") ForcedTypingInput.init [JS.lit "q"]))
      < JS.length (JS.lit "hi")
      /\ fst (ForcedTypingInput.handleKeyDown (JS.lit "hi")
                (fst (ForcedTypingInput.handleKeyDown (JS.lit "hi")
                        (fst (ForcedTypingInput.run (JS.lit "hi") ForcedTypingInput.init
                                [JS.lit "q"]))
                        (JS.lit "x"))) JS.Backspace)
         = fst (ForcedTypingInput.run (JS.lit "hi") ForcedTypingInput.init [JS.lit "q"])).
Proof.
  intros a b.
  destruct X4_backspace_undoes_a_character_key as (HA & HB & HI).
  assert (R : 0 <= 1 < 2) by lia.
  split; [|split].
  - split; [reflexivity|]. split; [exact R|].
    exact (HA (JS.lit "hi") a (JS.lit "x") eq_refl R).
  - split; [reflexivity|].
    exact (HB (JS.lit "hi") b (JS.lit "x") eq_refl R).
  - split; [reflexivity|].
    exact (HI (JS.lit "hi") [JS.lit "q"] (JS.lit "x") eq_refl eq_refl).
Defined.

(** ** [LiveChat] on a script without actor lines *)

Section LiveChatPlayback.
Import LiveChat LiveChatShapes.
Variable script : list Message.
Hypothesis contacts : contact_only script = true.

Lemma contact_only_turn (st : state) : isActorTurn script st = false.
Proof.
  unfold isActorTurn. destruct (activeMessage script st) as [m|] eqn:M; [|reflexivity].
  destruct (activeMessage_nth script st m M) as [_ N].
  apply nth_error_In in N. unfold contact_only in contacts.
  rewrite forallb_forall in contacts. specialize (contacts m N).
  now apply negb_true_iff in contacts.
Qed.

(** The render after a delivery, at index [i]. *)
Lemma rerender_at_line (st : state) (i : nat) :
  scriptIndex st = Z.of_nat i -> (i <= List.length script)%nat ->
  delivered_ids st = map id (firstn i script) ->
  Timers.pending (timers st) = [] -> isTyping st = false ->
  at_line script (rerender script st) i.
Proof.
  intros I L D P Ty. unfold rerender, render. rewrite contact_only_turn.
  unfold processNextMessage.
  replace (isActorTurn script (with_input st None)) with false
    by (symmetry; apply contact_only_turn).
  rewrite orb_false_r. cbn [with_input scriptIndex]. unfold at_line.
  destruct (nth_error script i) as [m|] eqn:N.
  - assert (Lt : (i < List.length script)%nat) by (apply nth_error_Some; congruence).
    replace (scriptIndex st >=? Z.of_nat (List.length script)) with false.
    2:{ symmetry. rewrite Z.geb_leb. apply Z.leb_gt. lia. }
    unfold activeMessage. cbn [with_input scriptIndex]. rewrite I.
    replace (Z.of_nat i <? 0) with false by (symmetry; apply Z.ltb_ge; lia).
    rewrite Nat2Z.id, N. cbn [with_timers scriptIndex input timers].
    split; [exact I|]. split; [reflexivity|]. split; [exact Ty|]. split; [exact D|].
    rewrite pending_setTimeout. cbn [with_input timers]. rewrite P.
    eexists. split; reflexivity.
  - apply nth_error_None in N.
    replace (scriptIndex st >=? Z.of_nat (List.length script)) with true.
    2:{ symmetry. apply Z.geb_le. lia. }
    cbn. repeat split; assumption.
Qed.

Lemma mount_at_line : at_line script (mount script) 0.
Proof. apply rerender_at_line; cbn; try reflexivity. lia. Qed.

(** Both timers of the line at the cursor fire. *)
Lemma two_fires_at_line (st : state) (i : nat) :
  at_line script st i -> (i < List.length script)%nat ->
  let r := step (step (script, st) Fire) Fire in
  fst r = script /\ at_line script (snd r) (S i).
Proof.
  intros (I & In & Ty & D & T) L r. subst r.
  destruct (nth_error script i) as [m|] eqn:N; [|apply nth_error_None in N; lia].
  destruct T as (x & P & R).
  cbn [step]. rewrite (fire_single _ _ P), R.
  set (st1 := run_callback (startTyping m (typingSpeedMs m)) _).
  assert (P1 : exists y, Timers.pending (timers st1) = [y] /\ Timers.run y = deliver m).
  { subst st1. cbn. eexists. split; reflexivity. }
  destruct P1 as (y & P1 & R1).
  cbn [step]. rewrite (fire_single _ _ P1), R1. cbn [fst snd].
  split; [reflexivity|].
  apply rerender_at_line.
  - subst st1. cbn. lia.
  - lia.
  - unfold delivered_ids in *. subst st1.
    cbn [run_callback with_timers displayedMessages].
    rewrite map_app, D. cbn [map line].
    rewrite <- (firstn_snoc_nth _ _ _ N), map_app. reflexivity.
  - reflexivity.
  - reflexivity.
Qed.

Lemma fires_play_the_rest (k : nat) : forall st i,
  at_line script st i -> (i + k = List.length script)%nat ->
  let r := fold_left step (repeat Fire (2 * k)) (script, st) in
  fst r = script /\ at_line script (snd r) (List.length script).
Proof.
  induction k as [|k IH]; intros st i A E r; subst r.
  - cbn. replace (List.length script) with i by lia. auto.
  - replace (2 * S k)%nat with (S (S (2 * k))) by lia. cbn [repeat fold_left].
    destruct (two_fires_at_line st i A ltac:(lia)) as [F A2].
    destruct (step (step (script, st) Fire) Fire) as [sc st2]. cbn [fst snd] in *.
    subst sc. apply (IH st2 (S i) A2). lia.
Qed.

(** A script of contacts' lines only plays to its end by itself. *)
Lemma LiveChat_plays_a_contact_script :
  let st := session script (repeat Fire (2 * List.length script)) in
  delivered_ids st = map id script
  /\ scriptIndex st = Z.of_nat (List.length script)
  /\ Timers.pending (timers st) = []
  /\ isTyping st = false.
Proof.
  intros st. subst st. unfold session, steps.
  destruct (fires_play_the_rest (List.length script) (mount script) 0 mount_at_line eq_refl)
    as [_ A].
  set (r := fold_left step _ _) in *.
  destruct A as (I & _ & Ty & D & T).
  rewrite firstn_all in D.
  replace (nth_error script (List.length script)) with (@None Message) in T
    by (symmetry; apply nth_error_None; lia).
  repeat split; assumption.
Qed.
End LiveChatPlayback.

Section LiveChatVerbatim.
Import LiveChat LiveChatShapes.


Lemma fires_same_script (k : nat) : forallb same_script (repeat Fire k) = true.
Proof. induction k as [|k IH]; [reflexivity|exact IH]. Qed.


Lemma LiveChat_plays_a_contact_script_verbatim (script : list Message) :
  contact_only script = true ->
  let st := session script (repeat Fire (2 * List.length script)) in
  lines st = script
  /\ scriptIndex st = Z.of_nat (List.length script)
  /\ Timers.pending (timers st) = []
  /\ isTyping st = false.
Proof.
  intros C st. destruct (LiveChat_plays_a_contact_script script C) as (_ & I & P & T).
  fold st in I, P, T. split; [|auto].
  destruct (session_lines_clock script (repeat Fire (2 * List.length script))
              (fires_same_script _)) as (_ & V & _).
  fold st in V. unfold verbatim in V. rewrite I, Nat2Z.id, firstn_all in V.
  now apply verbatim_contacts.
Qed.
End LiveChatVerbatim.



(** X6.  In [LiveChat] with an unchanged script, no timer is pending
    while it is the actor's turn: the passage of time neither delivers
    the actor's line nor anything after it. *)
Theorem X6_LiveChat_waits_for_the_actor :
  forall script evs,
    forallb LiveChat.same_script evs = true ->
    let st := LiveChat.session script evs in
    LiveChat.isActorTurn script st = true ->
    Timers.pending (LiveChat.timers st) = []
    /\ LiveChat.step (script, st) LiveChat.Fire = (script, st).
Proof.
  intros script evs F st A.
  exact (LiveChat_actor_turn_has_no_timer script evs F A).
Qed.

(** An actor's line first; one key has been pressed. *)
Lemma X6_LiveChat_waits_witness :
  let b := {| LiveChat.id := "1"; LiveChat.participantId := "you";
              LiveChat.text := JS.lit "ok";
              LiveChat.startDelay := LiveChat.seconds 1;
              LiveChat.typingDelay := LiveChat.natural |} in
  let evs := [LiveChat.Key (JS.lit "x")] in
  forallb LiveChat.same_script evs = true
  /\ LiveChat.isActorTurn [b] (LiveChat.session [b] evs) = true
  /\ LiveChat.step ([b], LiveChat.session [b] evs) LiveChat.Fire
     = ([b], LiveChat.session [b] evs).
Proof.
  intros b evs. split; [reflexivity|]. split; [reflexivity|].
  exact (proj2 (X6_LiveChat_waits_for_the_actor [b] evs eq_refl eq_refl)).
Defined.

(** X7.  A script in which no line belongs to the actor plays to its
    end by itself in [LiveChat]: when two timers per line have fired,
    the lines on screen are the lines of the script, each as the
    script has it and in order, nothing is pending and the typing
    indicator is off. *)
Theorem X7_LiveChat_plays_a_script_of_contact_lines :
  forall script,
    LiveChatShapes.contact_only script = true ->
    let st := LiveChat.session script (repeat LiveChat.Fire (2 * List.length script)) in
    LiveChatShapes.lines st = script
    /\ LiveChat.scriptIndex st = Z.of_nat (List.length script)
    /\ Timers.pending (LiveChat.timers st) = []
    /\ LiveChat.isTyping st = false.
Proof.
  intros script C. exact (LiveChat_plays_a_contact_script_verbatim script C).
Qed.

(** Two lines of a contact. *)
Lemma X7_LiveChat_plays_witness :
  let a := {| LiveChat.id := "1"; LiveChat.participantId := "c";
              LiveChat.text := JS.lit "a";
              LiveChat.startDelay := LiveChat.seconds 1;
              LiveChat.typingDelay := LiveChat.natural |} in
  let b := {| LiveChat.id := "2"; LiveChat.participantId := "c";
              LiveChat.text := JS.lit "b";
              LiveChat.startDelay := LiveChat.natural;
              LiveChat.typingDelay := LiveChat.seconds 2 |} in
  LiveChatShapes.contact_only [a; b] = true
  /\ LiveChatShapes.lines
       (LiveChat.session [a; b] (repeat LiveChat.Fire (2 * List.length [a; b])))
     = [a; b].
Proof.
  intros a b. split; [reflexivity|].
  exact (proj1 (X7_LiveChat_plays_a_script_of_contact_lines [a; b] eq_refl)).
Defined.

(** ** [LiveScreen]: the order in which the timers fire *)

Section FiringOrder.
Import LiveScreen LiveScreenShapes.

Lemma sorted_snoc {A} (R : A -> A -> Prop) (l : list A) (y : A) :
  StronglySorted R l -> Forall (fun x => R x y) l -> StronglySorted R (l ++ [y]).
Proof.
  induction 1 as [|x l S IH F]; intros H; cbn.
  - repeat constructor.
  - inversion H as [|? ? Hx Hl]; subst. constructor.
    + now apply IH.
    + apply Forall_app. split; [exact F|]. now constructor.
Qed.

(** The first of a sorted list is the timer that fires. *)
Lemma earliest_sorted {callback} (x : Timers.timer callback) l :
  Forall (fun y => (Timers.due x <= Timers.due y)%Q) l ->
  Timers.earliest (x :: l) = Some x.
Proof.
  intros F. cbn. destruct (Timers.earliest l) as [y|] eqn:E; [|reflexivity].
  apply earliest_In in E. rewrite Forall_forall in F. specialize (F y E).
  apply Qle_bool_iff in F. now rewrite F.
Qed.

Lemma filter_other_handles {callback} (x : Timers.timer callback) l :
  ~ In (Timers.handle x) (map (@Timers.handle callback) l) ->
  filter (fun y => negb (Nat.eqb (Timers.handle y) (Timers.handle x))) l = l.
Proof.
  induction l as [|y l IH]; intros H; cbn; [reflexivity|].
  destruct (Nat.eqb (Timers.handle y) (Timers.handle x)) eqn:E.
  - apply Nat.eqb_eq in E. exfalso. apply H. left. exact E.
  - cbn. f_equal. apply IH. intros I. apply H. now right.
Qed.

Lemma fire_head (st : state) x l :
  Timers.pending (timers st) = x :: l -> in_firing_order (timers st) ->
  Timers.pending (timers (fire st)) = l
  /\ in_firing_order (timers (fire st))
  /\ shown_lines (fire st) = (shown_lines st ++ callback_lines [Timers.run x])%list.
Proof.
  intros P [S N]. rewrite P in S, N. inversion S as [|? ? S' F]; subst.
  cbn [map] in N. inversion N as [|? ? Nx N']; subst.
  unfold fire, Timers.fire. rewrite P, (earliest_sorted x l F).
  cbn [filter]. rewrite Nat.eqb_refl. cbn [negb].
  rewrite (filter_other_handles x l Nx).
  unfold in_firing_order, shown_lines.
  destruct (Timers.run x) as [|m]; cbn; rewrite ?app_nil_r, ?map_app; auto.
Qed.

Lemma fire_all (l : list (Timers.timer Callback)) : forall conversation s st,
  Timers.pending (timers st) = l -> in_firing_order (timers st) ->
  let st' := steps conversation s st (repeat Fire (List.length l)) in
  Timers.pending (timers st') = []
  /\ shown_lines st' = (shown_lines st ++ callback_lines (map Timers.run l))%list.
Proof.
  induction l as [|x l IH]; intros conversation s st P O st'; subst st'.
  - cbn. rewrite app_nil_r. auto.
  - cbn [List.length repeat steps fold_left step].
    destruct (fire_head st x l P O) as (P1 & O1 & D1).
    destruct (IH conversation s (fire st) P1 O1) as [P2 D2].
    unfold steps in P2, D2. split; [exact P2|].
    rewrite D2, D1, <- app_assoc. f_equal.
    cbn [map callback_lines flat_map]. now rewrite app_nil_r.
Qed.

Lemma callback_lines_script (conversation : list Message) :
  callback_lines (script_callbacks conversation) = conversation.
Proof.
  unfold callback_lines, script_callbacks.
  induction conversation as [|m l IH]; [reflexivity|].
  cbn [flat_map map]. rewrite flat_map_app, IH.
  destruct (isMe m); reflexivity.
Qed.

Section Pass.
Variable random : nat -> Q.
Variable s : Settings.
Hypothesis random_pos : forall n, (0 <= random n)%Q.

Lemma setTimeout_ok (cb : Callback) (d c : Q) (t : Timers.table Callback) :
  (0 <= d)%Q -> (d <= c)%Q -> (c <= Timers.max_delay)%Q ->
  in_firing_order t ->
  Forall (fun x => (Timers.due x <= Timers.now t + d)%Q) (Timers.pending t) ->
  Forall (fun x => (Timers.handle x < Timers.next t)%nat) (Timers.pending t) ->
  let t' := snd (Timers.setTimeout cb d t) in
  in_firing_order t'
  /\ Forall (fun x => (Timers.due x <= Timers.now t' + c)%Q) (Timers.pending t')
  /\ Forall (fun x => (Timers.handle x < Timers.next t')%nat) (Timers.pending t')
  /\ Timers.now t' = Timers.now t.
Proof.
  intros D C X [S N] F H t'. subst t'. unfold Timers.setTimeout.
  apply Qle_bool_iff in D as Db. rewrite Db.
  assert (Xb : Qle_bool d Timers.max_delay = true).
  { apply Qle_bool_iff. eapply Qle_trans; eauto. }
  rewrite Xb. cbn [andb]. unfold in_firing_order.
  cbn [snd Timers.pending Timers.next Timers.now].
  split; [split|split; [|split]].
  - apply sorted_snoc; [exact S|]. cbn [Timers.due]. exact F.
  - rewrite map_app. cbn [map Timers.handle]. apply NoDup_app; [exact N|repeat constructor; auto|].
    intros h Hh [E|[]]. subst h. apply in_map_iff in Hh as (x & E & I).
    rewrite Forall_forall in H. specialize (H x I). lia.
  - apply Forall_app. split.
    + eapply Forall_impl; [|exact F]. cbn. intros x Hx. lra.
    + constructor; [cbn; lra|constructor].
  - apply Forall_app. split.
    + eapply Forall_impl; [|exact H]. cbn. intros x Hx. lia.
    + constructor; [cbn; lia|constructor].
  - reflexivity.
Qed.

Lemma length_nonneg_Q (t : JS.jsstring) : (0 <= inject_Z (JS.length t * 50))%Q.
Proof.
  pose proof (JS_length_nonneg t). unfold Qle. cbn. lia.
Qed.

Lemma schedule_one_grows (a : pass) (m : Message) :
  (0 <= delay m)%Q ->
  (cumulativeDelay a <= cumulativeDelay (schedule_one random s a m))%Q.
Proof.
  intros Dm. pose proof (length_nonneg_Q (text m)) as Lq.
  pose proof (random_pos (draws a)) as R0.
  pose proof (random_pos (S (draws a))) as R1.
  unfold schedule_one.
  destruct (timingMode s); destruct (isMe m); cbn; lra.
Qed.

Lemma schedule_all_grows (conversation : list Message) : forall a,
  Forall (fun m => (0 <= delay m)%Q) conversation ->
  (cumulativeDelay a
   <= cumulativeDelay (fold_left (schedule_one random s) conversation a))%Q.
Proof.
  induction conversation as [|m l IH]; intros a D; cbn [fold_left]; [lra|].
  inversion D as [|? ? Dm Dl]; subst.
  eapply Qle_trans; [apply (schedule_one_grows a m Dm)|]. now apply IH.
Qed.

Lemma schedule_one_ok (a : pass) (m : Message) :
  (0 <= delay m)%Q ->
  (cumulativeDelay (schedule_one random s a m) <= Timers.max_delay)%Q ->
  pass_ok a -> pass_ok (schedule_one random s a m).
Proof.
  intros Dm X (C & O & F & H). pose proof (length_nonneg_Q (text m)) as Lq.
  pose proof (random_pos (draws a)) as R0.
  pose proof (random_pos (S (draws a))) as R1.
  unfold schedule_one in *.
  destruct (timingMode s); destruct (isMe m); cbn [negb] in *.
  - (* natural, the actor's line *)
    cbn in X.
    destruct (setTimeout_ok (messageTimeout m) (cumulativeDelay a)
                (cumulativeDelay a + (inject_Z (JS.length (text m) * 50)
                                      + random (draws a) * 500))
                (p_timers a) C ltac:(lra) X O F H) as (O1 & F1 & H1 & N1).
    unfold pass_ok, in_firing_order, Timers.setTimeout in *. cbn in *. intuition lra.
  - (* natural, a contact's line *)
    cbn in X.
    destruct (setTimeout_ok typingTimeout (cumulativeDelay a)
                (cumulativeDelay a + (1000 + random (S (draws a)) * 1000))
                (p_timers a) C ltac:(lra) ltac:(lra) O F H) as (O1 & F1 & H1 & N1).
    set (t1 := snd (Timers.setTimeout typingTimeout (cumulativeDelay a) (p_timers a))) in *.
    destruct (setTimeout_ok (messageTimeout m)
                (cumulativeDelay a + (1000 + random (S (draws a)) * 1000))
                (cumulativeDelay a + (1000 + random (S (draws a)) * 1000)
                 + (inject_Z (JS.length (text m) * 50) + random (draws a) * 500))
                t1 ltac:(lra) ltac:(lra) X O1 F1 H1) as (O2 & F2 & H2 & N2).
    subst t1.
    unfold pass_ok, in_firing_order, Timers.setTimeout in *. cbn in *. intuition lra.
  - (* manual, the actor's line *)
    cbn in X.
    destruct (setTimeout_ok (messageTimeout m) (cumulativeDelay a)
                (cumulativeDelay a + delay m * 1000)
                (p_timers a) C ltac:(lra) X O F H) as (O1 & F1 & H1 & N1).
    unfold pass_ok, in_firing_order, Timers.setTimeout in *. cbn in *. intuition lra.
  - (* manual, a contact's line *)
    cbn in X.
    destruct (setTimeout_ok typingTimeout (cumulativeDelay a)
                (cumulativeDelay a + (1000 + random (draws a) * 1000))
                (p_timers a) C ltac:(lra) ltac:(lra) O F H) as (O1 & F1 & H1 & N1).
    set (t1 := snd (Timers.setTimeout typingTimeout (cumulativeDelay a) (p_timers a))) in *.
    destruct (setTimeout_ok (messageTimeout m)
                (cumulativeDelay a + (1000 + random (draws a) * 1000))
                (cumulativeDelay a + (1000 + random (draws a) * 1000) + delay m * 1000)
                t1 ltac:(lra) ltac:(lra) X O1 F1 H1) as (O2 & F2 & H2 & N2).
    subst t1.
    unfold pass_ok, in_firing_order, Timers.setTimeout in *. cbn in *. intuition lra.
Qed.

Lemma schedule_all_ok (conversation : list Message) : forall a,
  Forall (fun m => (0 <= delay m)%Q) conversation ->
  (cumulativeDelay (fold_left (schedule_one random s) conversation a)
   <= Timers.max_delay)%Q ->
  pass_ok a ->
  pass_ok (fold_left (schedule_one random s) conversation a).
Proof.
  induction conversation as [|m l IH]; intros a D X A; cbn [fold_left] in *; [exact A|].
  inversion D as [|? ? Dm Dl]; subst. apply IH; [exact Dl|exact X|].
  apply schedule_one_ok; [exact Dm| |exact A].
  eapply Qle_trans; [apply (schedule_all_grows l _ Dl)|exact X].
Qed.
End Pass.
End FiringOrder.

Section FiringOrderMount.
Import LiveScreen LiveScreenShapes.

Lemma render_keeps (conversation : list Message) (s : Settings) (st : state) :
  timers (render conversation s st) = timers st
  /\ messages (render conversation s st) = messages st.
Proof.
  unfold render. destruct (writingMode s); [|auto].
  destruct (find_next conversation _); [|auto]. destruct (input st); auto.
Qed.

Lemma mount_in_firing_order random conversation s :
  delays_not_negative random conversation s ->
  (schedule_length random conversation s <= Timers.max_delay)%Q ->
  in_firing_order (timers (mount random conversation s)).
Proof.
  intros (I & D & R) X. unfold mount.
  rewrite (proj1 (render_keeps conversation s _)). unfold effect. cbn [timers].
  apply (schedule_all_ok random s R conversation); [exact D|exact X|].
  unfold pass_ok, in_firing_order. cbn. repeat split; try constructor. lra.
Qed.

(** When every timer set by the first pass has fired, the lines on
    screen are the script. *)
Lemma LiveScreen_timers_deliver_the_script random conversation s :
  delays_not_negative random conversation s ->
  (schedule_length random conversation s <= Timers.max_delay)%Q ->
  let st := steps conversation s (mount random conversation s)
              (repeat Fire (List.length (script_callbacks conversation))) in
  shown_lines st = conversation
  /\ Timers.pending (timers st) = [].
Proof.
  intros H X st. subst st.
  pose proof (mount_in_firing_order random conversation s H X) as O.
  destruct (LiveScreen_schedules_every_line random conversation s) as [C _].
  assert (L : List.length (script_callbacks conversation)
              = List.length (Timers.pending (timers (mount random conversation s)))).
  { rewrite <- C. now rewrite length_map. }
  rewrite L.
  destruct (fire_all _ conversation s (mount random conversation s) eq_refl O) as [P D].
  split; [|exact P]. rewrite D, C, callback_lines_script.
  unfold shown_lines, mount. rewrite (proj2 (render_keeps conversation s _)).
  reflexivity.
Qed.
End FiringOrderMount.

(** X8.  In [LiveScreen], when no delay of the script or of the
    settings is negative and the whole schedule is no longer than
    the 2147483647 ms that a timer can hold, the timers set by the
    first pass fire in the order of the script: once all of them
    have fired and no key was pressed, the lines on screen are the
    lines of the script, each once, as the script has it and in
    order, and no timer is left. *)
Theorem X8_LiveScreen_timers_deliver_the_script_in_order :
  forall random conversation s,
    LiveScreenShapes.delays_not_negative random conversation s ->
    (LiveScreenShapes.schedule_length random conversation s <= Timers.max_delay)%Q ->
    let st := LiveScreen.steps conversation s (LiveScreen.mount random conversation s)
                (repeat LiveScreen.Fire
                   (List.length (LiveScreen.script_callbacks conversation))) in
    LiveScreenShapes.shown_lines st = conversation
    /\ Timers.pending (LiveScreen.timers st) = [].
Proof.
  intros random conversation s H X.
  exact (LiveScreen_timers_deliver_the_script random conversation s H X).
Qed.

(** A contact's line and a line of 'me', natural timing, every draw
    of [Math.random] one half. *)
Lemma X8_LiveScreen_timers_witness :
  let hey := {| LiveScreen.ref := 1; LiveScreen.id := "a"; LiveScreen.sender := "c1";
                LiveScreen.text := JS.lit "hey"; LiveScreen.delay := 2 |} in
  let ok := {| LiveScreen.ref := 2; LiveScreen.id := "b"; LiveScreen.sender := "me";
               LiveScreen.text := JS.lit "ok"; LiveScreen.delay := 0 |} in
  let s := {| LiveScreen.writingMode := LiveScreen.real;
              LiveScreen.timingMode := LiveScreen.natural;
              LiveScreen.initialDelay := 3 |} in
  let random := fun _ : nat => (1 # 2)%Q in
  LiveScreenShapes.delays_not_negative random [hey; ok] s
  /\ (LiveScreenShapes.schedule_length random [hey; ok] s <= Timers.max_delay)%Q
  /\ LiveScreenShapes.shown_lines
       (LiveScreen.steps [hey; ok] s (LiveScreen.mount random [hey; ok] s)
          (repeat LiveScreen.Fire 3)) = [hey; ok].
Proof.
  intros hey ok s random.
  assert (H : LiveScreenShapes.delays_not_negative random [hey; ok] s).
  { split; [|split].
    - cbn. unfold Qle. cbn. discriminate.
    - repeat constructor; cbn; unfold Qle; cbn; discriminate.
    - intros n. unfold random, Qle. cbn. discriminate. }
  assert (X : (LiveScreenShapes.schedule_length random [hey; ok] s <= Timers.max_delay)%Q).
  { vm_compute. discriminate. }
  split; [exact H|]. split; [exact X|].
  exact (proj1 (X8_LiveScreen_timers_deliver_the_script_in_order random [hey; ok] s H X)).
Defined.

(** X9.  When [LiveScreen] is removed, every timer it set is cleared:
    nothing is pending afterwards and the passage of time changes
    nothing, in whatever state the session was. *)
Theorem X9_LiveScreen_clears_its_timers_when_removed :
  forall conversation s st,
    LiveScreen.reachable conversation s st ->
    Timers.pending (LiveScreen.timers (LiveScreen.unmount st)) = []
    /\ LiveScreen.fire (LiveScreen.unmount st) = LiveScreen.unmount st.
Proof.
  intros conversation s st R.
  exact (LiveScreen_unmount_cancels_every_timer conversation s st R).
Qed.

(** A session in which the typing timer has fired and the message
    timer is still pending. *)
Lemma X9_LiveScreen_clears_witness :
  let hey := {| LiveScreen.ref := 1; LiveScreen.id := "a"; LiveScreen.sender := "c1";
                LiveScreen.text := JS.lit "hey"; LiveScreen.delay := 2 |} in
  let s := {| LiveScreen.writingMode := LiveScreen.prop;
              LiveScreen.timingMode := LiveScreen.manual;
              LiveScreen.initialDelay := 0 |} in
  let st := LiveScreen.step [hey] s (LiveScreen.mount (fun _ => 0%Q) [hey] s)
              LiveScreen.Fire in
  LiveScreen.reachable [hey] s st
  /\ List.length (Timers.pending (LiveScreen.timers st)) = 1%nat
  /\ Timers.pending (LiveScreen.timers (LiveScreen.unmount st)) = [].
Proof.
  intros hey s st.
  assert (R : LiveScreen.reachable [hey] s st) by (subst st; repeat constructor).
  split; [exact R|]. split; [reflexivity|].
  exact (proj1 (X9_LiveScreen_clears_its_timers_when_removed [hey] s st R)).
Defined.

(** ** [LiveChatMode]: the chat is a prefix of the script *)

Section LiveChatModePhases.
Import LiveChatMode LiveChatModeShapes.
Variable p : Project.

Lemma currentMessage_at (st : state) (i : nat) :
  currentMessageIndex st = Z.of_nat i ->
  currentMessage p st = nth_error (messages p) i.
Proof.
  intros E. unfold currentMessage. rewrite E.
  replace (Z.of_nat i <? 0) with false by (symmetry; apply Z.ltb_ge; lia).
  now rewrite Nat2Z.id.
Qed.

Lemma effect_phase (st : state) (j : nat) :
  currentMessageIndex st = Z.of_nat j -> (j <= List.length (messages p))%nat ->
  Timers.pending (timers st) = [] -> waitingForInput st = false ->
  transcript st = firstn j (messages p) ->
  phase p (effect p st).
Proof.
  intros E B P W T. unfold effect. rewrite (currentMessage_at st j E), E.
  destruct (Z.of_nat j <? Z.of_nat (List.length (messages p))) eqn:L.
  - apply Z.ltb_lt in L.
    destruct (nth_error (messages p) j) as [m|] eqn:N.
    2:{ apply nth_error_None in N. lia. }
    exists j. destruct (isUser p m); cbn; rewrite N.
    + split; [reflexivity|]. left. repeat split; auto; cbn; try lia.
      pose proof (JS_length_nonneg (text m)). lia.
    + split; [reflexivity|]. right. left. split; [exact W|]. split; [|exact T].
      rewrite P. cbn. eexists. split; reflexivity.
  - apply Z.ltb_ge in L. assert (j = List.length (messages p)) by lia. subst j.
    exists (List.length (messages p)). split; [exact E|].
    replace (nth_error (messages p) (List.length (messages p))) with (@None Message).
    2:{ symmetry. apply nth_error_None. lia. }
    repeat split; auto. now rewrite T, firstn_all.
Qed.

Lemma step_phase (st : state) (ev : event) : phase p st -> phase p (step p st ev).
Proof.
  intros (i & E & H).
  assert (C : isComplete_chat p st
              = negb (match nth_error (messages p) i with Some _ => true | None => false end)).
  { unfold isComplete_chat. rewrite E.
    destruct (nth_error (messages p) i) as [m|] eqn:N; cbn [negb].
    - assert (i < List.length (messages p))%nat by (apply nth_error_Some; congruence).
      rewrite Z.geb_leb. apply Z.leb_gt. lia.
    - apply nth_error_None in N. rewrite Z.geb_leb. apply Z.leb_le. lia. }
  destruct (nth_error (messages p) i) as [m|] eqn:N.
  - (* at a line of the script *)
    cbn [negb] in C.
    destruct H as [(W & P & R & T)|[(W & (x & P & X) & T)|(W & (x & P & X) & T)]].
    + (* the actor's turn *)
      destruct ev as [key| |]; cbn [step]; rewrite ?W, ?C; cbn [andb negb].
      * rewrite (currentMessage_at st i E), N.
        destruct (B_prefix_step (text m) (typing st) key R) as [R1 O].
        destruct (ForcedTypingB.handleKeyDown (text m) (typing st) key) as [h [t|]];
          cbn [fst snd] in *.
        -- specialize (O t eq_refl). subst t.
           exists i. cbn -[firstn]. rewrite N. split; [exact E|]. right. right.
           split; [reflexivity|]. split.
           ++ rewrite P. cbn -[firstn]. eexists. split; reflexivity.
           ++ unfold transcript in *. cbn -[firstn]. rewrite map_app, T. cbn -[firstn].
              rewrite <- (firstn_snoc_nth _ _ _ N). now destruct m.
        -- exists i. cbn -[firstn]. rewrite N. split; [exact E|]. left. repeat split; auto; apply R1.
      * rewrite (fire_nothing _ P). exists i. rewrite N. split; [exact E|]. left. auto.
      * exists i. rewrite N. split; [exact E|]. left. auto.
    + (* the delivery of a contact's line is pending *)
      destruct ev as [key| |]; cbn [step]; rewrite ?W, ?C; cbn [andb negb].
      * exists i. rewrite N. split; [exact E|]. right. left. eauto.
      * rewrite (fire_single _ _ P), X. cbn [run_callback with_timers]. exists i.
        cbn -[firstn]. rewrite N. split; [exact E|]. right. right. split; [exact W|]. split.
        -- eexists. split; reflexivity.
        -- unfold transcript in *. cbn -[firstn]. rewrite map_app, T. cbn -[firstn].
           now apply firstn_snoc_nth.
      * exists i. rewrite N. split; [exact E|]. right. left. eauto.
    + (* the step to the next line is pending *)
      destruct ev as [key| |]; cbn [step]; rewrite ?W, ?C; cbn [andb negb].
      * exists i. rewrite N. split; [exact E|]. right. right. eauto.
      * rewrite (fire_single _ _ P), X. cbn [run_callback with_timers].
        assert (i < List.length (messages p))%nat by (apply nth_error_Some; congruence).
        apply (effect_phase _ (S i)); cbn; auto; lia.
      * exists i. rewrite N. split; [exact E|]. right. right. eauto.
  - (* past the last line *)
    cbn [negb] in C. destruct H as (L & P & W & T).
    destruct ev as [key| |]; cbn [step]; rewrite ?W, ?C; cbn [andb negb].
    + exists i. rewrite N. split; [exact E|]. auto.
    + rewrite (fire_nothing _ P). exists i. rewrite N. split; [exact E|]. auto.
    + unfold handleRestart. destruct (currentMessageIndex st =? 0) eqn:Z0.
      * apply Z.eqb_eq in Z0.
        assert (M0 : messages p = []) by (destruct (messages p); [reflexivity|cbn in L; lia]).
        exists 0%nat. rewrite M0. cbn. repeat split; auto.
      * apply (effect_phase _ 0%nat); cbn; auto. lia.
Qed.

Lemma session_phase (evs : list event) : phase p (session p evs).
Proof.
  unfold session.
  assert (M : phase p (mount p)).
  { apply (effect_phase _ 0%nat); cbn; auto. lia. }
  revert M. generalize (mount p). induction evs as [|ev evs IH]; intros st J; cbn [fold_left].
  - exact J.
  - apply IH. now apply step_phase.
Qed.

Lemma phase_transcript (st : state) :
  phase p st ->
  transcript st = firstn (Z.to_nat (currentMessageIndex st)) (messages p)
  \/ transcript st = firstn (S (Z.to_nat (currentMessageIndex st))) (messages p).
Proof.
  intros (i & E & H). rewrite E, Nat2Z.id.
  destruct (nth_error (messages p) i) as [m|].
  - destruct H as [(_ & _ & _ & T)|[(_ & _ & T)|(_ & _ & T)]]; auto.
  - destruct H as (L & _ & _ & T). left. rewrite T, L. symmetry. apply firstn_all.
Qed.
End LiveChatModePhases.

(** X10.  [LiveChatMode] never has two timers at once, has none
    while it waits for the actor and none when the script is over,
    and its index stays within the script. *)
Theorem X10_LiveChatMode_has_one_timer_at_most :
  forall p evs,
    let st := LiveChatMode.session p evs in
    0 <= LiveChatMode.currentMessageIndex st
      <= Z.of_nat (List.length (LiveChatMode.messages p))
    /\ (List.length (Timers.pending (LiveChatMode.timers st)) <= 1)%nat
    /\ (LiveChatMode.waitingForInput st = true ->
        Timers.pending (LiveChatMode.timers st) = [])
    /\ (LiveChatMode.isComplete_chat p st = true ->
        Timers.pending (LiveChatMode.timers st) = []).
Proof.
  intros p evs st. destruct (session_one_timer p evs) as (B & N & W & C).
  fold st in B, N, W, C. repeat split; try assumption; try lia.
  intros G. apply C. unfold LiveChatMode.isComplete_chat in G. now apply Z.geb_le in G.
Qed.

(** X11.  In [LiveChatMode] the button [Restart Scene] is rendered
    only when no timer is pending, so that [handleRestart], which
    clears none, leaves none behind: after the restart the pending
    callbacks are those of a first render. *)
Theorem X11_LiveChatMode_restart_starts_clean :
  forall p evs,
    let st := LiveChatMode.session p evs in
    LiveChatMode.isComplete_chat p st = true ->
    Timers.pending (LiveChatMode.timers st) = []
    /\ map Timers.run
         (Timers.pending (LiveChatMode.timers (LiveChatMode.step p st LiveChatMode.Restart)))
       = map Timers.run (Timers.pending (LiveChatMode.timers (LiveChatMode.mount p))).
Proof.
  intros p evs st G. exact (LiveChatMode_restart_finds_no_pending_timer p evs G).
Qed.

(** A script of one contact's line, played to its end. *)
Lemma X11_LiveChatMode_restart_witness :
  let hey := {| LiveChatMode.id := "1"; LiveChatMode.sender := "Bo";
                LiveChatMode.text := JS.lit "hey"; LiveChatMode.delay := 2 |} in
  let p := {| LiveChatMode.messages := [hey]; LiveChatMode.actorName := Some "Al"%string |} in
  let evs := [LiveChatMode.Fire; LiveChatMode.Fire] in
  LiveChatMode.isComplete_chat p (LiveChatMode.session p evs) = true
  /\ map Timers.run
       (Timers.pending
          (LiveChatMode.timers
             (LiveChatMode.step p (LiveChatMode.session p evs) LiveChatMode.Restart)))
     = [LiveChatMode.deliverTimeout hey].
Proof.
  intros hey p evs.
  assert (G : LiveChatMode.isComplete_chat p (LiveChatMode.session p evs) = true)
    by reflexivity.
  split; [exact G|].
  exact (proj2 (X11_LiveChatMode_restart_starts_clean p evs G)).
Defined.

(** X12.  The chat of [LiveChatMode] is at every moment a prefix of
    the script, line for line with the text of the script: the lines
    before the current one, and the current one too once it has been
    delivered or sent. *)
Theorem X12_LiveChatMode_chat_is_a_prefix_of_the_script :
  forall p evs,
    let st := LiveChatMode.session p evs in
    let i := Z.to_nat (LiveChatMode.currentMessageIndex st) in
    LiveChatModeShapes.transcript st = firstn i (LiveChatMode.messages p)
    \/ LiveChatModeShapes.transcript st = firstn (S i) (LiveChatMode.messages p).
Proof.
  intros p evs st i. apply phase_transcript, session_phase.
Qed.

(** ** part_000: nothing is ever typed *)

(** X13.  In part_000 no sequence of clicks on the on-screen
    keyboard changes anything: every letter key throws before a
    character is revealed, and the erase and submit keys find
    nothing to do.  The text stays empty and the message is never
    finished. *)
Theorem X13_part_000_keyboard_never_leaves_the_start :
  forall bs, Part000.clicks Part000.init bs = Part000.init.
Proof.
  intros bs. unfold Part000.clicks.
  induction bs as [|b bs IH]; [reflexivity|].
  cbn [fold_left]. replace (Part000.click Part000.init b) with Part000.init; [exact IH|].
  destruct b as [label| |]; [|reflexivity|reflexivity].
  symmetry. apply P000_letter_click.
Qed.

(** ** Live mode of [FlowProp] (third file) *)

Section FlowPropLive.
Import FlowProp FlowPropShapes.
Variable p : Project.

Lemma at_index_In {A} (l : list A) (i : Z) (x : A) :
  at_index l i = Some x -> In x l.
Proof.
  unfold at_index. destruct (i <? 0); [discriminate|]. apply nth_error_In.
Qed.

Lemma at_index_tl {A} (l : list A) (i : Z) (x : A) :
  1 <= i -> at_index l i = Some x -> In x (tl l).
Proof.
  unfold at_index. intros H. destruct (i <? 0); [discriminate|].
  replace (Z.to_nat i) with (S (Z.to_nat (i - 1))) by lia.
  destruct l as [|y l]; [discriminate|]. cbn. apply nth_error_In.
Qed.

Lemma filter_snoc {A} (f : A -> bool) (l : list A) (x : A) :
  filter f (l ++ [x]) = if f x then filter f l ++ [x] else filter f l.
Proof.
  rewrite filter_app. cbn. destruct (f x); [reflexivity|apply app_nil_r].
Qed.

Lemma init_live_ok : live_ok p init.
Proof.
  constructor; cbn; try lia; constructor.
Qed.

Lemma startLiveMode_live_ok (st : state) : live_ok p st -> live_ok p (startLiveMode p st).
Proof.
  intros [I F T S C]. unfold startLiveMode.
  destruct (filter isActor (messages p)) as [|m l]; constructor; cbn; auto;
    try lia; try (pose proof (JS_length_nonneg (text m)); lia); constructor.
Qed.

Lemma handleKeyDown_live_ok (r : Q) (st : state) (key : JS.jsstring) :
  live_ok p st -> live_ok p (handleKeyDown p r st key).
Proof.
  intros H. pose proof H as [I F T S C]. unfold handleKeyDown.
  destruct (JS.length (forcedText st) =? 0); [exact H|].
  destruct (JS.eqb key JS.Backspace).
  { destruct (forcedTextIndex st >? 0) eqn:G; [|exact H].
    apply Z.gtb_lt in G. constructor; cbn; auto; lia. }
  destruct (JS.eqb key JS.Enter).
  { destruct (forcedTextIndex st >=? JS.length (forcedText st)); [|exact H].
    destruct (nth_error (filter isActor (messages p))
                (List.length (filter isActor (liveMessages st)))) as [cam|] eqn:N;
      [|exact H].
    assert (A : In cam (filter isActor (messages p))) by (eapply nth_error_In; eauto).
    apply filter_In in A as [A1 A2].
    constructor; cbn [currentMessageIndex forcedTextIndex forcedText timers liveMessages];
      auto.
    - (* the timers *)
      destruct (currentMessageIndex st + 1 <? Z.of_nat (List.length (messages p)));
        [|exact T].
      destruct (at_index (messages p) (currentMessageIndex st + 1)) as [nm|] eqn:E;
        [|exact T].
      destruct (isActor nm) eqn:B; [exact T|].
      rewrite pending_setTimeout. apply Forall_app. split; [exact T|].
      constructor; [|constructor]. unfold callback_ok. cbn. repeat split; auto. lia.
    - (* the actor's lines *)
      unfold sent, actorMessages in *. cbn [liveMessages].
      rewrite filter_snoc, A2, length_app. cbn [List.length].
      rewrite Nat.add_1_r. rewrite <- (firstn_snoc_nth _ _ _ N). now rewrite <- S.
    - (* the lines on screen *)
      apply Forall_app. split; [exact C|]. constructor; [|constructor].
      split; [exact A1|]. congruence. }
  destruct ((JS.length key =? 1) || JS.eqb key (JS.lit " ")); [|exact H].
  destruct (forcedTextIndex st <? JS.length (forcedText st)) eqn:G; [|exact H].
  apply Z.ltb_lt in G. constructor; cbn; auto; lia.
Qed.

Lemma deliver_live_ok (cb : Callback) (st : state) :
  callback_ok p cb -> live_ok p st -> live_ok p (deliver cb st).
Proof.
  intros (P & I1 & E & B) [I F T S C]. unfold deliver.
  assert (S' : sent st = filter isActor (liveMessages st ++ [nextMessage cb])).
  { unfold sent. now rewrite filter_snoc, B. }
  assert (C' : Forall (shown_ok p) (liveMessages st ++ [nextMessage cb])).
  { apply Forall_app. split; [exact C|]. constructor; [|constructor]. split.
    - eapply at_index_In; eauto.
    - intros _. eapply at_index_tl; eauto. }
  destruct (find isActor _) as [nam|]; constructor;
    cbn [currentMessageIndex forcedTextIndex forcedText timers liveMessages];
    auto; try lia; unfold sent; cbn [liveMessages]; rewrite <- ?S'; auto.
  pose proof (JS_length_nonneg (text nam)). lia.
Qed.

Lemma step_live_ok (st : state) (ev : event) : live_ok p st -> live_ok p (step p st ev).
Proof.
  intros H. destruct ev as [key r| | |]; cbn [step].
  - destruct (currentView st); auto using handleKeyDown_live_ok.
  - destruct (Timers.fire (timers st)) as [[cb t]|] eqn:E; [|exact H].
    destruct (fire_pending _ _ _ E) as [(x & X & ->) Sub].
    pose proof H as [I F T S C].
    apply deliver_live_ok.
    + rewrite Forall_forall in T. now apply T.
    + constructor; cbn; auto. rewrite Forall_forall in *. auto.
  - destruct (currentView st); auto. destruct H. constructor; cbn; auto.
  - destruct (currentView st), (messages p) eqn:M; auto.
    now apply startLiveMode_live_ok.
Qed.

Lemma steps_live_ok (evs : list event) : forall st,
  live_ok p st -> live_ok p (steps p st evs).
Proof.
  unfold steps. induction evs as [|ev evs IH]; intros st H; cbn [fold_left]; [exact H|].
  apply IH. now apply step_live_ok.
Qed.
End FlowPropLive.

(** *** Sessions that start between two sessions *)

Section FlowPropSessions.
Import FlowProp FlowPropShapes FlowPropRuns.
Variable p : Project.

Lemma handleKeyDown_live_run (r : Q) (st : state) (key : JS.jsstring) :
  live_run p st -> live_run p (handleKeyDown p r st key).
Proof.
  intros H. pose proof H as [I T C]. unfold handleKeyDown.
  destruct (JS.length (forcedText st) =? 0); [exact H|].
  destruct (JS.eqb key JS.Backspace).
  { destruct (forcedTextIndex st >? 0); [|exact H]. constructor; cbn; auto. }
  destruct (JS.eqb key JS.Enter).
  { destruct (forcedTextIndex st >=? JS.length (forcedText st)); [|exact H].
    destruct (nth_error (filter isActor (messages p))
                (List.length (filter isActor (liveMessages st)))) as [cam|] eqn:N;
      [|exact H].
    assert (A : In cam (filter isActor (messages p))) by (eapply nth_error_In; eauto).
    apply filter_In in A as [A1 A2].
    constructor; cbn [currentMessageIndex timers liveMessages]; auto.
    - destruct (currentMessageIndex st + 1 <? Z.of_nat (List.length (messages p)));
        [|exact T].
      destruct (at_index (messages p) (currentMessageIndex st + 1)) as [nm|] eqn:E;
        [|exact T].
      destruct (isActor nm) eqn:B; [exact T|].
      rewrite pending_setTimeout. apply Forall_app. split; [exact T|].
      constructor; [|constructor]. unfold callback_ok. cbn.
      assert (R : contact_run p (currentMessageIndex st + 1)).
      { destruct I as [I|[I1 I2]].
        - rewrite I in *. split; [lia|]. intros k K.
          replace k with 1 by lia. eauto.
        - split; [lia|]. intros k K.
          destruct (Z.eq_dec k (currentMessageIndex st + 1)) as [->|D]; [eauto|].
          apply I2. lia. }
      repeat split; auto; apply R.
    - apply Forall_app. split; [exact C|]. constructor; [|constructor].
      left. split; assumption. }
  destruct ((JS.length key =? 1) || JS.eqb key (JS.lit " ")); [|exact H].
  destruct (forcedTextIndex st <? JS.length (forcedText st)); [|exact H].
  constructor; cbn; auto.
Qed.

Lemma step_live_run (st : state) (ev : event) : live_run p st -> live_run p (step p st ev).
Proof.
  intros H. pose proof H as [I T C]. destruct ev as [key r| | |]; cbn [step].
  - destruct (currentView st); auto using handleKeyDown_live_run.
  - destruct (Timers.fire (timers st)) as [[cb t]|] eqn:E; [|exact H].
    destruct (fire_pending _ _ _ E) as [(x & X & ->) Sub].
    rewrite Forall_forall in T. destruct (T x X) as [(P & I1 & A & B) R].
    assert (C' : Forall (delivered_ok p) (liveMessages st ++ [nextMessage (Timers.run x)])).
    { apply Forall_app. split; [exact C|]. constructor; [|constructor].
      right. eauto. }
    unfold deliver. cbn [liveMessages with_timers timers].
    destruct (find isActor _); constructor;
      cbn [currentMessageIndex timers liveMessages]; auto;
      apply Forall_forall; intros y Y; apply T; auto.
  - destruct (currentView st); auto. constructor; cbn; auto.
  - destruct (currentView st), (messages p) eqn:M; auto.
    unfold startLiveMode. destruct (filter isActor (messages p));
      constructor; cbn; auto.
Qed.

Lemma steps_live_run (evs : list event) : forall st,
  live_run p st -> live_run p (steps p st evs).
Proof.
  unfold steps. induction evs as [|ev evs IH]; intros st H; cbn [fold_left]; [exact H|].
  apply IH. now apply step_live_run.
Qed.

Lemma step_idle (st : state) (ev : event) :
  idle st -> idle (step p st ev) \/ live_run p (step p st ev).
Proof.
  intros I. pose proof I as [V T]. destruct ev as [key r| | |]; cbn [step].
  - left. destruct (currentView st) eqn:W; try exact I. congruence.
  - left. rewrite (fire_nothing _ T). exact I.
  - left. destruct (currentView st) eqn:W; try exact I. congruence.
  - destruct (currentView st) eqn:W, (messages p) eqn:M; try (left; exact I).
    right. unfold startLiveMode.
    destruct (filter isActor (messages p)); constructor;
      cbn [currentMessageIndex timers liveMessages]; auto; rewrite ?T; constructor.
Qed.

Lemma steps_idle_or_run (evs : list event) : forall st,
  idle st \/ live_run p st ->
  idle (steps p st evs) \/ live_run p (steps p st evs).
Proof.
  unfold steps. induction evs as [|ev evs IH]; intros st H; cbn [fold_left]; [exact H|].
  apply IH. destruct H as [H|H]; [now apply step_idle|right; now apply step_live_run].
Qed.

(** In the live view of a session that started between two
    sessions, every line on screen was delivered from the script of
    the session. *)
Lemma session_screen (st0 : state) (evs : list event) :
  idle st0 ->
  currentView (steps p st0 evs) = live ->
  Forall (delivered_ok p) (liveMessages (steps p st0 evs)).
Proof.
  intros I V. destruct (steps_idle_or_run evs st0 (or_introl I)) as [[N _]|R].
  - contradiction.
  - apply (screen_run p _ R).
Qed.

Lemma delivered_is_shown (m : Message) : delivered_ok p m -> shown_ok p m.
Proof.
  intros [[A I]|(j & [J1 J2] & E)]; split.
  - exact I.
  - congruence.
  - eapply at_index_In; eauto.
  - intros _. eapply at_index_tl; eauto.
Qed.

(** A script without a line of the actor. *)
Hypothesis no_actor : actorMessages p = [].


End FlowPropSessions.

(** The sessions below start with no timer pending.  A timer that
    is pending when the live view is left is not cleared: when another
    project goes live before it fires, its line comes on screen
    there. *)
Lemma FlowProp_pending_timer_crosses_projects :
  let hi := {| FlowProp.id := 1; FlowProp.senderName := "A";
               FlowProp.text := JS.lit "hi"; FlowProp.isActor := true |} in
  let yo := {| FlowProp.id := 2; FlowProp.senderName := "B";
               FlowProp.text := JS.lit "yo"; FlowProp.isActor := false |} in
  let ok := {| FlowProp.id := 5; FlowProp.senderName := "A";
               FlowProp.text := JS.lit "ok"; FlowProp.isActor := true |} in
  let first := {| FlowProp.messages := [hi; yo]; FlowProp.delayMode := FlowProp.natural;
                  FlowProp.customDelay := 2 |} in
  let second := {| FlowProp.messages := [ok]; FlowProp.delayMode := FlowProp.natural;
                   FlowProp.customDelay := 2 |} in
  let left := FlowProp.steps first FlowProp.init
                [FlowProp.GoLive; FlowProp.Key (JS.lit "h") 0; FlowProp.Key (JS.lit "i") 0;
                 FlowProp.Key JS.Enter 0; FlowProp.Exit] in
  let st := FlowProp.steps second left [FlowProp.GoLive; FlowProp.Fire] in
  List.length (Timers.pending (FlowProp.timers left)) = 1%nat
  /\ FlowProp.currentView st = FlowProp.live
  /\ FlowProp.liveMessages st = [yo]
  /\ ~ In yo (FlowProp.messages second).
Proof.
  cbv zeta. split; [vm_compute; reflexivity|]. split; [vm_compute; reflexivity|].
  split; [vm_compute; reflexivity|]. cbn. intros [H|[]]. discriminate H.
Qed.

(** X14.  In the live mode of [FlowProp] the actor's lines come on
    screen in the order of the script, none left out: at every
    moment the actor's lines on screen are the first ones of the
    actor's lines of the script. *)
Theorem X14_FlowProp_actor_lines_are_sent_in_script_order :
  forall p evs,
    let st := FlowProp.steps p FlowProp.init evs in
    FlowPropShapes.sent st
    = firstn (List.length (FlowPropShapes.sent st)) (FlowPropShapes.actorMessages p).
Proof.
  intros p evs st. apply (FlowPropShapes.sent_ok p st).
  apply steps_live_ok, init_live_ok.
Qed.

(** X15.  In the live view of [FlowProp] every line on screen is a
    line of the script that is played, and a line that is not the
    actor's is never taken from index 0: the timers deliver from
    index [currentMessageIndex + 1] on.  This holds for a session on
    project [p] that starts from any state of the component in which
    the live view is not shown and no timer is pending, whatever
    project was played before and whatever it left in the state. *)
Theorem X15_FlowProp_never_delivers_the_opening_line_of_a_contact :
  forall st0 p evs,
    FlowPropShapes.idle st0 ->
    let st := FlowProp.steps p st0 evs in
    FlowProp.currentView st = FlowProp.live ->
    Forall (fun m => In m (FlowProp.messages p)
                     /\ (FlowProp.isActor m = false -> In m (tl (FlowProp.messages p))))
      (FlowProp.liveMessages st).
Proof.
  intros st0 p evs I st V.
  eapply Forall_impl; [|exact (session_screen p st0 evs I V)].
  intros m D. exact (delivered_is_shown p m D).
Qed.

(** After a session of another project: the actor's line is typed
    and sent, and the contact's line at index 1 is delivered. *)
Lemma X15_FlowProp_never_delivers_the_opening_line_witness :
  let ok := {| FlowProp.id := 5; FlowProp.senderName := "A";
               FlowProp.text := JS.lit "ok"; FlowProp.isActor := true |} in
  let hm := {| FlowProp.id := 6; FlowProp.senderName := "C";
               FlowProp.text := JS.lit "hm"; FlowProp.isActor := false |} in
  let p := {| FlowProp.messages := [ok; hm]; FlowProp.delayMode := FlowProp.custom;
              FlowProp.customDelay := 2 |} in
  let evs := [FlowProp.GoLive; FlowProp.Key (JS.lit "o") 0; FlowProp.Key (JS.lit "k") 0;
              FlowProp.Key JS.Enter 0; FlowProp.Fire] in
  FlowPropShapes.idle FlowPropRuns.after_another_project
  /\ List.length (FlowProp.liveMessages FlowPropRuns.after_another_project) = 2%nat
  /\ FlowProp.liveMessages (FlowProp.steps p FlowPropRuns.after_another_project evs) = [ok; hm]
  /\ Forall (fun m => In m (FlowProp.messages p)
                      /\ (FlowProp.isActor m = false -> In m (tl (FlowProp.messages p))))
       (FlowProp.liveMessages (FlowProp.steps p FlowPropRuns.after_another_project evs)).
Proof.
  intros ok hm p evs.
  assert (I : FlowPropShapes.idle FlowPropRuns.after_another_project).
  { split; [vm_compute; discriminate|vm_compute; reflexivity]. }
  split; [exact I|]. split; [vm_compute; reflexivity|]. split; [vm_compute; reflexivity|].
  apply (X15_FlowProp_never_delivers_the_opening_line_of_a_contact
           FlowPropRuns.after_another_project p evs I).
  vm_compute. reflexivity.
Defined.



(** X17.  In the live mode of [FlowProp] the index into the forced
    text stays between 0 and the length of the forced text, and
    [currentMessageIndex] is never negative, whatever happens. *)
Theorem X17_FlowProp_forced_text_index_stays_in_range :
  forall p evs,
    let st := FlowProp.steps p FlowProp.init evs in
    0 <= FlowProp.forcedTextIndex st <= JS.length (FlowProp.forcedText st)
    /\ 0 <= FlowProp.currentMessageIndex st.
Proof.
  intros p evs st.
  assert (H : FlowPropShapes.live_ok p st) by apply steps_live_ok, init_live_ok.
  split; [apply (FlowPropShapes.forced_ok p st H)|apply (FlowPropShapes.index_ok p st H)].
Qed.

(** ** The script editor of the first file and the delays it sets *)

Section ScriptEditorDelays.
Import LiveChat ScriptEditor.

Lemma click_not_negative (value : Delay) (b : DelaySelector.button) (val : Delay) :
  DelaySelector.click false value b = Some val -> not_negative val.
Proof.
  destruct b; cbn [DelaySelector.click orb];
    unfold DelaySelector.handleChange, DelaySelector.toggleNatural;
    destruct value as [|n]; cbn; try discriminate; intros [= <-]; cbn; lia.
Qed.

Lemma updateLocalMessage_Forall (P : Message -> Prop) (updates : Message -> Message) :
  (forall m, P m -> P (updates m)) ->
  forall messages index l,
    updateLocalMessage messages index updates = Some l ->
    Forall P messages -> Forall P l.
Proof.
  intros U. induction messages as [|m rest IH]; intros [|i] l; cbn; try discriminate.
  - intros [= <-] F. inversion F; subst. constructor; auto.
  - destruct (updateLocalMessage rest i updates) as [l'|] eqn:E; cbn; [|discriminate].
    intros [= <-] F. inversion F; subst. constructor; eauto.
Qed.

Lemma removeMessage_In (messages : list Message) (index : nat) (m : Message) :
  In m (removeMessage messages index) -> In m messages.
Proof.
  unfold removeMessage. intros H. apply in_map_iff in H as [[i x] [E H]].
  cbn in E. subst x. apply filter_In in H as [H _]. now apply in_combine_r in H.
Qed.

Lemma selector_start_ok (messages : list Message) (index : nat) b :
  Forall delays_ok messages ->
  Forall delays_ok (selector_click startDelay set_startDelay messages index b).
Proof.
  intros F. unfold selector_click.
  destruct (nth_error messages index) as [msg|]; [|exact F].
  destruct (String.eqb (participantId msg) "you"); [exact F|].
  destruct (DelaySelector.click false (startDelay msg) b) as [val|] eqn:C; [|exact F].
  destruct (updateLocalMessage messages index (set_startDelay val)) as [l|] eqn:U;
    [|exact F].
  apply (updateLocalMessage_Forall delays_ok _) with (3 := F) in U; [exact U|].
  intros m [_ T]. split; [|exact T]. cbn. eapply click_not_negative; eauto.
Qed.

Lemma selector_typing_ok (messages : list Message) (index : nat) b :
  Forall delays_ok messages ->
  Forall delays_ok (selector_click typingDelay set_typingDelay messages index b).
Proof.
  intros F. unfold selector_click.
  destruct (nth_error messages index) as [msg|]; [|exact F].
  destruct (String.eqb (participantId msg) "you"); [exact F|].
  destruct (DelaySelector.click false (typingDelay msg) b) as [val|] eqn:C; [|exact F].
  destruct (updateLocalMessage messages index (set_typingDelay val)) as [l|] eqn:U;
    [|exact F].
  apply (updateLocalMessage_Forall delays_ok _) with (3 := F) in U; [exact U|].
  intros m [S _]. split; [exact S|]. cbn. eapply click_not_negative; eauto.
Qed.

Lemma step_delays_ok (messages : list Message) (ev : event) :
  Forall delays_ok messages -> Forall delays_ok (step messages ev).
Proof.
  intros F. destruct ev as [now|index|index v|index v|index b|index b]; cbn [step].
  - apply Forall_app. split; [exact F|]. constructor; [|constructor].
    split; cbn; [lia|exact I].
  - rewrite Forall_forall in *. intros m H. apply F. eapply removeMessage_In; eauto.
  - destruct (updateLocalMessage messages index _) as [l|] eqn:U; [|exact F].
    apply (updateLocalMessage_Forall delays_ok _) with (3 := F) in U; [exact U|].
    intros m H. exact H.
  - destruct (updateLocalMessage messages index _) as [l|] eqn:U; [|exact F].
    apply (updateLocalMessage_Forall delays_ok _) with (3 := F) in U; [exact U|].
    intros m H. exact H.
  - now apply selector_start_ok.
  - now apply selector_typing_ok.
Qed.

Lemma edited_delays_ok (evs : list event) : Forall delays_ok (edited evs).
Proof.
  unfold edited. assert (F : Forall delays_ok []) by constructor.
  revert F. generalize (@nil Message).
  induction evs as [|ev evs IH]; intros l F; cbn [fold_left]; [exact F|].
  apply IH. now apply step_delays_ok.
Qed.

Lemma startDelayMs_positive (m : Message) :
  not_negative (startDelay m) -> (0 < startDelayMs m)%Q.
Proof.
  intros H. unfold startDelayMs.
  assert (P : forall x : Q, (0 <= x)%Q -> (0 < or_1000 x)%Q).
  { intros x X. unfold or_1000. destruct (Qeq_bool x 0) eqn:E; [reflexivity|].
    apply Qeq_bool_neq in E. apply Qle_lteq in X as [X|X]; [exact X|].
    exfalso. apply E. now symmetry. }
  apply P. destruct (startDelay m) as [|n]; cbn in H.
  - pose proof (JS_length_nonneg (text m)) as L.
    rewrite Zle_Qle in L. change (inject_Z 0) with 0%Q in L.
    unfold Qdiv. apply Qmult_le_0_compat; [|discriminate].
    apply Qmult_le_0_compat; [exact L|discriminate].
  - change 0%Q with (inject_Z 0). rewrite <- Zle_Qle. lia.
Qed.

Lemma typingSpeedMs_at_least_30 (m : Message) :
  not_negative (typingDelay m) -> 30 <= typingSpeedMs m.
Proof.
  intros H. unfold typingSpeedMs. destruct (typingDelay m) as [|n]; cbn in H; [lia|].
  destruct (n * 50 =? 0) eqn:E; [lia|]. apply Z.eqb_neq in E. lia.
Qed.
End ScriptEditorDelays.

(** X18.  Whatever is done in the script editor of a new scene (add,
    remove, change the sender or the text, click the buttons of the
    two delay selectors), no delay of the script is a negative
    number, and so in [LiveChat] every line has a start delay above
    0 ms and a typing time of at least 30 ms for each character. *)
Theorem X18_ScriptEditor_sets_only_delays_that_LiveChat_can_wait :
  forall evs,
    Forall (fun m => ScriptEditor.not_negative (LiveChat.startDelay m)
                     /\ ScriptEditor.not_negative (LiveChat.typingDelay m)
                     /\ (0 < LiveChat.startDelayMs m)%Q
                     /\ 30 <= LiveChat.typingSpeedMs m)
      (ScriptEditor.edited evs).
Proof.
  intros evs. pose proof (edited_delays_ok evs) as F.
  rewrite Forall_forall in *. intros m H. destruct (F m H) as [S T].
  repeat split; auto using startDelayMs_positive, typingSpeedMs_at_least_30.
Qed.

(** ** The participants editor of the first file *)

Section ParticipantsEditorFacts.
Import ParticipantsEditor.

Lemma editable_not_you (rest : list Participant) (i : string) :
  others_ok rest -> editable (you :: rest) i = true -> String.eqb "you" i = false.
Proof.
  intros O E. unfold editable in E. cbn [existsb you id isFixed negb] in E.
  rewrite andb_false_r in E. cbn [orb] in E.
  apply existsb_exists in E as (q & Q & E). apply andb_true_iff in E as [E _].
  apply String.eqb_eq in E. unfold others_ok in O. rewrite Forall_forall in O.
  destruct (O q Q) as [_ N]. apply String.eqb_neq. congruence.
Qed.

Lemma step_keeps_you (rest : list Participant) (ev : event) :
  others_ok rest ->
  exists rest', step (you :: rest) ev = you :: rest' /\ others_ok rest'.
Proof.
  intros O. destruct ev as [now|i|i v]; cbn [step].
  - unfold addParticipant. cbn [app]. eexists. split; [reflexivity|].
    apply Forall_app. split; [exact O|]. constructor; [|constructor].
    cbn. split; [reflexivity|discriminate].
  - destruct (editable (you :: rest) i) eqn:E; [|eauto].
    pose proof (editable_not_you rest i O E) as N. unfold removeParticipant.
    destruct (List.length (you :: rest) <=? 2)%nat; [eauto|].
    cbn [filter you id]. rewrite N. cbn [negb]. eexists. split; [reflexivity|].
    unfold others_ok in *. rewrite Forall_forall in *.
    intros q Q. apply filter_In in Q as [Q _]. auto.
  - destruct (editable (you :: rest) i) eqn:E; [|eauto].
    pose proof (editable_not_you rest i O E) as N. unfold updateLocalParticipant.
    cbn [map you id]. rewrite N. eexists. split; [reflexivity|].
    unfold others_ok in *. rewrite Forall_forall in *.
    intros q Q. apply in_map_iff in Q as (q0 & <- & Q). specialize (O q0 Q).
    destruct (String.eqb (id q0) i); cbn; exact O.
Qed.

Lemma edited_keeps_you (evs : list event) :
  exists rest, edited evs = you :: rest /\ others_ok rest.
Proof.
  unfold edited, initial.
  assert (O : others_ok [contact1]).
  { constructor; [|constructor]. split; [reflexivity|discriminate]. }
  revert O. generalize [contact1].
  induction evs as [|ev evs IH]; intros rest O; cbn [fold_left]; [eauto|].
  destruct (step_keeps_you rest ev O) as (rest' & -> & O'). now apply IH.
Qed.

Lemma filter_absent (l : list Participant) (i : string) :
  ~ In i (map id l) -> filter (fun p => negb (String.eqb (id p) i)) l = l.
Proof.
  induction l as [|a l IH]; intros H; cbn; [reflexivity|].
  destruct (String.eqb (id a) i) eqn:E.
  - apply String.eqb_eq in E. exfalso. apply H. now left.
  - cbn. f_equal. apply IH. intros K. apply H. now right.
Qed.

Lemma filter_one_id (l : list Participant) (i : string) :
  NoDup (map id l) ->
  (List.length l <= S (List.length (filter (fun p => negb (String.eqb (id p) i)) l)))%nat.
Proof.
  induction l as [|a l IH]; intros N; cbn; [lia|].
  inversion N as [|? ? A N']; subst.
  destruct (String.eqb (id a) i) eqn:E; cbn.
  - apply String.eqb_eq in E. subst i. rewrite (filter_absent l (id a) A). lia.
  - specialize (IH N'). lia.
Qed.

Lemma removeParticipant_keeps_two (participants : list Participant) (i : string) :
  NoDup (map id participants) -> (2 <= List.length participants)%nat ->
  (2 <= List.length (removeParticipant participants i))%nat.
Proof.
  intros N L. unfold removeParticipant.
  destruct (List.length participants <=? 2)%nat eqn:E; [exact L|].
  apply Nat.leb_gt in E. pose proof (filter_one_id participants i N). lia.
Qed.

Lemma filter_the_one (l1 l2 : list Participant) (x : Participant) :
  NoDup (map id (l1 ++ x :: l2)) ->
  filter (fun p => negb (String.eqb (id p) (id x))) (l1 ++ x :: l2) = (l1 ++ l2)%list.
Proof.
  intros N. rewrite map_app in N. cbn [map] in N.
  pose proof (NoDup_remove_2 _ _ _ N) as A.
  rewrite filter_app. cbn [filter]. rewrite String.eqb_refl. cbn [negb].
  rewrite !filter_absent; [reflexivity| |].
  - intros K. apply A. apply in_or_app. now right.
  - intros K. apply A. apply in_or_app. now left.
Qed.

Lemma removeParticipant_cases (participants : list Participant) (i : string) :
  NoDup (map id participants) -> (2 <= List.length participants)%nat ->
  (2 <= List.length (removeParticipant participants i))%nat
  /\ (List.length participants = 2%nat -> removeParticipant participants i = participants)
  /\ (~ In i (map id participants) -> removeParticipant participants i = participants)
  /\ (forall l1 x l2,
        (2 < List.length participants)%nat ->
        participants = (l1 ++ x :: l2)%list -> id x = i ->
        removeParticipant participants i = (l1 ++ l2)%list).
Proof.
  intros N L. split; [exact (removeParticipant_keeps_two participants i N L)|].
  unfold removeParticipant. split; [|split].
  - intros E. rewrite E. reflexivity.
  - intros A. destruct (List.length participants <=? 2)%nat; [reflexivity|].
    now apply filter_absent.
  - intros l1 x l2 G E I.
    destruct (List.length participants <=? 2)%nat eqn:B.
    { apply Nat.leb_le in B. lia. }
    subst participants i. now apply filter_the_one.
Qed.
End ParticipantsEditorFacts.

(** X19.  In the participants editor of the first file the actor's
    entry can be neither removed nor renamed: whatever is added,
    removed or renamed from the participants of a new scene, the
    list still begins with the entry [you] as it was created, and no
    other entry is fixed or has the id of the actor. *)
Theorem X19_ParticipantsEditor_keeps_the_actor :
  forall evs,
    exists rest,
      ParticipantsEditor.edited evs = ParticipantsEditor.you :: rest
      /\ Forall (fun q => ParticipantsEditor.isFixed q = false
                          /\ ParticipantsEditor.id q <> "you"%string) rest.
Proof.
  intros evs. exact (edited_keeps_you evs).
Qed.

(** X20.  [removeParticipant] on a list of at least two
    participants whose ids are all different: at least two are
    left; a list of two is left as it is; a list in which no entry
    has the given id is left as it is; and from a list of more than
    two exactly the entry with the given id goes, the others staying
    as they are and in their order. *)
Theorem X20_removeParticipant_leaves_two_participants :
  forall participants i,
    NoDup (map ParticipantsEditor.id participants) ->
    (2 <= List.length participants)%nat ->
    let r := ParticipantsEditor.removeParticipant participants i in
    (2 <= List.length r)%nat
    /\ (List.length participants = 2%nat -> r = participants)
    /\ (~ In i (map ParticipantsEditor.id participants) -> r = participants)
    /\ (forall l1 x l2,
          (2 < List.length participants)%nat ->
          participants = (l1 ++ x :: l2)%list ->
          ParticipantsEditor.id x = i ->
          r = (l1 ++ l2)%list).
Proof.
  intros participants i N L. exact (removeParticipant_cases participants i N L).
Qed.

(** The participants of a new scene and one contact more; the
    first contact is removed, and the actor and the new contact are
    left. *)
Lemma X20_removeParticipant_witness :
  let ps := ParticipantsEditor.addParticipant ParticipantsEditor.initial 1700000000000%N in
  NoDup (map ParticipantsEditor.id ps)
  /\ List.length ps = 3%nat
  /\ ParticipantsEditor.removeParticipant ps "contact1"
     = (firstn 1 ps ++ skipn 2 ps)%list.
Proof.
  intros ps.
  assert (N : NoDup (map ParticipantsEditor.id ps)).
  { vm_compute. repeat constructor; cbn; intuition discriminate. }
  assert (L : (2 <= List.length ps)%nat) by (cbn; lia).
  split; [exact N|]. split; [reflexivity|].
  destruct (X20_removeParticipant_leaves_two_participants ps "contact1" N L)
    as (_ & _ & _ & R).
  destruct (nth_error ps 1) as [x|] eqn:E; [|discriminate E].
  apply (R (firstn 1 ps) x (skipn 2 ps)).
  - cbn. lia.
  - vm_compute in E. injection E as <-. reflexivity.
  - vm_compute in E. injection E as <-. reflexivity.
Defined.

(** ** [LiveContainer] *)

(** X21.  In [LiveContainer] the lock screen is shown only at the
    start of a lock-screen scene and the messages list only in a
    scene of type contacts; a contact is selected only there.  So
    unlocking always leads to the chat: the other target of
    [onUnlock] is never taken. *)
Theorem X21_LiveContainer_shows_the_list_only_in_a_contacts_scene :
  forall scenarioType evs,
    let st := LiveContainer.steps scenarioType evs in
    (LiveContainer.liveState st = LiveContainer.on_lockscreen ->
     scenarioType = LiveContainer.lockscreen)
    /\ (LiveContainer.liveState st = LiveContainer.on_contacts ->
        scenarioType = LiveContainer.contacts)
    /\ (LiveContainer.liveState st = LiveContainer.on_direct ->
        scenarioType = LiveContainer.direct)
    /\ (LiveContainer.activeContactId st <> None ->
        scenarioType = LiveContainer.contacts)
    /\ (LiveContainer.liveState st = LiveContainer.on_lockscreen ->
        LiveContainer.liveState (LiveContainer.step scenarioType st LiveContainer.Unlock)
        = LiveContainer.on_chat).
Proof.
  intros scenarioType evs. unfold LiveContainer.steps.
  set (J := fun st : LiveContainer.state =>
              (LiveContainer.liveState st = LiveContainer.on_lockscreen ->
               scenarioType = LiveContainer.lockscreen)
              /\ (LiveContainer.liveState st = LiveContainer.on_contacts ->
                  scenarioType = LiveContainer.contacts)
              /\ (LiveContainer.liveState st = LiveContainer.on_direct ->
                  scenarioType = LiveContainer.direct)
              /\ (LiveContainer.activeContactId st <> None ->
                  scenarioType = LiveContainer.contacts)).
  assert (K : J (fold_left (LiveContainer.step scenarioType) evs
                   (LiveContainer.init scenarioType))).
  { assert (J0 : J (LiveContainer.init scenarioType)).
    { unfold J. destruct scenarioType; cbn; intuition congruence. }
    revert J0. generalize (LiveContainer.init scenarioType).
    induction evs as [|ev evs IH]; intros st H; cbn [fold_left]; [exact H|].
    apply IH. unfold J in *. destruct st as [[] a], ev, scenarioType; cbn in *;
      intuition congruence. }
  cbv zeta. revert K.
  generalize (fold_left (LiveContainer.step scenarioType) evs
                (LiveContainer.init scenarioType)).
  intros st (K1 & K2 & K3 & K4). repeat split; auto.
  intros L. specialize (K1 L). subst scenarioType.
  unfold LiveContainer.step. now rewrite L.
Qed.

(** ** Stored projects of the second file *)

Section StoredProjects.
Variable Project : Type.
Variable id : Project -> string.
Variable stringify : list Project -> string.
Variable parse : string -> option (list Project).
(** [JSON.parse('undefined')] throws. *)
Hypothesis parse_undefined : parse "undefined" = None.

Lemma run_item (st : UseLocalStorageB.state (list Project))
      (o : ProjectProvider.op Project) :
  UseLocalStorageB.item (ProjectProvider.run id stringify st o) = Some "undefined"%string.
Proof. reflexivity. Qed.

Lemma reload_after_run (st : UseLocalStorageB.state (list Project))
      (ops : list (ProjectProvider.op Project)) (o : ProjectProvider.op Project) :
  UseLocalStorageB.storedValue
    (ProjectProvider.reload parse
       (fold_left (ProjectProvider.run id stringify) (ops ++ [o]) st)) = [].
Proof.
  rewrite fold_left_app. cbn [fold_left]. unfold ProjectProvider.reload.
  rewrite run_item. cbn. now rewrite parse_undefined.
Qed.
End StoredProjects.

(** X22.  In the second file nothing that [ProjectProvider] stores
    can be read back.  Every one of its operations hands an updater
    function to [setProjects], and the hook stores
    [JSON.stringify] of that function, the text [undefined], which
    does not parse: after any operation, a reload of the page starts
    from the empty list of projects, whatever the list was. *)
Theorem X22_ProjectProvider_projects_do_not_survive_a_reload :
  forall (Project : Type) (id : Project -> string)
         (stringify : list Project -> string)
         (parse : string -> option (list Project)),
    parse "undefined"%string = None ->
    forall st ops o,
      UseLocalStorageB.item
        (fold_left (ProjectProvider.run id stringify) (ops ++ [o]) st)
      = Some "undefined"%string
      /\ UseLocalStorageB.storedValue
           (ProjectProvider.reload parse
              (fold_left (ProjectProvider.run id stringify) (ops ++ [o]) st)) = [].
Proof.
  intros Project id stringify parse U st ops o. split.
  - rewrite fold_left_app. reflexivity.
  - now apply reload_after_run.
Qed.

(** Projects that are names; a parser that reads the empty array
    only.  One project is created in an empty store. *)
Lemma X22_ProjectProvider_reload_witness :
  let id := fun p : string => p in
  let stringify := fun l : list string => String.concat "," l in
  let parse := fun s : string => if String.eqb s "[]" then Some (@nil string) else None in
  let st := UseLocalStorageB.mount parse [] None in
  parse "undefined"%string = None
  /\ UseLocalStorageB.storedValue
       (fold_left (ProjectProvider.run id stringify)
          [ProjectProvider.createProject "Heist"%string] st) = ["Heist"%string]
  /\ UseLocalStorageB.storedValue
       (ProjectProvider.reload parse
          (fold_left (ProjectProvider.run id stringify)
             [ProjectProvider.createProject "Heist"%string] st)) = [].
Proof.
  intros id stringify parse st. split; [reflexivity|]. split; [reflexivity|].
  exact (proj2 (X22_ProjectProvider_projects_do_not_survive_a_reload
                  string id stringify parse eq_refl st []
                  (ProjectProvider.createProject "Heist"%string))).
Defined.

(** ** [SetupScreen] of part_001 *)

Section SetupScreenAlternation.
Import SetupScreen.
Variable contacts : list Contact.
Variable t : string.
Variable c : Contact.
Hypothesis target : targetContact contacts (Some t) = Some c.
Hypothesis not_me : c_id c <> "me"%string.
Hypothesis not_empty : c_id c <> ""%string.

Lemma addMessage_alternates (freshes : list (nat * string)) :
  map LiveScreen.sender (fold_left (addMessage contacts (Some t)) freshes [])
  = map (fun i => if Nat.even i then c_id c else "me"%string)
      (seq 0 (List.length freshes)).
Proof.
  induction freshes as [|f fs IH] using rev_ind; [reflexivity|].
  rewrite fold_left_app, length_app, Nat.add_1_r, seq_S, map_app. cbn [fold_left map].
  set (conv := fold_left (addMessage contacts (Some t)) fs []) in *. clearbody conv.
  assert (L : List.length conv = List.length fs).
  { rewrite <- (length_map LiveScreen.sender), IH, length_map. apply length_seq. }
  assert (S : match conv with
              | [] => "me"%string
              | _ => match nth_error conv (List.length conv - 1) with
                     | Some m => LiveScreen.sender m
                     | None => "me"%string
                     end
              end
              = if Nat.even (List.length fs) then "me"%string else c_id c).
  { destruct conv as [|m0 conv'].
    - cbn in L. now rewrite <- L.
    - set (n := List.length conv') in *.
      assert (Ln : List.length fs = Datatypes.S n) by (cbn in L; lia).
      replace (List.length (m0 :: conv') - 1)%nat with n by (cbn; lia).
      apply (f_equal (fun l => nth_error l n)) in IH.
      rewrite !nth_error_map, Ln, nth_error_seq in IH.
      replace (n <? Datatypes.S n)%nat with true in IH
        by (symmetry; apply Nat.ltb_lt; lia).
      cbn [option_map Nat.add] in IH.
      destruct (nth_error (m0 :: conv') n) as [m|]; [|discriminate].
      cbn in IH. injection IH as IH. rewrite IH, Ln, Nat.even_succ, <- Nat.negb_even.
      now destruct (Nat.even n). }
  unfold addMessage. rewrite S, target. cbn [option_map].
  destruct (Nat.even (List.length fs)) eqn:Ev.
  - rewrite String.eqb_refl.
    replace (String.eqb (c_id c) "") with false
      by (symmetry; now apply String.eqb_neq).
    rewrite map_app, IH. cbn [map LiveScreen.sender Nat.add]. now rewrite Ev.
  - replace (String.eqb (c_id c) "me") with false
      by (symmetry; now apply String.eqb_neq).
    cbn [String.eqb Ascii.eqb Bool.eqb]. rewrite map_app, IH.
    cbn [map LiveScreen.sender Nat.add]. now rewrite Ev.
Qed.
End SetupScreenAlternation.

(** X23.  In [SetupScreen] of part_001, clicks on [Add Message] from
    an empty conversation build a dialogue that alternates: the
    lines at even positions belong to the target contact, those at
    odd positions to 'me' (given a target contact whose id is
    neither 'me' nor empty).  Each click adds one line. *)
Theorem X23_SetupScreen_addMessage_alternates_the_senders :
  forall contacts t c freshes,
    SetupScreen.targetContact contacts (Some t) = Some c ->
    SetupScreen.c_id c <> "me"%string ->
    SetupScreen.c_id c <> ""%string ->
    map LiveScreen.sender
      (fold_left (SetupScreen.addMessage contacts (Some t)) freshes [])
    = map (fun i => if Nat.even i then SetupScreen.c_id c else "me"%string)
        (seq 0 (List.length freshes)).
Proof.
  intros contacts t c freshes T M E.
  exact (addMessage_alternates contacts t c T M E freshes).
Qed.

(** The contacts of the sample project, three clicks. *)
Lemma X23_SetupScreen_addMessage_witness :
  let frank := {| SetupScreen.c_id := "contact-01"; SetupScreen.c_name := "Frank";
                  SetupScreen.avatar := "F" |} in
  let freshes := [(1%nat, "a"%string); (2%nat, "b"%string); (3%nat, "c"%string)] in
  SetupScreen.targetContact [frank] (Some "contact-01"%string) = Some frank
  /\ map LiveScreen.sender
       (fold_left (SetupScreen.addMessage [frank] (Some "contact-01"%string)) freshes [])
     = ["contact-01"; "me"; "contact-01"]%string.
Proof.
  intros frank freshes. split; [reflexivity|].
  exact (X23_SetupScreen_addMessage_alternates_the_senders
           [frank] "contact-01"%string frank freshes eq_refl
           ltac:(discriminate) ltac:(discriminate)).
Defined.

(** ** The wizard of [FlowProp] (third file) *)

Section WizardFacts.
Import WizardView.

Lemma filter_tl_no_actor (f : Participant -> bool) (l : list Participant) :
  Forall (fun q => isActor q = false) (tl l) ->
  Forall (fun q => isActor q = false) (tl (filter f l)).
Proof.
  destruct l as [|a l]; cbn; [constructor|]. intros H.
  assert (F : Forall (fun q => isActor q = false) (filter f l)).
  { rewrite Forall_forall in *. intros q Q. apply filter_In in Q as [Q _]. auto. }
  destruct (f a); cbn; [exact F|].
  destruct (filter f l); cbn; [constructor|]. now inversion F.
Qed.

Lemma step_tl_no_actor (participants : list Participant) (ev : event) :
  Forall (fun q => isActor q = false) (tl participants) ->
  Forall (fun q => isActor q = false) (tl (step participants ev)).
Proof.
  intros H. destruct ev as [n now|i]; cbn [step].
  - unfold handleAddParticipant. destruct n as [s|]; [|exact H].
    destruct (String.eqb s ""); [exact H|].
    destruct participants as [|a l]; cbn; [constructor|].
    apply Forall_app. split; [exact H|]. constructor; [reflexivity|constructor].
  - now apply filter_tl_no_actor.
Qed.

Lemma configured_tl_no_actor (evs : list event) :
  Forall (fun q => isActor q = false) (tl (configured evs)).
Proof.
  unfold configured.
  assert (H : Forall (fun q : Participant => isActor q = false) (tl [])) by constructor.
  revert H. generalize (@nil Participant).
  induction evs as [|ev evs IH]; intros l H; cbn [fold_left]; [exact H|].
  apply IH. now apply step_tl_no_actor.
Qed.

Lemma head_deleted_no_actor (participants : list Participant) (a : Participant) l :
  participants = a :: l ->
  Forall (fun q => isActor q = false) l ->
  Forall (fun q => isActor q = false) (deleteParticipant participants (id a)).
Proof.
  intros -> H. unfold deleteParticipant. cbn. rewrite Z.eqb_refl. cbn.
  rewrite Forall_forall in *. intros q Q. apply filter_In in Q as [Q _]. auto.
Qed.
End WizardFacts.

(** X24.  In the wizard of [FlowProp] only the first participant of
    the list can be the actor: whatever is added and deleted, every
    participant after the first has [isActor] false, so there is one
    actor at most; and once the first participant is deleted from a
    list, nobody in it is the actor. *)
Theorem X24_WizardView_only_the_first_participant_is_the_actor :
  forall evs,
    let participants := WizardView.configured evs in
    Forall (fun q => WizardView.isActor q = false) (tl participants)
    /\ (List.length (filter WizardView.isActor participants) <= 1)%nat
    /\ forall a, hd_error participants = Some a ->
                 Forall (fun q => WizardView.isActor q = false)
                   (WizardView.step participants (WizardView.Delete (WizardView.id a))).
Proof.
  intros evs participants.
  pose proof (configured_tl_no_actor evs) as H. fold participants in H.
  split; [exact H|]. split.
  - destruct participants as [|a l]; cbn in *; [lia|].
    assert (E : filter WizardView.isActor l = []).
    { clear -H. induction l as [|b l IH]; [reflexivity|].
      inversion H as [|? ? B H']; subst. cbn. rewrite B. now apply IH. }
    rewrite E. destruct (WizardView.isActor a); cbn; lia.
  - intros a A. destruct participants as [|b l]; [discriminate|].
    injection A as ->. cbn [WizardView.step].
    now apply (head_deleted_no_actor (a :: l) a l).
Qed.

(** ** A project without an actor *)

Section NoActor.
Import MainView.


End NoActor.



(** ** [LiveChatMode] plays every script to its end *)

Section LiveChatModePlayback.
Import LiveChatMode LiveChatModeShapes LiveChatModePlay.
Variable p : Project.

Lemma effect_at_start (st : state) (j : nat) :
  currentMessageIndex st = Z.of_nat j -> (j <= List.length (messages p))%nat ->
  Timers.pending (timers st) = [] -> waitingForInput st = false ->
  isTyping st = false ->
  transcript st = firstn j (messages p) ->
  at_start p (effect p st) j.
Proof.
  intros E B P W Y T. unfold effect. rewrite (currentMessage_at p st j E).
  destruct (currentMessageIndex st <? Z.of_nat (List.length (messages p))) eqn:L.
  - apply Z.ltb_lt in L.
    destruct (nth_error (messages p) j) as [m|] eqn:N.
    2:{ apply nth_error_None in N. lia. }
    unfold at_start. rewrite N.
    destruct (isUser p m) eqn:U; cbn; rewrite ?U; repeat split; auto.
    rewrite P. cbn. eexists. split; reflexivity.
  - apply Z.ltb_ge in L. unfold at_start.
    replace (nth_error (messages p) j) with (@None Message).
    2:{ symmetry. apply nth_error_None. lia. }
    repeat split; auto.
Qed.

Lemma type_keys (m : Message) (keys : list JS.jsstring) : forall st,
  waitingForInput st = true -> isComplete_chat p st = false ->
  currentMessage p st = Some m ->
  Forall (fun k => ForcedTypingB.key_matches k = true) keys ->
  ForcedTypingB.scriptIndex (typing st) + Z.of_nat (List.length keys)
    <= JS.length (text m) ->
  fold_left (step p) (map Key keys) st
  = with_typing st (fst (ForcedTypingB.run (text m) (typing st) keys)).
Proof.
  induction keys as [|k ks IH]; intros st W C M K B.
  - cbn. now destruct st.
  - inversion K as [|? ? K1 K2]; subst. cbn [map fold_left List.length] in *.
    cbn [step ForcedTypingB.run]. rewrite W, C, M. cbn [andb negb].
    rewrite (B_classified (text m) (typing st) k K1).
    destruct (ForcedTypingB.scriptIndex (typing st) <? JS.length (text m)) eqn:E.
    2:{ apply Z.ltb_ge in E. lia. }
    rewrite IH; auto.
    + cbn [typing with_typing].
      destruct (ForcedTypingB.run (text m) _ ks) as [h outs]. reflexivity.
    + cbn. lia.
Qed.

Lemma play_actor_line (st : state) (i : nat) (m : Message) :
  at_start p st i -> nth_error (messages p) i = Some m -> isUser p m = true ->
  at_start p (fold_left (step p) (line_events p m) st) (S i).
Proof.
  intros (E & T & H) N U. rewrite N, U in H. destruct H as (W & P & Y & I).
  assert (Lt : (i < List.length (messages p))%nat) by (apply nth_error_Some; congruence).
  assert (C : isComplete_chat p st = false).
  { unfold isComplete_chat. rewrite E, Z.geb_leb. apply Z.leb_gt. lia. }
  assert (M : currentMessage p st = Some m) by (rewrite (currentMessage_at p st i E); exact N).
  unfold line_events. rewrite U, fold_left_app.
  set (keys := map (fun _ => JS.lit "a") (text m)).
  replace (map (fun _ : JS.unit16 => Key (JS.lit "a")) (text m)) with (map Key keys)
    by (unfold keys; now rewrite map_map).
  assert (K : Forall (fun k => ForcedTypingB.key_matches k = true) keys).
  { unfold keys. apply Forall_forall. intros k Hk.
    apply in_map_iff in Hk as (u & <- & _). reflexivity. }
  assert (Lk : Z.of_nat (List.length keys) = JS.length (text m)).
  { unfold keys. now rewrite length_map. }
  rewrite (type_keys m keys st W C M K) by (rewrite Y; cbn; lia).
  rewrite Y.
  destruct (B_run_classified (text m) keys ForcedTypingB.init K) as [X _];
    [cbn; lia|].
  destruct (B_prefix_run (text m) keys ForcedTypingB.init (B_prefix_init (text m)))
    as [[_ D] _].
  set (h := fst (ForcedTypingB.run (text m) ForcedTypingB.init keys)) in *.
  cbn [ForcedTypingB.scriptIndex ForcedTypingB.init] in X.
  assert (D' : ForcedTypingB.displayText h = text m).
  { rewrite D, X, Z.add_0_l, Lk. unfold JS.length. rewrite Nat2Z.id. apply firstn_all. }
  cbn [fold_left].
  (* Enter *)
  assert (S1 : step p (with_typing st h) (Key JS.Enter)
               = onComplete m (text m) (with_typing st ForcedTypingB.init)).
  { cbn [step waitingForInput with_typing]. rewrite W.
    replace (isComplete_chat p (with_typing st h)) with false by (symmetry; exact C).
    cbn [andb negb].
    replace (currentMessage p (with_typing st h)) with (Some m) by (symmetry; exact M).
    cbn [typing with_typing]. rewrite B_enter.
    replace (ForcedTypingB.scriptIndex h >=? JS.length (text m)) with true
      by (symmetry; rewrite Z.geb_leb; apply Z.leb_le; lia).
    now rewrite D'. }
  rewrite S1.
  (* the timer that steps on *)
  cbn [step]. unfold onComplete at 1. cbn [timers with_typing].
  erewrite fire_single by (rewrite pending_setTimeout, P; reflexivity).
  cbn [Timers.run run_callback].
  apply effect_at_start; cbn -[firstn]; auto; try lia.
  unfold transcript in *. cbn -[firstn]. rewrite map_app, T. cbn -[firstn].
  rewrite <- (firstn_snoc_nth _ _ _ N). now destruct m.
Qed.

Lemma play_contact_line (st : state) (i : nat) (m : Message) :
  at_start p st i -> nth_error (messages p) i = Some m -> isUser p m = false ->
  at_start p (fold_left (step p) (line_events p m) st) (S i).
Proof.
  intros (E & T & H) N U. rewrite N, U in H. destruct H as (W & x & P & X).
  assert (Lt : (i < List.length (messages p))%nat) by (apply nth_error_Some; congruence).
  unfold line_events. rewrite U. cbn [fold_left step].
  rewrite (fire_single _ _ P), X. cbn [run_callback with_timers timers].
  erewrite fire_single by (rewrite pending_setTimeout; reflexivity).
  cbn [Timers.run run_callback].
  apply effect_at_start; cbn -[firstn]; auto; try lia.
  unfold transcript in *. cbn -[firstn]. rewrite map_app, T. cbn -[firstn].
  now apply firstn_snoc_nth.
Qed.

Lemma play_rest (rest : list Message) : forall pre st,
  messages p = (pre ++ rest)%list ->
  at_start p st (List.length pre) ->
  at_start p (fold_left (step p) (flat_map (line_events p) rest) st)
    (List.length (messages p)).
Proof.
  induction rest as [|m rest IH]; intros pre st M A.
  - cbn. rewrite M, app_nil_r. exact A.
  - cbn [flat_map]. rewrite fold_left_app.
    assert (N : nth_error (messages p) (List.length pre) = Some m).
    { rewrite M, nth_error_app2, Nat.sub_diag by lia. reflexivity. }
    assert (A' : at_start p (fold_left (step p) (line_events p m) st)
                   (S (List.length pre))).
    { destruct (isUser p m) eqn:U;
        [now apply play_actor_line|now apply play_contact_line]. }
    apply (IH (pre ++ [m])%list).
    + now rewrite <- app_assoc.
    + now rewrite length_app, Nat.add_1_r.
Qed.

Lemma LiveChatMode_plays_the_script :
  let st := session p (performance p) in
  transcript st = messages p
  /\ isComplete_chat p st = true
  /\ Timers.pending (timers st) = []
  /\ waitingForInput st = false
  /\ isTyping st = false.
Proof.
  intros st.
  assert (A : at_start p st (List.length (messages p))).
  { apply (play_rest (messages p) []); [reflexivity|].
    apply (effect_at_start blank 0); cbn; auto. lia. }
  destruct A as (E & T & H).
  replace (nth_error (messages p) (List.length (messages p))) with (@None Message) in H
    by (symmetry; apply nth_error_None; lia).
  destruct H as (P & W & Y). rewrite firstn_all in T.
  repeat split; auto.
  unfold isComplete_chat. rewrite E, Z.geb_leb. apply Z.leb_le. lia.
Qed.
End LiveChatModePlayback.

(** X26.  [LiveChatMode] can play every script to its end: when for
    each line of the actor one character key is pressed for each of
    its characters, then [Enter], and the timers fire as they come,
    the chat holds at the end the whole script, line for line; no
    timer is pending, no input is awaited and the typing indicator
    is off. *)
Theorem X26_LiveChatMode_plays_every_script_to_its_end :
  forall p,
    let st := LiveChatMode.session p (LiveChatModePlay.performance p) in
    LiveChatModeShapes.transcript st = LiveChatMode.messages p
    /\ LiveChatMode.isComplete_chat p st = true
    /\ Timers.pending (LiveChatMode.timers st) = []
    /\ LiveChatMode.waitingForInput st = false
    /\ LiveChatMode.isTyping st = false.
Proof.
  intros p. exact (LiveChatMode_plays_the_script p).
Qed.

(** ** A script of actor lines in the live mode of [FlowProp] *)

Section FlowPropRunFacts.
Import FlowProp FlowPropShapes FlowPropRuns.
Variable p : Project.

Lemma filter_all {A} (f : A -> bool) (l : list A) :
  forallb f l = true -> filter f l = l.
Proof.
  induction l as [|a l IH]; cbn; [reflexivity|].
  intros H. apply andb_true_iff in H as [H1 H2]. rewrite H1. f_equal. auto.
Qed.

Lemma forallb_firstn {A} (f : A -> bool) (l : list A) (k : nat) :
  forallb f l = true -> forallb f (firstn k l) = true.
Proof.
  revert k. induction l as [|a l IH]; intros [|k]; cbn; auto.
  intros H. apply andb_true_iff in H as [H1 H2]. rewrite H1. cbn. auto.
Qed.

Lemma type_forced_text (keys : list JS.jsstring) : forall st,
  currentView st = live -> forcedText st <> [] ->
  Forall (fun key => JS.length key = 1) keys ->
  forcedTextIndex st + Z.of_nat (List.length keys) <= JS.length (forcedText st) ->
  let st' := steps p st (map (fun key => Key key 0) keys) in
  currentView st' = live
  /\ forcedText st' = forcedText st
  /\ forcedTextIndex st' = forcedTextIndex st + Z.of_nat (List.length keys)
  /\ currentMessageIndex st' = currentMessageIndex st
  /\ liveMessages st' = liveMessages st
  /\ timers st' = timers st.
Proof.
  unfold steps.
  induction keys as [|key keys IH]; intros st V F K B; cbn [map fold_left List.length] in *.
  - repeat split; auto. lia.
  - inversion K as [|? ? K1 K2]; subst. cbn [step]. rewrite V.
    rewrite (F_printable p 0 st key K1 F).
    destruct (forcedTextIndex st <? JS.length (forcedText st)) eqn:E.
    2:{ apply Z.ltb_ge in E. lia. }
    match goal with
    | |- context [fold_left _ _ ?s] => destruct (IH s) as (V' & F' & I' & C' & L' & T')
    end; cbn; auto; try lia.
    cbn in *. repeat split; auto. lia.
Qed.

Lemma enter_sends_the_next (t : JS.jsstring) (st : state) (k : nat) (r : Q) :
  forallb isActor (messages p) = true -> t <> [] ->
  (k < List.length (messages p))%nat ->
  typed_once p t st k -> typed_once p t (step p st (Key JS.Enter r)) (S k).
Proof.
  intros A Ne Lt (V & F & I & C & L & T).
  destruct (nth_error (messages p) k) as [m|] eqn:N.
  2:{ apply nth_error_None in N. lia. }
  cbn [step]. rewrite V. unfold handleKeyDown. rewrite F, I, C, L.
  replace (JS.length t =? 0) with false.
  2:{ symmetry. apply Z.eqb_neq. unfold JS.length. destruct t; [contradiction|cbn; lia]. }
  replace (JS.eqb JS.Enter JS.Backspace) with false by reflexivity.
  rewrite JS_eqb_refl.
  replace (JS.length t >=? JS.length t) with true
    by (symmetry; rewrite Z.geb_leb; apply Z.leb_le; lia).
  rewrite (filter_all _ _ A), (filter_all _ _ (forallb_firstn _ _ k A)).
  rewrite length_firstn, Nat.min_l, N by lia.
  assert (S1 : (if 0 + 1 <? Z.of_nat (List.length (messages p))
                then match at_index (messages p) (0 + 1) with
                     | Some nm =>
                         if isActor nm then timers st
                         else snd (Timers.setTimeout
                                     {| cb_project := p; nextMessage := nm;
                                        nextNonActorIndex := 0 + 1 |}
                                     (delay_of p r) (timers st))
                     | None => timers st
                     end
                else timers st) = timers st).
  { destruct (0 + 1 <? Z.of_nat (List.length (messages p))); [|reflexivity].
    destruct (at_index (messages p) (0 + 1)) as [nm|] eqn:E; [|reflexivity].
    apply at_index_In in E. rewrite forallb_forall in A. now rewrite (A nm E). }
  rewrite S1. unfold typed_once. cbn -[firstn]. repeat split; auto.
  now apply firstn_snoc_nth.
Qed.

Lemma enters_send_the_lines (t : JS.jsstring) (k : nat) : forall st,
  forallb isActor (messages p) = true -> t <> [] ->
  (k <= List.length (messages p))%nat ->
  typed_once p t st 0 ->
  typed_once p t (steps p st (repeat (Key JS.Enter 0) k)) k.
Proof.
  intros st A Ne. induction k as [|k IH]; intros Lt H; [exact H|].
  replace (repeat (Key JS.Enter 0) (S k))
    with (repeat (Key JS.Enter 0) k ++ [Key JS.Enter 0])%list
    by (rewrite <- repeat_cons; reflexivity).
  unfold steps in *. rewrite fold_left_app. cbn [fold_left].
  apply enter_sends_the_next; auto; try lia. apply IH; auto. lia.
Qed.

Lemma all_actor_script_is_sent (m : Message) (rest : list Message)
      (keys : list JS.jsstring) (k : nat) :
  messages p = m :: rest ->
  forallb isActor (messages p) = true ->
  text m <> [] ->
  Forall (fun key => JS.length key = 1) keys ->
  Z.of_nat (List.length keys) = JS.length (text m) ->
  (k <= List.length (messages p))%nat ->
  liveMessages
    (steps p init
       (GoLive :: map (fun key => Key key 0) keys ++ repeat (Key JS.Enter 0) k))
  = firstn k (messages p).
Proof.
  intros M A Ne K Lk Le.
  unfold steps. cbn [fold_left step currentView init]. rewrite M at 1.
  rewrite fold_left_app. fold (steps p).
  set (st0 := startLiveMode p init).
  assert (S0 : currentView st0 = live /\ forcedText st0 = text m
               /\ forcedTextIndex st0 = 0 /\ currentMessageIndex st0 = 0
               /\ liveMessages st0 = [] /\ timers st0 = Timers.empty).
  { unfold st0, startLiveMode. rewrite (filter_all _ _ A), M. cbn. repeat split. }
  destruct S0 as (V0 & F0 & I0 & C0 & L0 & T0).
  assert (N0 : forcedText st0 <> []) by now rewrite F0.
  assert (B0 : forcedTextIndex st0 + Z.of_nat (List.length keys)
               <= JS.length (forcedText st0)) by (rewrite F0, I0; lia).
  destruct (type_forced_text keys st0 V0 N0 K B0) as (V & F & I & C & L & T).
  cbv zeta in *.
  set (st1 := steps p st0 (map (fun key => Key key 0) keys)) in *.
  assert (H1 : typed_once p (text m) st1 0).
  { unfold typed_once. rewrite V, F, I, C, L, T, F0, I0, C0, L0, T0.
    repeat split; auto. }
  destruct (enters_send_the_lines (text m) k st1 A Ne Le H1) as (_ & _ & _ & _ & L' & _).
  exact L'.
Qed.
End FlowPropRunFacts.

(** X27.  In the live view of [FlowProp] a contact's line comes on
    screen only from the run of contacts' lines that starts at index
    1 of the script that is played: every line on screen is a line
    of the actor in that script, or stands in it at an index [j] of
    at least 1 such that all lines from index 1 to [j] are contacts'
    lines.  A contact's line behind a line of the actor at index 1
    or later is never delivered.  This holds for a session on
    project [p] that starts from any state of the component in which
    the live view is not shown and no timer is pending, whatever
    project was played before. *)
Theorem X27_FlowProp_delivers_contact_lines_from_the_first_run_only :
  forall st0 p evs,
    FlowPropShapes.idle st0 ->
    let st := FlowProp.steps p st0 evs in
    FlowProp.currentView st = FlowProp.live ->
    Forall (fun m =>
              (FlowProp.isActor m = true /\ In m (FlowProp.messages p))
              \/ exists j,
                   FlowProp.at_index (FlowProp.messages p) j = Some m
                   /\ 1 <= j
                   /\ forall k, 1 <= k <= j ->
                        exists m', FlowProp.at_index (FlowProp.messages p) k = Some m'
                                   /\ FlowProp.isActor m' = false)
      (FlowProp.liveMessages st).
Proof.
  intros st0 p evs I st V.
  pose proof (session_screen p st0 evs I V) as H.
  rewrite Forall_forall in *. intros m M.
  destruct (H m M) as [A|(j & [J1 J2] & E)]; [now left|].
  right. exists j. auto.
Qed.

(** After a session of another project: the actor's line is sent,
    the contact's line at index 1 is delivered, and the contact's
    line at index 3, behind a line of the actor, never is, although
    the actor's second line is sent. *)
Lemma X27_FlowProp_delivers_contact_lines_witness :
  let ok := {| FlowProp.id := 5; FlowProp.senderName := "A";
               FlowProp.text := JS.lit "ok"; FlowProp.isActor := true |} in
  let hm := {| FlowProp.id := 6; FlowProp.senderName := "C";
               FlowProp.text := JS.lit "hm"; FlowProp.isActor := false |} in
  let no := {| FlowProp.id := 7; FlowProp.senderName := "A";
               FlowProp.text := JS.lit "no"; FlowProp.isActor := true |} in
  let so := {| FlowProp.id := 8; FlowProp.senderName := "C";
               FlowProp.text := JS.lit "so"; FlowProp.isActor := false |} in
  let p := {| FlowProp.messages := [ok; hm; no; so]; FlowProp.delayMode := FlowProp.custom;
              FlowProp.customDelay := 2 |} in
  let evs := [FlowProp.GoLive; FlowProp.Key (JS.lit "o") 0; FlowProp.Key (JS.lit "k") 0;
              FlowProp.Key JS.Enter 0; FlowProp.Fire;
              FlowProp.Key (JS.lit "n") 0; FlowProp.Key (JS.lit "o") 0;
              FlowProp.Key JS.Enter 0; FlowProp.Fire] in
  let st := FlowProp.steps p FlowPropRuns.after_another_project evs in
  FlowPropShapes.idle FlowPropRuns.after_another_project
  /\ FlowProp.liveMessages st = [ok; hm; no]
  /\ Forall (fun m =>
               (FlowProp.isActor m = true /\ In m (FlowProp.messages p))
               \/ exists j,
                    FlowProp.at_index (FlowProp.messages p) j = Some m
                    /\ 1 <= j
                    /\ forall k, 1 <= k <= j ->
                         exists m', FlowProp.at_index (FlowProp.messages p) k = Some m'
                                    /\ FlowProp.isActor m' = false)
       (FlowProp.liveMessages st).
Proof.
  intros ok hm no so p evs st.
  assert (I : FlowPropShapes.idle FlowPropRuns.after_another_project).
  { split; [vm_compute; discriminate|vm_compute; reflexivity]. }
  split; [exact I|]. split; [vm_compute; reflexivity|].
  apply (X27_FlowProp_delivers_contact_lines_from_the_first_run_only
           FlowPropRuns.after_another_project p evs I).
  vm_compute. reflexivity.
Defined.

(** X28.  In a script of [FlowProp] that consists of lines of the
    actor, typing once is enough: when the first line has been
    typed, every [Enter] sends the next line of the script, the
    input still showing the first.  After [k] times [Enter] the
    first [k] lines are on screen. *)
Theorem X28_FlowProp_sends_actor_lines_without_typing_them :
  forall p m rest keys k,
    FlowProp.messages p = m :: rest ->
    forallb FlowProp.isActor (FlowProp.messages p) = true ->
    FlowProp.text m <> [] ->
    Forall (fun key => JS.length key = 1) keys ->
    Z.of_nat (List.length keys) = JS.length (FlowProp.text m) ->
    (k <= List.length (FlowProp.messages p))%nat ->
    FlowProp.liveMessages
      (FlowProp.steps p FlowProp.init
         (FlowProp.GoLive
            :: map (fun key => FlowProp.Key key 0) keys
            ++ repeat (FlowProp.Key JS.Enter 0) k))
    = firstn k (FlowProp.messages p).
Proof.
  intros p m rest keys k M A Ne K Lk Le.
  exact (all_actor_script_is_sent p m rest keys k M A Ne K Lk Le).
Qed.

(** Two lines of the actor: "hi" is typed, [Enter] is pressed
    twice. *)
Lemma X28_FlowProp_sends_actor_lines_witness :
  let hi := {| FlowProp.id := 1; FlowProp.senderName := "A";
               FlowProp.text := JS.lit "hi"; FlowProp.isActor := true |} in
  let bye := {| FlowProp.id := 2; FlowProp.senderName := "A";
                FlowProp.text := JS.lit "goodbye"; FlowProp.isActor := true |} in
  let p := {| FlowProp.messages := [hi; bye]; FlowProp.delayMode := FlowProp.natural;
              FlowProp.customDelay := 2 |} in
  let keys := [JS.lit "h"; JS.lit "i"] in
  Forall (fun key => JS.length key = 1) keys
  /\ FlowProp.liveMessages
       (FlowProp.steps p FlowProp.init
          (FlowProp.GoLive
             :: map (fun key => FlowProp.Key key 0) keys
             ++ repeat (FlowProp.Key JS.Enter 0) 2))
     = [hi; bye].
Proof.
  intros hi bye p keys.
  assert (K : Forall (fun key => JS.length key = 1) keys) by (repeat constructor).
  split; [exact K|].
  exact (X28_FlowProp_sends_actor_lines_without_typing_them
           p hi [bye] keys 2%nat eq_refl eq_refl ltac:(discriminate) K eq_refl
           ltac:(cbn; lia)).
Defined.
